(** * SQL-Exchange query generation: response classification, JSON repair,
      structural validation, statistics ledgers and the retry controller.

    A shallow embedding of [src/query_generation/utils.py],
    [src/query_generation/stats.py], [src/query_generation/model.py] and of
    the driver [run] of [src/query_generation/core.py], together with the
    part of CPython's [json] decoder these functions call.

    Conventions.
    - A Python [str] that carries model output is a list of Unicode code
      points ([pystr]).  Dictionary keys, exception messages and the
      provider's finish reasons are ASCII identifiers and are kept as
      [string].
    - A Python [dict] is an association list in insertion order ([dict]).
    - Code that mutates an object in place is a state transformer [M S A];
      a raised exception carries the state reached when it was raised.
    - Pure code that may raise returns [result A]. *)

From Stdlib Require Import ZArith NArith List String Ascii Bool Lia SpecFloat
  Permutation.
Import ListNotations.

Set Warnings "-register-all".

Local Open Scope list_scope.

(* ================================================================== *)
(** ** Python prelude *)
(* ================================================================== *)

(** Messages of [json.JSONDecodeError], by kind. *)
Inductive decode_error : Type :=
| ExpectingValue
| ExpectingComma
| ExpectingColon
| ExpectingPropertyName
| ExtraData
| UnterminatedString
| InvalidControlCharacter
| InvalidEscape
| InvalidUnicodeEscape
| UnexpectedBOM.

Inductive exn : Type :=
| JSONDecodeError (kind : decode_error) (pos : nat)
| ValueError
| TypeError
| KeyError (key : string)
| AttributeError
| UnboundLocalError
| OverflowError
| RecursionError
| IndexError
| SystemExit (code : Z).

Inductive result (A : Type) : Type :=
| Ok (a : A)
| Err (e : exn).
Arguments Ok {A} a.
Arguments Err {A} e.

Definition rbind {A B : Type} (r : result A) (k : A -> result B) : result B :=
  match r with
  | Ok a => k a
  | Err e => Err e
  end.

Inductive outcome (S A : Type) : Type :=
| Returned (a : A) (s : S)
| Raised (e : exn) (s : S).
Arguments Returned {S A} a s.
Arguments Raised {S A} e s.

Definition M (S A : Type) : Type := S -> outcome S A.

Definition ret {S A : Type} (a : A) : M S A := fun s => Returned a s.

Definition bind {S A B : Type} (c : M S A) (k : A -> M S B) : M S B :=
  fun s => match c s with
           | Returned a s' => k a s'
           | Raised e s' => Raised e s'
           end.

Definition raise {S A : Type} (e : exn) : M S A := fun s => Raised e s.

Definition get {S : Type} : M S S := fun s => Returned s s.

Definition modify {S : Type} (f : S -> S) : M S unit := fun s => Returned tt (f s).

Definition lift_result {S A : Type} (r : result A) : M S A :=
  fun s => match r with
           | Ok a => Returned a s
           | Err e => Raised e s
           end.

Declare Scope py_scope.
Delimit Scope py_scope with py.
Notation "x <- c ;; k" := (bind c (fun x => k))
  (at level 61, c at next level, right associativity) : py_scope.
Notation "c ;; k" := (bind c (fun _ => k))
  (at level 61, right associativity) : py_scope.

(** *** Strings *)

Definition pystr : Type := list N.

Definition ch (a : ascii) : N := N_of_ascii a.

(** A [str] literal. *)
Definition py (s : string) : pystr := map N_of_ascii (list_ascii_of_string s).

(** A [str] literal in which every apostrophe stands for a double quote. *)
Definition lit (s : string) : pystr :=
  map (fun c => if N.eqb c 39 then 34%N else c) (py s).

Fixpoint pystr_eqb (a b : pystr) : bool :=
  match a, b with
  | [], [] => true
  | x :: a', y :: b' => N.eqb x y && pystr_eqb a' b'
  | _, _ => false
  end.

(** [str.upper] on an ASCII string. *)
Definition upper_ascii (a : ascii) : ascii :=
  let n := nat_of_ascii a in
  if (97 <=? n)%nat && (n <=? 122)%nat then ascii_of_nat (n - 32) else a.

Fixpoint upper (s : string) : string :=
  match s with
  | EmptyString => EmptyString
  | String a s' => String (upper_ascii a) (upper s')
  end.

(** [str.lower] on an ASCII string. *)
Definition lower_ascii (a : ascii) : ascii :=
  let n := nat_of_ascii a in
  if (65 <=? n)%nat && (n <=? 90)%nat then ascii_of_nat (n + 32) else a.

Fixpoint lower (s : string) : string :=
  match s with
  | EmptyString => EmptyString
  | String a s' => String (lower_ascii a) (lower s')
  end.

(** [sub in s] for two [str]. *)
Fixpoint str_in_at (sub s : string) : bool :=
  match sub, s with
  | EmptyString, _ => true
  | String a sub', String b s' => Ascii.eqb a b && str_in_at sub' s'
  | String _ _, EmptyString => false
  end.

Fixpoint str_in (sub s : string) : bool :=
  str_in_at sub s ||
  match s with
  | EmptyString => false
  | String _ s' => str_in sub s'
  end.

(** *** Dictionaries *)

Definition dict (V : Type) : Type := list (string * V).

Fixpoint dict_get {V : Type} (d : dict V) (k : string) : option V :=
  match d with
  | [] => None
  | (k', v) :: d' => if String.eqb k' k then Some v else dict_get d' k
  end.

Definition dict_contains {V : Type} (d : dict V) (k : string) : bool :=
  match dict_get d k with
  | Some _ => true
  | None => false
  end.

(** [d[k] = v]: an existing key keeps its place, a new key goes last. *)
Fixpoint dict_set {V : Type} (d : dict V) (k : string) (v : V) : dict V :=
  match d with
  | [] => [(k, v)]
  | (k', v') :: d' =>
      if String.eqb k' k then (k', v) :: d' else (k', v') :: dict_set d' k v
  end.

(** [d.update(e)] *)
Definition dict_update {V : Type} (d e : dict V) : dict V :=
  fold_left (fun acc kv => dict_set acc (fst kv) (snd kv)) e d.

(* ================================================================== *)
(** ** The [json] decoder ([json.loads])

    The decoder of CPython 3.12 with its default arguments ([strict=True],
    no hooks).  The kind of every [JSONDecodeError] is that of the
    interpreter; the position of ["Expecting ..."] errors, the only one the
    program reads, is the same in the C and the Python implementation of
    the scanner, and the positions of string errors follow the C one. *)
(* ================================================================== *)

(** The text of [JSONDecodeError.msg]; [str(e)] appends
    [": line L column C (char P)"] to it. *)
Definition errmsg (k : decode_error) : string :=
  match k with
  | ExpectingValue => "Expecting value"
  | ExpectingComma => "Expecting ',' delimiter"
  | ExpectingColon => "Expecting ':' delimiter"
  | ExpectingPropertyName => "Expecting property name enclosed in double quotes"
  | ExtraData => "Extra data"
  | UnterminatedString => "Unterminated string starting at"
  | InvalidControlCharacter => "Invalid control character at"
  | InvalidEscape => "Invalid \escape"
  | InvalidUnicodeEscape => "Invalid \uXXXX escape"
  | UnexpectedBOM => "Unexpected UTF-8 BOM (decode using utf-8-sig)"
  end%string.

(** Decoded values.  A [float] is kept as the literal handed to
    [float(...)]; the constants [NaN], [Infinity] and [-Infinity] are
    floats as well. *)
Inductive json : Type :=
| JNull
| JBool (b : bool)
| JInt (z : Z)
| JFloat (literal : pystr)
| JStr (s : pystr)
| JList (l : list json)
| JDict (items : list (pystr * json)).

Definition is_ws (c : N) : bool :=
  N.eqb c 32 || N.eqb c 9 || N.eqb c 10 || N.eqb c 13.

Definition is_digit (c : N) : bool := N.leb 48 c && N.leb c 57.

Fixpoint skip_ws (pos : nat) (s : pystr) : nat * pystr :=
  match s with
  | c :: s' => if is_ws c then skip_ws (S pos) s' else (pos, s)
  | [] => (pos, s)
  end.

Fixpoint starts_with (p s : pystr) : bool :=
  match p, s with
  | [], _ => true
  | x :: p', y :: s' => N.eqb x y && starts_with p' s'
  | _ :: _, [] => false
  end.

Definition hexval (c : N) : option N :=
  if N.leb 48 c && N.leb c 57 then Some (c - 48)%N
  else if N.leb 97 c && N.leb c 102 then Some (c - 87)%N
  else if N.leb 65 c && N.leb c 70 then Some (c - 55)%N
  else None.

Definition hex4 (a b c d : N) : option N :=
  match hexval a, hexval b, hexval c, hexval d with
  | Some x, Some y, Some z, Some w => Some (((x * 16 + y) * 16 + z) * 16 + w)%N
  | _, _, _, _ => None
  end.

Definition is_high_surrogate (c : N) : bool := N.leb 55296 c && N.leb c 56319.
Definition is_low_surrogate (c : N) : bool := N.leb 56320 c && N.leb c 57343.
Definition join_surrogates (hi lo : N) : N :=
  (65536 + (N.lor (N.shiftl (hi - 55296) 10) (lo - 56320)))%N.

(** The [BACKSLASH] table. *)
Definition backslash (c : N) : option N :=
  if N.eqb c 34 then Some 34%N
  else if N.eqb c 92 then Some 92%N
  else if N.eqb c 47 then Some 47%N
  else if N.eqb c (ch "b") then Some 8%N
  else if N.eqb c (ch "f") then Some 12%N
  else if N.eqb c (ch "n") then Some 10%N
  else if N.eqb c (ch "r") then Some 13%N
  else if N.eqb c (ch "t") then Some 9%N
  else None.

(** [scanstring(s, end)]: [s] is the text after the opening quote, which
    stands at [begin]; [pos] is the index of the head of [s]. *)
Fixpoint scanstring (begin pos : nat) (s : pystr) (acc : pystr)
  : result (pystr * nat * pystr) :=
  match s with
  | [] => Err (JSONDecodeError UnterminatedString begin)
  | c :: s1 =>
      if N.eqb c 34 then Ok (rev acc, S pos, s1)
      else if N.eqb c 92 then
        match s1 with
        | [] => Err (JSONDecodeError UnterminatedString begin)
        | e :: s2 =>
            if N.eqb e (ch "u") then
              match s2 with
              | h1 :: h2 :: h3 :: h4 :: s3 =>
                  match hex4 h1 h2 h3 h4 with
                  | None => Err (JSONDecodeError InvalidUnicodeEscape (S pos))
                  | Some u =>
                      match s3 with
                      | b2 :: u2 :: g1 :: g2 :: g3 :: g4 :: s4 =>
                          if is_high_surrogate u && N.eqb b2 92 && N.eqb u2 (ch "u") then
                            match hex4 g1 g2 g3 g4 with
                            | None => Err (JSONDecodeError InvalidUnicodeEscape (pos + 7))
                            | Some u' =>
                                if is_low_surrogate u'
                                then scanstring begin (pos + 12) s4 (join_surrogates u u' :: acc)
                                else scanstring begin (pos + 6) s3 (u :: acc)
                            end
                          else scanstring begin (pos + 6) s3 (u :: acc)
                      | _ => scanstring begin (pos + 6) s3 (u :: acc)
                      end
                  end
              | _ => Err (JSONDecodeError InvalidUnicodeEscape (S pos))
              end
            else
              match backslash e with
              | Some c' => scanstring begin (pos + 2) s2 (c' :: acc)
              | None => Err (JSONDecodeError InvalidEscape pos)
              end
        end
      else if N.leb c 31 then Err (JSONDecodeError InvalidControlCharacter pos)
      else scanstring begin (S pos) s1 (c :: acc)
  end.

(** Longest prefix of ASCII digits. *)
Fixpoint span_digits (s : pystr) : pystr * pystr :=
  match s with
  | c :: s' =>
      if is_digit c then let (d, r) := span_digits s' in (c :: d, r) else ([], s)
  | [] => ([], [])
  end.

Definition digits_value (d : pystr) : Z :=
  fold_left (fun acc c => (acc * 10 + (Z.of_N c - 48))%Z) d 0%Z.

(** [sys.get_int_max_str_digits()] *)
Definition int_max_str_digits : nat := 4300.

(** The integer group of [NUMBER_RE] (an optional minus sign, then a single
    zero or a non-zero digit followed by digits): sign, digits, rest. *)
Definition match_integer (s : pystr) : option (bool * pystr * pystr) :=
  let (neg, s0) :=
    match s with
    | c :: s' => if N.eqb c (ch "-") then (true, s') else (false, s)
    | [] => (false, s)
    end in
  match s0 with
  | c :: s1 =>
      if N.eqb c 48 then Some (neg, [c], s1)
      else if is_digit c then let (d, r) := span_digits s1 in Some (neg, c :: d, r)
      else None
  | [] => None
  end.

(** The fraction group of [NUMBER_RE]: a dot followed by one digit or more. *)
Definition match_frac (s : pystr) : pystr * pystr :=
  match s with
  | c :: s1 =>
      if N.eqb c (ch ".") then
        match span_digits s1 with
        | ([], _) => ([], s)
        | (d, r) => (c :: d, r)
        end
      else ([], s)
  | [] => ([], s)
  end.

(** The exponent group of [NUMBER_RE]: e or E, an optional sign, one digit
    or more. *)
Definition match_exp (s : pystr) : pystr * pystr :=
  match s with
  | c :: s1 =>
      if N.eqb c (ch "e") || N.eqb c (ch "E") then
        let (sign, s2) :=
          match s1 with
          | g :: s' => if N.eqb g (ch "+") || N.eqb g (ch "-") then ([g], s') else ([], s1)
          | [] => ([], s1)
          end in
        match span_digits s2 with
        | ([], _) => ([], s)
        | (d, r) => (c :: sign ++ d, r)
        end
      else ([], s)
  | [] => ([], s)
  end.

Inductive scan (A : Type) : Type :=
| Scanned (a : A) (pos : nat) (rest : pystr)
| Stop (pos : nat)
| Fail (e : exn)
| OutOfFuel.
Arguments Scanned {A} a pos rest.
Arguments Stop {A} pos.
Arguments Fail {A} e.
Arguments OutOfFuel {A}.

(** [match_number] and the conversion of its groups by [int] or [float]. *)
Definition scan_number (pos : nat) (s : pystr) : scan json :=
  match match_integer s with
  | None => Stop pos
  | Some (neg, digits, r0) =>
      let (frac, r1) := match_frac r0 in
      let (exp, r2) := match_exp r1 in
      let integer := (if neg then [ch "-"] else []) ++ digits in
      let stop := (pos + (List.length s - List.length r2))%nat in
      match frac, exp with
      | [], [] =>
          if (int_max_str_digits <? List.length digits)%nat then Fail ValueError
          else Scanned (JInt (if neg then - digits_value digits else digits_value digits)%Z)
                       stop r2
      | _, _ => Scanned (JFloat (integer ++ frac ++ exp)) stop r2
      end
  end.

(** [dict(pairs)] *)
Fixpoint pairs_set (d : list (pystr * json)) (k : pystr) (v : json)
  : list (pystr * json) :=
  match d with
  | [] => [(k, v)]
  | (k', v') :: d' =>
      if pystr_eqb k' k then (k', v) :: d' else (k', v') :: pairs_set d' k v
  end.

Definition dict_of_pairs (pairs : list (pystr * json)) : list (pystr * json) :=
  fold_left (fun d kv => pairs_set d (fst kv) (snd kv)) pairs [].

(** [scan_once], [JSONArray] and [JSONObject].  [array_loop] and
    [object_loop] are the [while True] loops of the latter two; [racc]
    holds the values read so far, last first. *)
Fixpoint scan_once (fuel : nat) (pos : nat) (s : pystr) {struct fuel} : scan json :=
  match fuel with
  | O => OutOfFuel
  | S fuel' =>
      match s with
      | [] => Stop pos
      | c :: s1 =>
          if N.eqb c 34 then
            match scanstring pos (S pos) s1 [] with
            | Ok (str, p, r) => Scanned (JStr str) p r
            | Err e => Fail e
            end
          else if N.eqb c (ch "{") then
            let (p1, r1) := skip_ws (S pos) s1 in
            match r1 with
            | c1 :: r2 =>
                if N.eqb c1 (ch "}") then Scanned (JDict []) (S p1) r2
                else if N.eqb c1 34 then object_loop fuel' p1 r2 []
                else Fail (JSONDecodeError ExpectingPropertyName p1)
            | [] => Fail (JSONDecodeError ExpectingPropertyName p1)
            end
          else if N.eqb c (ch "[") then
            let (p1, r1) := skip_ws (S pos) s1 in
            match r1 with
            | c1 :: r2 =>
                if N.eqb c1 (ch "]") then Scanned (JList []) (S p1) r2
                else array_loop fuel' p1 r1 []
            | [] => array_loop fuel' p1 r1 []
            end
          else if starts_with (py "null") s then Scanned JNull (pos + 4) (skipn 4 s)
          else if starts_with (py "true") s then Scanned (JBool true) (pos + 4) (skipn 4 s)
          else if starts_with (py "false") s then Scanned (JBool false) (pos + 5) (skipn 5 s)
          else
            match scan_number pos s with
            | Stop _ =>
                if starts_with (py "NaN") s
                then Scanned (JFloat (py "NaN")) (pos + 3) (skipn 3 s)
                else if starts_with (py "Infinity") s
                then Scanned (JFloat (py "Infinity")) (pos + 8) (skipn 8 s)
                else if starts_with (py "-Infinity") s
                then Scanned (JFloat (py "-Infinity")) (pos + 9) (skipn 9 s)
                else Stop pos
            | r => r
            end
      end
  end

with array_loop (fuel : nat) (pos : nat) (s : pystr) (racc : list json)
  {struct fuel} : scan json :=
  match fuel with
  | O => OutOfFuel
  | S fuel' =>
      match scan_once fuel' pos s with
      | Scanned v p1 r1 =>
          let (p2, r2) := skip_ws p1 r1 in
          match r2 with
          | c :: r3 =>
              if N.eqb c (ch "]") then Scanned (JList (rev (v :: racc))) (S p2) r3
              else if N.eqb c (ch ",") then
                let (p4, r4) := skip_ws (S p2) r3 in
                array_loop fuel' p4 r4 (v :: racc)
              else Fail (JSONDecodeError ExpectingComma p2)
          | [] => Fail (JSONDecodeError ExpectingComma p2)
          end
      | Stop p => Fail (JSONDecodeError ExpectingValue p)
      | Fail e => Fail e
      | OutOfFuel => OutOfFuel
      end
  end

with object_loop (fuel : nat) (pos : nat) (s : pystr) (racc : list (pystr * json))
  {struct fuel} : scan json :=
  match fuel with
  | O => OutOfFuel
  | S fuel' =>
      (* [pos] is the index of the opening quote of the key, [s] the text after it *)
      match scanstring pos (S pos) s [] with
      | Err e => Fail e
      | Ok (key, p0, r0) =>
          let (p1, r1) := skip_ws p0 r0 in
          match r1 with
          | [] => Fail (JSONDecodeError ExpectingColon p1)
          | c1 :: r2 =>
              if negb (N.eqb c1 (ch ":")) then Fail (JSONDecodeError ExpectingColon p1)
              else
                let (p3, r3) := skip_ws (S p1) r2 in
                match scan_once fuel' p3 r3 with
                | Scanned v p4 r4 =>
                    let (p5, r5) := skip_ws p4 r4 in
                    match r5 with
                    | c :: r6 =>
                        if N.eqb c (ch "}")
                        then Scanned (JDict (dict_of_pairs (rev ((key, v) :: racc)))) (S p5) r6
                        else if N.eqb c (ch ",") then
                          let (p7, r7) := skip_ws (S p5) r6 in
                          match r7 with
                          | c7 :: r8 =>
                              if N.eqb c7 34
                              then object_loop fuel' p7 r8 ((key, v) :: racc)
                              else Fail (JSONDecodeError ExpectingPropertyName p7)
                          | [] => Fail (JSONDecodeError ExpectingPropertyName p7)
                          end
                        else Fail (JSONDecodeError ExpectingComma p5)
                    | [] => Fail (JSONDecodeError ExpectingComma p5)
                    end
                | Stop p => Fail (JSONDecodeError ExpectingValue p)
                | Fail e => Fail e
                | OutOfFuel => OutOfFuel
                end
          end
      end
  end.

(** [json.loads(s)] for a [str]: the byte-order-mark test of [loads], then
    [JSONDecoder.decode].  The fuel covers every text (see
    [json_loads_fuel]). *)
Definition json_loads (s : pystr) : result json :=
  if starts_with [65279%N] s then Err (JSONDecodeError UnexpectedBOM 0)
  else
    let (p0, r0) := skip_ws 0 s in
    match scan_once (2 * List.length s + 2) p0 r0 with
    | Scanned v p1 r1 =>
        let (p2, r2) := skip_ws p1 r1 in
        match r2 with
        | [] => Ok v
        | _ :: _ => Err (JSONDecodeError ExtraData p2)
        end
    | Stop p => Err (JSONDecodeError ExpectingValue p)
    | Fail e => Err e
    | OutOfFuel => Err RecursionError
    end.

(* ================================================================== *)
(** ** [src/query_generation/utils.py] *)
(* ================================================================== *)

(** The error set of one attempt: error kind to flag. *)
Definition errors_t : Type := dict bool.

(** [for x in obj] over a decoded value. *)
Definition py_iter (obj : json) : result (list json) :=
  match obj with
  | JList l => Ok l
  | JDict items => Ok (map (fun kv => JStr (fst kv)) items)
  | JStr s => Ok (map (fun c => JStr [c]) s)
  | _ => Err TypeError
  end.

Fixpoint items_get (items : list (pystr * json)) (k : pystr) : option json :=
  match items with
  | [] => None
  | (k', v) :: items' => if pystr_eqb k' k then Some v else items_get items' k
  end.

(** [obj[key]] for a [str] key: only a [dict] has such an item. *)
Definition getitem_str (obj : json) (key : string) : result json :=
  match obj with
  | JDict items =>
      match items_get items (py key) with
      | Some v => Ok v
      | None => Err (KeyError key)
      end
  | _ => Err TypeError
  end.

(** [v != s] for a decoded value [v] and a [str] [s]. *)
Definition ne_str (v : json) (s : pystr) : bool :=
  match v with
  | JStr t => negb (pystr_eqb t s)
  | _ => true
  end.

(** The inner loop of [check_fields]: some field is not a key. *)
Definition field_missing (keys : list pystr) (fields : list pystr) : bool :=
  existsb (fun field => negb (existsb (pystr_eqb field) keys)) fields.

Fixpoint check_fields_loop (response : list json) (fields : list pystr) : result bool :=
  match response with
  | [] => Ok true
  | question :: rest =>
      match question with
      | JDict items =>
          let keys := map fst items in
          if negb (Nat.eqb (List.length keys) (List.length fields)) then Ok false
          else if field_missing keys fields then Ok false
          else check_fields_loop rest fields
      | _ => Err AttributeError
      end
  end.

Definition check_fields (response : json) (fields : list pystr) : result bool :=
  rbind (py_iter response) (fun l => check_fields_loop l fields).

Definition check_special_errors (response_text : pystr) (finish_reason : option string)
  : M errors_t bool :=
  fun errors =>
    if Nat.eqb (List.length response_text) 0 then
      Returned false (dict_set errors "empty_output" true)
    else
      match finish_reason with
      | None => Raised AttributeError errors
      | Some reason =>
          if String.eqb (upper reason) "MAX_TOKEN" then
            Returned false (dict_set errors "max_token" true)
          else if String.eqb (upper reason) "RECITATION" then
            Returned false (dict_set errors "recitation" true)
          else Returned true errors
      end.

(** [s.rfind('\n')]: index of the last newline, [-1] when there is none. *)
Fixpoint rfind_newline_from (i : Z) (s : pystr) (last : Z) : Z :=
  match s with
  | [] => last
  | c :: s' => rfind_newline_from (i + 1) s' (if N.eqb c 10 then i else last)
  end.

Definition rfind_newline (s : pystr) : Z := rfind_newline_from 0 s (-1).

(** [s[i]], a negative index counting from the end. *)
Definition str_getitem (s : pystr) (i : Z) : result N :=
  let j := (if i <? 0 then i + Z.of_nat (List.length s) else i)%Z in
  if (j <? 0)%Z then Err IndexError
  else match nth_error s (Z.to_nat j) with
       | Some c => Ok c
       | None => Err IndexError
       end.

(** The two shapes of the tuple [fix_missing_comma] returns:
    [(True, json_obj, None)] and [(False, None, error_type)]. *)
Inductive fix_result : Type :=
| Fixed (json_obj : json)
| NotFixed (error_type : string).

(** [fix_missing_comma].  Every pass but the last is a Python call of the
    function by itself; [depth] is the number of calls the interpreter's
    recursion limit still allows.  [error_pos] is the number between the
    brackets of ["(char P)"], the position of the error. *)
Fixpoint fix_missing_comma (depth : nat) (content : pystr) : result fix_result :=
  match depth with
  | O => Err RecursionError
  | S depth' =>
      match json_loads content with
      | Ok json_obj => Ok (Fixed json_obj)
      | Err (JSONDecodeError kind pos) =>
          let error_msg := errmsg kind in
          if str_in "Expecting ',' delimiter" error_msg then
            let last_newline := rfind_newline (firstn pos content) in
            rbind
              (if negb (last_newline =? -1)%Z then
                 rbind (str_getitem content (last_newline - 1))
                       (fun c => Ok (negb (N.eqb c (ch ","))))
               else Ok false)
              (fun moved =>
                 let error_pos := if moved then Z.to_nat last_newline else pos in
                 fix_missing_comma depth'
                   (firstn error_pos content ++ [ch ","] ++ skipn error_pos content))
          else if str_in "Invalid" error_msg && str_in "escape" error_msg then
            Ok (NotFixed "invalid_escape")
          else Ok (NotFixed "json_decode")
      | Err e => Err e
      end
  end.

(** [json.loads(obj)] for an object that was already decoded: only a
    [str] is accepted. *)
Definition json_loads_obj (obj : json) : result json :=
  match obj with
  | JStr s => json_loads s
  | _ => Err TypeError
  end.

(** [validate_json_response].  The first component of the returned tuple
    is a decoded value, [JNull] being Python's [None]; the second is
    [False], [True] or [None]. *)
Definition validate_json_response (depth : nat) (response_text : pystr)
  : M errors_t (json * option bool) :=
  fun errors =>
    match json_loads response_text with
    | Ok loaded_json => Returned (loaded_json, Some false) errors
    | Err (JSONDecodeError kind pos) =>
        let e := errmsg kind in
        if str_in "Expecting ',' delimiter" e then
          match fix_missing_comma depth response_text with
          | Err ex => Raised ex errors
          | Ok (Fixed fixed_response) =>
              match json_loads response_text with
              | Err ex => Raised ex errors
              | Ok loaded_json =>
                  match json_loads_obj fixed_response with
                  | Ok v => Returned (v, Some true) errors
                  | Err ex => Raised ex errors
                  end
              end
          | Ok (NotFixed error_type) =>
              Returned (JNull, None) (dict_set errors error_type true)
          end
        else if str_in "Invalid" e && str_in "escape" e then
          Returned (JNull, None) (dict_set errors "invalid_escape" true)
        else Returned (JNull, None) (dict_set errors "json_decode" true)
    | Err ex => Raised ex errors
    end.

(** [target_db_id and ...]: [None] and the empty string are false. *)
Definition truthy_str (s : option pystr) : bool :=
  match s with
  | Some (_ :: _) => true
  | _ => false
  end.

Fixpoint check_db_id_loop (db_id : pystr) (json_obj : list json)
  (target_db_id : option pystr) (failed : Z) : result Z :=
  match json_obj with
  | [] => Ok failed
  | response :: rest =>
      rbind (getitem_str response "source_db_id") (fun src =>
      let failed1 := if ne_str src db_id then (failed + 1)%Z else failed in
      rbind
        (match target_db_id with
         | Some t =>
             if truthy_str target_db_id then
               rbind (getitem_str response "target_db_id")
                     (fun tgt => Ok (if ne_str tgt t then (failed1 + 1)%Z else failed1))
             else Ok failed1
         | None => Ok failed1
         end)
        (fun failed2 => check_db_id_loop db_id rest target_db_id failed2))
  end.

Definition check_db_id (db_id : pystr) (json_obj : json) (target_db_id : option pystr)
  : result Z :=
  rbind (py_iter json_obj) (fun l => check_db_id_loop db_id l target_db_id 0).

(* ================================================================== *)
(** ** [src/query_generation/stats.py] *)
(* ================================================================== *)

(** Values held by a ledger.  A [float] is an IEEE 754 binary64 number. *)
Inductive pyval : Type :=
| VNone
| VBool (b : bool)
| VInt (z : Z)
| VFloat (f : spec_float)
| VStr (s : string).

Definition float_add (x y : spec_float) : spec_float := SFadd 53 1024 x y.

(** [float(z)] for an [int]. *)
Definition int_to_float (z : Z) : result spec_float :=
  match binary_normalize 53 1024 z 0 false with
  | S754_infinity _ => Err OverflowError
  | f => Ok f
  end.

(** [isinstance(value, (int, float))]; [bool] is a subclass of [int]. *)
Definition is_number (value : pyval) : bool :=
  match value with
  | VBool _ | VInt _ | VFloat _ => true
  | _ => false
  end.

Definition as_int (v : pyval) : option Z :=
  match v with
  | VBool b => Some (Z.b2z b)
  | VInt z => Some z
  | _ => None
  end.

(** [a + v] *)
Definition py_add (a v : pyval) : result pyval :=
  match a, v with
  | VFloat f, VFloat g => Ok (VFloat (float_add f g))
  | VStr s, VStr t => Ok (VStr (s ++ t))
  | VFloat f, _ =>
      match as_int v with
      | Some y => rbind (int_to_float y) (fun g => Ok (VFloat (float_add f g)))
      | None => Err TypeError
      end
  | _, VFloat g =>
      match as_int a with
      | Some x => rbind (int_to_float x) (fun f => Ok (VFloat (float_add f g)))
      | None => Err TypeError
      end
  | _, _ =>
      match as_int a, as_int v with
      | Some x, Some y => Ok (VInt (x + y))
      | _, _ => Err TypeError
      end
  end.

(** An entry of the skip audit. *)
Record skipped_prompt : Type := mkSkipped {
  sp_system_prompt : pystr;
  sp_prompt : pystr;
  sp_db_id : pystr;
  sp_questions : list json;
  sp_errors : errors_t
}.

Record Stats : Type := mkStats {
  default_stats : dict pyval;
  unexpected_errors : list string;
  full_stats : dict pyval;
  skipped_db_prompts : list skipped_prompt
}.

Definition builtin_default : dict pyval :=
  [("time_taken", VInt 0); ("real_time", VInt 0); ("input_token", VInt 0);
   ("output_token", VInt 0); ("request", VInt 0); ("response", VInt 0);
   ("success_response", VInt 0); ("error_response", VInt 0);
   ("corrected_response", VInt 0); ("unexpected_error", VInt 0)]%string.

(** [Stats.__init__]; [None] for [extra_stats] is the empty dictionary. *)
Definition Stats_init (extra_stats : dict pyval) : Stats :=
  let d := dict_update builtin_default extra_stats in
  mkStats d [] d [].

Definition get_stats (self : Stats) : dict pyval := full_stats self.

Definition reset_stats : M Stats unit :=
  modify (fun self => mkStats (default_stats self) [] (default_stats self) []).

Definition add_skipped_db_prompt (system_prompt prompt db_id : pystr)
  (questions : list json) (errors : errors_t) : M Stats unit :=
  modify (fun self =>
    mkStats (default_stats self) (unexpected_errors self) (full_stats self)
            (skipped_db_prompts self
               ++ [mkSkipped system_prompt prompt db_id questions errors])).

Definition set_full_stats (self : Stats) (d : dict pyval) : Stats :=
  mkStats (default_stats self) (unexpected_errors self) d (skipped_db_prompts self).

(** [self.full_stats[key] += value] *)
Definition iadd_full_stats (key : string) (value : pyval) : M Stats unit :=
  fun self =>
    match dict_get (full_stats self) key with
    | None => Raised (KeyError key) self
    | Some cur =>
        match py_add cur value with
        | Ok v => Returned tt (set_full_stats self (dict_set (full_stats self) key v))
        | Err e => Raised e self
        end
    end.

Definition add_unexpected_error (error : string) : M Stats unit :=
  (modify (fun self =>
     mkStats (default_stats self) (unexpected_errors self ++ [error])
             (full_stats self) (skipped_db_prompts self)) ;;
   iadd_full_stats "unexpected_error" (VInt 1))%py.

(** [add_stats]: the loop over [stats.items()]. *)
Fixpoint add_stats (stats : dict pyval) : M Stats unit :=
  match stats with
  | [] => ret tt
  | (key, value) :: rest =>
      ((fun self =>
          if dict_contains (full_stats self) key && is_number value
          then iadd_full_stats key value self
          else Returned tt self) ;;
       add_stats rest)%py
  end.

(* ================================================================== *)
(** ** [src/query_generation/model.py] *)
(* ================================================================== *)

(** What the provider's client hands back to [CustomModel]: a reply, or an
    exception with its message.  [elapsed] is [time() - begin]. *)
Record provider_reply : Type := mkReply {
  reply_text : pystr;
  reply_prompt_tokens : pyval;
  reply_output_tokens : pyval;
  reply_elapsed : spec_float;
  reply_finish_reason : string
}.

Inductive provider_outcome : Type :=
| Replied (r : provider_reply)
| Failed (message : string).

(** The dictionary [generate] returns. *)
Record response_dict_t : Type := mkResponse {
  response : pystr;
  prompt_token_count : pyval;
  response_token_count : pyval;
  time_taken : spec_float;
  finish_reason : option string
}.

(** The [match] of [__generate_google] on the upper-cased finish reason. *)
Definition google_finish_reason (raw : string) : string :=
  let r := upper raw in
  if String.eqb r "4" || String.eqb r "RECITATION" then "RECITATION"
  else if String.eqb r "2" || String.eqb r "MAX_TOKENS" then "MAX_TOKENS"
  else "".

(** [CustomModel.generate], by [self.model_origin] (the configured origin
    in lower case): [inl] is the returned dictionary, [inr] the message of
    the exception that leaves the call. *)
Definition generate (model_origin : string) (p : provider_outcome)
  : response_dict_t + string :=
  if String.eqb model_origin "openai" then
    match p with
    | Replied r =>
        inl (mkResponse (reply_text r) (reply_prompt_tokens r) (reply_output_tokens r)
                        (reply_elapsed r) (Some ""%string))
    | Failed m => inr m
    end
  else if String.eqb model_origin "google" then
    match p with
    | Replied r =>
        inl (mkResponse (reply_text r) (reply_prompt_tokens r) (reply_output_tokens r)
                        (reply_elapsed r)
                        (Some (google_finish_reason (reply_finish_reason r))))
    | Failed m => inr m
    end
  else inr "Model origin is not supported in generate."%string.

(* ================================================================== *)
(** ** [src/query_generation/core.py]

    [run] from its pipeline loop on.  What the file system, the clock and
    the provider hand to the program is data of the model ([pipeline],
    [source_file], [world]); what the program writes is the list [sink].
    Console output, the progress bars and the sleep between attempts change
    no variable and are left out, as is the layout of the output
    directories.  Writing a file is taken to succeed. *)
(* ================================================================== *)

Definition DEFAULT_ERRORS : errors_t :=
  [("empty_output", false); ("fields_mismatch", false); ("db_id_matching", false);
   ("recitation", false); ("max_token", false); ("invalid_escape", false);
   ("json_decode", false); ("unexpected", false)]%string.

Definition MAX_TOKENS_FAIL_REMINDER : Z := 9.

(** One question file of a pipeline, as [prepare_questions] and the clock
    hand it to [run]: no usable questions, or the questions, the [db_id] of
    the first one and the [time() - begin_time] measured at the end of the
    source unit. *)
Inductive source_file : Type :=
| NoQuestions
| QuestionFile (db_id : pystr) (question_data : list json) (real_time : spec_float).

(** An entry of [SETTINGS["data"]] with what the file system holds for it.
    [question_files] is [None] when the pipeline is left before its source
    loop (no question folder, no question file, invalid schemas or no
    target sample). *)
Record pipeline : Type := mkPipeline {
  target_db_id : pystr;
  source_db_ids : list pystr;
  question_files : option (list source_file)
}.

Record settings : Type := mkSettings {
  model_origin : string;
  model_name : string;
  use_system_instruction : bool;
  max_fail_limit : Z;
  max_retry_per_prompt : nat;
  max_question_length_per_prompt : nat;
  fields_checking : bool;
  db_id_matching : bool;
  fields_to_check : list pystr;
  json_only_output_directory : bool;
  system_prompt : pystr;
  (** [prepare_prompt], by source db, target db and questions *)
  prepare_prompt : pystr -> pystr -> list json -> pystr;
  data : list pipeline
}.

(** The environment of a run: the outcome of the n-th call of the
    provider, and the depth of recursion the interpreter allows. *)
Record world : Type := mkWorld {
  provider : nat -> provider_outcome;
  recursion_depth : nat
}.

(** What reaches the output sink. *)
Inductive sink_event : Type :=
| WriteResponse (json_only : bool) (current_db : pystr) (records : list json)
    (full_text : option pystr)
| WriteStats (level : nat) (current_db : pystr) (stats : dict pyval)
| WriteErrors (skipped : list skipped_prompt).

(** How an attempt ended, and how a batch ended.  These are recorded in
    the ghost field [trace] of the state; the program itself keeps no such
    record. *)
Inductive attempt_kind : Type :=
| AttemptUnexpected
| AttemptError
| AttemptSuccess
| AttemptCorrected.

Inductive terminal : Type :=
| Accepted
| Skipped.

Record batch_record : Type := mkBatch {
  batch_terminal : terminal;
  batch_attempts : list attempt_kind
}.

(** The variable [response_dict] of a batch. *)
Inductive response_var : Type :=
| ResponseNone
| ResponseNoJson
| ResponseJson (js : json).

(** The local variables of [run] and the sink (latest event first). *)
Record run_state : Type := mkState {
  overall_stats : Stats;
  pipeline_stats : Stats;
  current_stats : Stats;
  max_fail_counter : Z;
  max_tokens_fail_counter : Z;
  current_db : option pystr;
  errors : option errors_t;
  db_response_json : list json;
  calls : nat;
  sink : list sink_event;
  trace : list batch_record
}.

Definition on_overall {A : Type} (m : M Stats A) : M run_state A :=
  fun st =>
    let upd s := mkState s (pipeline_stats st) (current_stats st) (max_fail_counter st)
                   (max_tokens_fail_counter st) (current_db st) (errors st)
                   (db_response_json st) (calls st) (sink st) (trace st) in
    match m (overall_stats st) with
    | Returned a s => Returned a (upd s)
    | Raised e s => Raised e (upd s)
    end.

Definition on_pipeline {A : Type} (m : M Stats A) : M run_state A :=
  fun st =>
    let upd s := mkState (overall_stats st) s (current_stats st) (max_fail_counter st)
                   (max_tokens_fail_counter st) (current_db st) (errors st)
                   (db_response_json st) (calls st) (sink st) (trace st) in
    match m (pipeline_stats st) with
    | Returned a s => Returned a (upd s)
    | Raised e s => Raised e (upd s)
    end.

Definition on_current {A : Type} (m : M Stats A) : M run_state A :=
  fun st =>
    let upd s := mkState (overall_stats st) (pipeline_stats st) s (max_fail_counter st)
                   (max_tokens_fail_counter st) (current_db st) (errors st)
                   (db_response_json st) (calls st) (sink st) (trace st) in
    match m (current_stats st) with
    | Returned a s => Returned a (upd s)
    | Raised e s => Raised e (upd s)
    end.

(** A function that mutates the dictionary bound to [errors]. *)
Definition on_errors {A : Type} (m : M errors_t A) : M run_state A :=
  fun st =>
    let upd e := mkState (overall_stats st) (pipeline_stats st) (current_stats st)
                   (max_fail_counter st) (max_tokens_fail_counter st) (current_db st)
                   (Some e) (db_response_json st) (calls st) (sink st) (trace st) in
    match errors st with
    | None => Raised UnboundLocalError st
    | Some errs =>
        match m errs with
        | Returned a e => Returned a (upd e)
        | Raised ex e => Raised ex (upd e)
        end
    end.

Definition set_errors (e : errors_t) : M run_state unit :=
  modify (fun st =>
    mkState (overall_stats st) (pipeline_stats st) (current_stats st)
      (max_fail_counter st) (max_tokens_fail_counter st) (current_db st)
      (Some e) (db_response_json st) (calls st) (sink st) (trace st)).

Definition set_max_fail_counter (n : Z) : M run_state unit :=
  modify (fun st =>
    mkState (overall_stats st) (pipeline_stats st) (current_stats st)
      n (max_tokens_fail_counter st) (current_db st)
      (errors st) (db_response_json st) (calls st) (sink st) (trace st)).

Definition set_max_tokens_fail_counter (n : Z) : M run_state unit :=
  modify (fun st =>
    mkState (overall_stats st) (pipeline_stats st) (current_stats st)
      (max_fail_counter st) n (current_db st)
      (errors st) (db_response_json st) (calls st) (sink st) (trace st)).

Definition set_current_db (db : pystr) : M run_state unit :=
  modify (fun st =>
    mkState (overall_stats st) (pipeline_stats st) (current_stats st)
      (max_fail_counter st) (max_tokens_fail_counter st) (Some db)
      (errors st) (db_response_json st) (calls st) (sink st) (trace st)).

Definition set_db_response_json (l : list json) : M run_state unit :=
  modify (fun st =>
    mkState (overall_stats st) (pipeline_stats st) (current_stats st)
      (max_fail_counter st) (max_tokens_fail_counter st) (current_db st)
      (errors st) l (calls st) (sink st) (trace st)).

(** The index of the next call of the provider. *)
Definition next_call : M run_state nat :=
  fun st =>
    Returned (calls st)
      (mkState (overall_stats st) (pipeline_stats st) (current_stats st)
         (max_fail_counter st) (max_tokens_fail_counter st) (current_db st)
         (errors st) (db_response_json st) (S (calls st)) (sink st) (trace st)).

Definition emit (ev : sink_event) : M run_state unit :=
  modify (fun st =>
    mkState (overall_stats st) (pipeline_stats st) (current_stats st)
      (max_fail_counter st) (max_tokens_fail_counter st) (current_db st)
      (errors st) (db_response_json st) (calls st) (ev :: sink st) (trace st)).

Definition record_batch (b : batch_record) : M run_state unit :=
  modify (fun st =>
    mkState (overall_stats st) (pipeline_stats st) (current_stats st)
      (max_fail_counter st) (max_tokens_fail_counter st) (current_db st)
      (errors st) (db_response_json st) (calls st) (sink st) (b :: trace st)).

(** Reading the variable [errors]. *)
Definition read_errors : M run_state errors_t := on_errors get.

(** [errors[key]] *)
Definition flag (key : string) : M errors_t bool :=
  fun errs =>
    match dict_get errs key with
    | Some b => Returned b errs
    | None => Raised (KeyError key) errs
    end.

Definition errors_flag (key : string) : M run_state bool := on_errors (flag key).

(** Reading the variable [current_db]. *)
Definition read_current_db : M run_state pystr :=
  fun st =>
    match current_db st with
    | Some db => Returned db st
    | None => Raised UnboundLocalError st
    end.

(** [write_response]: the records always, the full text when the response
    is neither [None] nor empty and the call is not for the json-only
    directory. *)
Definition write_response (json_only : bool) (db : pystr) (response_text : option pystr)
  : M run_state unit :=
  (st <- get ;;
   emit (WriteResponse json_only db (db_response_json st)
           (if json_only then None
            else match response_text with
                 | Some (c :: t) => Some (c :: t)
                 | _ => None
                 end)))%py.

(** [write_stats] *)
Definition write_stats (level : nat) (stats : Stats) (db : pystr) : M run_state unit :=
  match level with
  | 0 => emit (WriteStats 0 db (get_stats stats))
  | 1 =>
      (emit (WriteStats 1 db (get_stats stats)) ;;
       match skipped_db_prompts stats with
       | [] => ret tt
       | _ :: _ => emit (WriteErrors (skipped_db_prompts stats))
       end)%py
  | 2 => emit (WriteStats 2 db (get_stats stats))
  | _ => ret tt
  end.

(** [max_fail_exit]: three lines on the console, then [exit(1)]. *)
Definition max_fail_exit {A : Type} (error : string) : M run_state A :=
  raise (SystemExit 1).

(** [s.find("[")] and [s.rfind("]")], [-1] when absent. *)
Fixpoint find_from (c : N) (i : Z) (s : pystr) : Z :=
  match s with
  | [] => (-1)%Z
  | x :: s' => if N.eqb x c then i else find_from c (i + 1) s'
  end.

Fixpoint rfind_from (c : N) (i : Z) (s : pystr) (last : Z) : Z :=
  match s with
  | [] => last
  | x :: s' => rfind_from c (i + 1) s' (if N.eqb x c then i else last)
  end.

(** [s[start:stop]] *)
Definition py_slice (s : pystr) (start stop : Z) : pystr :=
  let len := Z.of_nat (List.length s) in
  let norm i := Z.min len (Z.max 0 (if i <? 0 then i + len else i))%Z in
  let a := norm start in
  let b := norm stop in
  firstn (Z.to_nat (b - a)) (skipn (Z.to_nat a) s).

Definition json_bracket (response_text : pystr) : pystr :=
  py_slice response_text (find_from (ch "[") 0 response_text)
           (rfind_from (ch "]") 0 response_text (-1) + 1).

(** [sum(errors.values())] *)
Definition errors_sum (errs : errors_t) : nat :=
  List.length (filter (fun kv => snd kv) errs).

(** How the body of the attempt loop is left. *)
Inductive attempt_exit : Type :=
| Break
| Next.

(** The end of the loop body, from the comment [Error occurred retrying]
    on: the error count, the reminder counter (its warning is console
    output), the messages and the sleep. *)
Definition attempt_failed : M run_state (attempt_exit * attempt_kind) :=
  (unexpected <- errors_flag "unexpected" ;;
   (if negb unexpected
    then on_current (add_stats [("error_response"%string, VInt 1)])
    else ret tt) ;;
   max_token <- errors_flag "max_token" ;;
   (if max_token then
      st <- get ;;
      let n := (max_tokens_fail_counter st + 1)%Z in
      if (MAX_TOKENS_FAIL_REMINDER <=? n)%Z
      then set_max_tokens_fail_counter 0
      else set_max_tokens_fail_counter n
    else ret tt) ;;
   ret (Next, if unexpected then AttemptUnexpected else AttemptError))%py.

(** The two validation steps on a decoded response: the field-set check,
    then the identity check. *)
Definition check_structure (cfg : settings) (pl : pipeline) (db : pystr) (js : json)
  : M errors_t unit :=
  ((if fields_checking cfg then
      ok <- lift_result (check_fields js (fields_to_check cfg)) ;;
      if negb ok
      then modify (fun e => dict_set e "fields_mismatch" true)
      else ret tt
    else ret tt) ;;
   fm <- flag "fields_mismatch" ;;
   if negb fm && db_id_matching cfg then
     n <- lift_result (check_db_id db js (Some (target_db_id pl))) ;;
     if (0 <? n)%Z
     then modify (fun e => dict_set e "db_id_matching" true)
     else ret tt
   else ret tt)%py.

(** The validation of a decoded response and the acceptance test that
    follows it. *)
Definition validate_structure (cfg : settings) (pl : pipeline) (db : pystr)
  (js : json) (fixed : option bool) : M run_state (attempt_exit * attempt_kind) :=
  (on_errors (check_structure cfg pl db js) ;;
   fm <- errors_flag "fields_mismatch" ;;
   dm <- errors_flag "db_id_matching" ;;
   if negb fm && negb dm then
     match fixed with
     | Some true =>
         on_current (add_stats [("corrected_response"%string, VInt 1)]) ;;
         ret (Break, AttemptCorrected)
     | _ =>
         on_current (add_stats [("success_response"%string, VInt 1)]) ;;
         ret (Break, AttemptSuccess)
     end
   else attempt_failed)%py.

(** The body of [for attempt in range(max_retry_per_prompt)].  It returns
    how the body was left, the new value of [response_dict] and the kind
    of the attempt. *)
Definition attempt (cfg : settings) (w : world) (pl : pipeline) (db : pystr)
  (rv : response_var) : M run_state (attempt_exit * response_var * attempt_kind) :=
  (set_errors DEFAULT_ERRORS ;;
   on_current (add_stats [("request"%string, VInt 1)]) ;;
   n <- next_call ;;
   match generate (lower (model_origin cfg)) (provider w n) with
   | inr unexpected_error =>
       on_errors (modify (fun e => dict_set e "unexpected" true)) ;;
       on_current (add_unexpected_error unexpected_error) ;;
       st <- get ;;
       set_max_fail_counter (max_fail_counter st + 1) ;;
       (if (max_fail_limit cfg <=? max_fail_counter st + 1)%Z
        then max_fail_exit unexpected_error
        else ret tt) ;;
       r <- attempt_failed ;;
       ret (fst r, rv, snd r)
   | inl response_dict =>
       write_response false db (Some (response response_dict)) ;;
       (if json_only_output_directory cfg
        then write_response true db (Some (response response_dict))
        else ret tt) ;;
       on_current (add_stats
         [("time_taken"%string, VFloat (time_taken response_dict));
          ("input_token"%string, prompt_token_count response_dict);
          ("output_token"%string, response_token_count response_dict)]) ;;
       passed <- on_errors (check_special_errors (response response_dict)
                              (finish_reason response_dict)) ;;
       if passed then
         jf <- on_errors (validate_json_response (recursion_depth w)
                            (json_bracket (response response_dict))) ;;
         match fst jf with
         | JNull =>
             r <- attempt_failed ;;
             ret (fst r, ResponseJson JNull, snd r)
         | js =>
             r <- validate_structure cfg pl db js (snd jf) ;;
             ret (fst r, ResponseJson js, snd r)
         end
       else
         r <- attempt_failed ;;
         ret (fst r, ResponseNoJson, snd r)
   end)%py.

(** The attempt loop: [n] attempts are left. *)
Fixpoint attempts (cfg : settings) (w : world) (pl : pipeline) (db : pystr)
  (n : nat) (rv : response_var) (kinds : list attempt_kind)
  : M run_state (response_var * list attempt_kind) :=
  match n with
  | O => ret (rv, kinds)
  | S n' =>
      (r <- attempt cfg w pl db rv ;;
       match r with
       | (Break, rv', k) => ret (rv', kinds ++ [k])
       | (Next, rv', k) => attempts cfg w pl db n' rv' (kinds ++ [k])
       end)%py
  end.

(** The body of the batch loop, after the test on [current_questions]. *)
Definition process_batch (cfg : settings) (w : world) (pl : pipeline) (db : pystr)
  (current_questions : list json) : M run_state unit :=
  let base_questions_prompt := prepare_prompt cfg db (target_db_id pl) current_questions in
  let sys := if use_system_instruction cfg then system_prompt cfg else [] in
  (r <- attempts cfg w pl db (max_retry_per_prompt cfg) ResponseNone [] ;;
   errs <- read_errors ;;
   if negb (Nat.eqb (errors_sum errs) 0) then
     on_pipeline (add_skipped_db_prompt sys base_questions_prompt db
                    current_questions errs) ;;
     record_batch (mkBatch Skipped (snd r))
   else
     match fst r with
     | ResponseNone => raise TypeError
     | ResponseNoJson => raise (KeyError "json")
     | ResponseJson js =>
         records <- lift_result (py_iter js) ;;
         st <- get ;;
         set_db_response_json (db_response_json st ++ records) ;;
         write_response false db None ;;
         (if json_only_output_directory cfg
          then write_response true db None else ret tt) ;;
         record_batch (mkBatch Accepted (snd r))
     end)%py.

(** [range(0, stop, step)] for a positive [step]. *)
Fixpoint range_from (fuel start stop step : nat) : list nat :=
  match fuel with
  | O => []
  | S fuel' =>
      if (start <? stop)%nat then start :: range_from fuel' (start + step) stop step
      else []
  end.

(** The batch loop over the start indices [starts]. *)
Fixpoint batches (cfg : settings) (w : world) (pl : pipeline) (db : pystr)
  (question_data : list json) (starts : list nat) : M run_state unit :=
  match starts with
  | [] => ret tt
  | i :: starts' =>
      let current_questions :=
        firstn (max_question_length_per_prompt cfg) (skipn i question_data) in
      match current_questions with
      | [] => ret tt
      | _ :: _ =>
          (process_batch cfg w pl db current_questions ;;
           batches cfg w pl db question_data starts')%py
      end
  end.

(** [d[key]] on a ledger. *)
Definition stats_item (d : dict pyval) (key : string) : result pyval :=
  match dict_get d key with
  | Some v => Ok v
  | None => Err (KeyError key)
  end.

(** [success_response + error_response + corrected_response] as the
    program computes it. *)
Definition response_total (d : dict pyval) : result pyval :=
  rbind (stats_item d "success_response") (fun a =>
  rbind (stats_item d "error_response") (fun b =>
  rbind (stats_item d "corrected_response") (fun c =>
  rbind (py_add a b) (fun ab => py_add ab c)))).

(** The body of the source loop. *)
Definition process_source (cfg : settings) (w : world) (pl : pipeline)
  (f : source_file) : M run_state unit :=
  (on_current reset_stats ;;
   match f with
   | NoQuestions => ret tt
   | QuestionFile db question_data real_time =>
       match question_data with
       | [] => raise IndexError
       | _ :: _ =>
           set_current_db db ;;
           if negb (Nat.eqb (List.length (source_db_ids pl)) 0)
              && negb (existsb (pystr_eqb db) (source_db_ids pl))
           then ret tt
           else
             set_db_response_json [] ;;
             match max_question_length_per_prompt cfg with
             | O => raise ValueError
             | S _ =>
                 batches cfg w pl db question_data
                   (range_from (List.length question_data) 0
                      (List.length question_data)
                      (max_question_length_per_prompt cfg))
             end ;;
             st <- get ;;
             total <- lift_result (response_total (get_stats (current_stats st))) ;;
             on_current (add_stats [("response"%string, total);
                                    ("real_time"%string, VFloat real_time)]) ;;
             st' <- get ;;
             on_pipeline (add_stats (get_stats (current_stats st'))) ;;
             st'' <- get ;;
             write_stats 2 (current_stats st'') db
       end
   end)%py.

Fixpoint sources (cfg : settings) (w : world) (pl : pipeline) (fs : list source_file)
  : M run_state unit :=
  match fs with
  | [] => ret tt
  | f :: fs' => (process_source cfg w pl f ;; sources cfg w pl fs')%py
  end.

(** The body of the pipeline loop. *)
Definition process_pipeline (cfg : settings) (w : world) (pl : pipeline)
  : M run_state unit :=
  (on_pipeline reset_stats ;;
   match question_files pl with
   | None => ret tt
   | Some fs =>
       sources cfg w pl fs ;;
       db <- read_current_db ;;
       st <- get ;;
       write_stats 1 (pipeline_stats st) db ;;
       on_overall (add_stats (get_stats (pipeline_stats st)))
   end)%py.

Fixpoint pipelines (cfg : settings) (w : world) (pls : list pipeline) : M run_state unit :=
  match pls with
  | [] => ret tt
  | pl :: pls' => (process_pipeline cfg w pl ;; pipelines cfg w pls')%py
  end.

(** The state of [run] once the settings, the model and the prompts are
    loaded and the three ledgers are created. *)
Definition initial_state (cfg : settings) : run_state :=
  mkState
    (Stats_init [("model_origin"%string, VStr (model_origin cfg));
                 ("model_name"%string, VStr (model_name cfg))])
    (Stats_init []) (Stats_init [])
    0 0 None None [] 0 [] [].

(** [run], from the pipeline loop on. *)
Definition run_from (cfg : settings) (w : world) : M run_state unit :=
  (pipelines cfg w (data cfg) ;;
   db <- read_current_db ;;
   st <- get ;;
   write_stats 0 (overall_stats st) db)%py.

Definition run (cfg : settings) (w : world) : outcome run_state unit :=
  run_from cfg w (initial_state cfg).


(* ================================================================== *)
(** ** Further functions of the same files *)
(* ================================================================== *)

(** [s * n] for a [str]: [n] copies, none when [n] is not positive. *)
Definition str_repeat (s : pystr) (n : Z) : pystr :=
  List.concat (repeat s (Z.to_nat n)).

(** [get_divider] of [utils.py]; [//] is floor division. *)
Definition get_divider (text : option pystr) (width : Z) (character : pystr) : pystr :=
  match text with
  | Some (c :: t) =>
      let text := [32%N] ++ (c :: t) ++ [32%N] in
      let left := ((width - Z.of_nat (List.length text)) / 2)%Z in
      let right := (width - Z.of_nat (List.length text) - left)%Z in
      str_repeat character left ++ text ++ str_repeat character right
  | _ => str_repeat character width
  end.

(** [del d[k]] *)
Fixpoint dict_del {V : Type} (d : dict V) (k : string) : dict V :=
  match d with
  | [] => []
  | (k', v) :: d' => if String.eqb k' k then d' else (k', v) :: dict_del d' k
  end.

Definition set_default_stats (self : Stats) (d : dict pyval) : Stats :=
  mkStats d (unexpected_errors self) (full_stats self) (skipped_db_prompts self).

(** [Stats.update_default_stats]: the loop over [stats.items()]. *)
Fixpoint update_default_stats (stats : dict pyval) : M Stats unit :=
  match stats with
  | [] => ret tt
  | (key, value) :: rest =>
      ((fun self =>
          match value with
          | VNone =>
              if dict_contains (default_stats self) key
              then Returned tt (set_default_stats self (dict_del (default_stats self) key))
              else Raised (KeyError key) self
          | _ => Returned tt (set_default_stats self (dict_set (default_stats self) key value))
          end) ;;
       update_default_stats rest)%py
  end.

(** [l[:stop]] for a list. *)
Definition list_slice_to {A : Type} (l : list A) (stop : Z) : list A :=
  let len := Z.of_nat (List.length l) in
  firstn (Z.to_nat (Z.min len (Z.max 0 (if (stop <? 0)%Z then stop + len else stop)%Z))) l.

(** [prepare_questions] of [core.py].  [file] is the text of the question
    file, [None] when the file does not exist; [shuffle] is what
    [random.shuffle] does to the list under the configured seed. *)
Definition prepare_questions (shuffle : list json -> list json) (file : option pystr)
  (source_questions_shuffle_seed source_questions_limit : Z)
  : result (option (list json)) :=
  match file with
  | None => Ok None
  | Some text =>
      match json_loads text with
      | Err (JSONDecodeError _ _) => Ok None
      | Err e => Err e
      | Ok (JList (q :: qs)) =>
          let question_data :=
            if (source_questions_shuffle_seed =? -1)%Z then q :: qs else shuffle (q :: qs) in
          if (source_questions_limit =? -1)%Z then Ok (Some question_data)
          else if (source_questions_limit =? 0)%Z then Ok None
          else if (source_questions_limit <? Z.of_nat (List.length question_data))%Z
               then Ok (Some (list_slice_to question_data source_questions_limit))
               else Ok (Some question_data)
      | Ok _ => Ok None
      end
  end.

(* ================================================================== *)
(** ** Vocabulary of the statements *)
(* ================================================================== *)

(** A scan that did not run out of fuel and that consumed something when
    it succeeded. *)
Definition progress (s : pystr) (x : scan json) : Prop :=
  x <> OutOfFuel /\
  forall v p r, x = Scanned v p r -> List.length r < List.length s.

(** The exceptions that leave the decoder. *)
Definition decode_exn (e : exn) : Prop :=
  (exists k p, e = JSONDecodeError k p) \/ e = ValueError.

(** The number of flags set among [empty_output], [max_token] and
    [recitation]. *)
Definition special_flags (errs : errors_t) : nat :=
  List.length
    (filter (fun key => match dict_get errs key with Some true => true | _ => false end)
       ["empty_output"; "max_token"; "recitation"]%string).

(** The error set an outcome leaves behind. *)
Definition final_state {S A : Type} (o : outcome S A) : S :=
  match o with
  | Returned _ s => s
  | Raised _ s => s
  end.

(** A record is a decoded JSON object. *)
Definition is_record (r : json) : bool :=
  match r with
  | JDict _ => true
  | _ => false
  end.

(** [key in r] for a record. *)
Definition has_key (r : json) (key : string) : bool :=
  match getitem_str r key with
  | Ok _ => true
  | Err _ => false
  end.

(** A record that carries every identifier the check reads. *)
Definition carries_ids (target_db_id : option pystr) (r : json) : bool :=
  has_key r "source_db_id" && (negb (truthy_str target_db_id) || has_key r "target_db_id").

(** [r[key] != s], for a record that has the key. *)
Definition id_differs (r : json) (key : string) (s : pystr) : bool :=
  match getitem_str r key with
  | Ok v => ne_str v s
  | Err _ => true
  end.

(** The words of the specification: a record mismatches when its source
    identifier differs from the expected one or, a target identifier being
    configured, its target identifier differs from it. *)
Definition record_mismatches (db_id : pystr) (target_db_id : option pystr) (r : json)
  : bool :=
  id_differs r "source_db_id" db_id
  || match target_db_id with
     | Some t => truthy_str target_db_id && id_differs r "target_db_id" t
     | None => false
     end.

(** The number of mismatching records, in the words of the specification. *)
Definition mismatching_records (db_id : pystr) (target_db_id : option pystr)
  (l : list json) : Z :=
  Z.of_nat (List.length (filter (record_mismatches db_id target_db_id) l)).

(** What the loop adds for one record: one for the source identifier, one
    for the target identifier. *)
Definition id_mismatches (db_id : pystr) (target_db_id : option pystr) (r : json) : Z :=
  ((if id_differs r "source_db_id" db_id then 1 else 0)
   + match target_db_id with
     | Some t =>
         if truthy_str target_db_id && id_differs r "target_db_id" t then 1 else 0
     | None => 0
     end)%Z.

(** The number of mismatching identifiers over a list of records. *)
Definition mismatching_ids (db_id : pystr) (target_db_id : option pystr)
  (l : list json) : Z :=
  fold_right (fun r acc => (id_mismatches db_id target_db_id r + acc)%Z) 0%Z l.

(** A run in which the field-set check is switched off and the identity
    check is on: one pipeline, one source unit with one question, and a
    provider that answers with a list holding one empty object. *)
Definition identity_only_settings : settings :=
  mkSettings "google" "model" false 3 2 1 false true
    [py "source_db_id"; py "target_db_id"] false [] (fun _ _ qs => [])
    [mkPipeline (py "t") [] (Some [QuestionFile (py "s") [JNull] (S754_zero false)])].

(** The provider of that run. *)
Definition empty_record_world : world :=
  mkWorld (fun _ => Replied (mkReply (py "[{}]") (VInt 1) (VInt 1) (S754_zero false) "STOP"))
          100.

(** The value a ledger entry [cur] holds after [value] was merged into it. *)
Definition merged_value (cur : pyval) (value : option pyval) : pyval :=
  match value with
  | Some v =>
      if is_number v
      then match py_add cur v with
           | Ok r => r
           | Err _ => cur
           end
      else cur
  | None => cur
  end.

(** Every sum [add_stats] has to form is defined. *)
Definition summable (self : Stats) (stats : dict pyval) : Prop :=
  forall k cur v,
    In (k, v) stats -> is_number v = true ->
    dict_get (full_stats self) k = Some cur ->
    exists r, py_add cur v = Ok r.

(** The three counters of the ledger sum. *)
Definition counter_keys : list string :=
  ["success_response"; "error_response"; "corrected_response"]%string.

(** The integer a ledger holds under [k]. *)
Definition counter (d : dict pyval) (k : string) : Z :=
  match dict_get d k with
  | Some (VInt z) => z
  | _ => 0%Z
  end.

(** The sum of a list of integers. *)
Definition sum_Z (l : list Z) : Z := fold_right Z.add 0%Z l.

(** [success_response + error_response + corrected_response] *)
Definition responses (d : dict pyval) : Z :=
  sum_Z (map (counter d) counter_keys).

(** The source-unit ledgers written at the completion of their unit. *)
Definition unit_ledger (ev : sink_event) : list (dict pyval) :=
  match ev with
  | WriteStats 2 _ d => [d]
  | _ => []
  end.

(** The unit ledgers among the events of the sink. *)
Definition unit_ledgers (events : list sink_event) : list (dict pyval) :=
  flat_map unit_ledger events.

(** The counter an attempt adds one to. *)
Definition kind_key (a : attempt_kind) : option string :=
  match a with
  | AttemptUnexpected => None
  | AttemptError => Some "error_response"%string
  | AttemptSuccess => Some "success_response"%string
  | AttemptCorrected => Some "corrected_response"%string
  end.

(** How many of the attempts [kinds] count under [k]. *)
Definition kind_count (k : string) (kinds : list attempt_kind) : Z :=
  Z.of_nat (List.length
              (filter (fun a => match kind_key a with
                                | Some k' => String.eqb k' k
                                | None => false
                                end) kinds)).

(** The three counters of one batch, from its attempts. *)
Definition batch_responses (b : batch_record) : Z :=
  sum_Z (map (fun k => kind_count k (batch_attempts b)) counter_keys).

(** The ledger [s] counts [z] under [k], and goes back to zero on reset. *)
Definition tracks (k : string) (s : Stats) (z : Z) : Prop :=
  dict_get (full_stats s) k = Some (VInt z) /\
  NoDup (map fst (full_stats s)) /\
  dict_get (default_stats s) k = Some (VInt 0) /\
  NoDup (map fst (default_stats s)).

(** The counter [k] summed over the unit ledgers written so far. *)
Definition units (k : string) (st : run_state) : Z :=
  sum_Z (map (fun d => counter d k) (unit_ledgers (sink st))).

(** The counter [k] summed over the batches recorded so far. *)
Definition batches_done (k : string) (st : run_state) : Z :=
  sum_Z (map (fun b => kind_count k (batch_attempts b)) (trace st)).

(** The effect of a piece of [run] on the counter [k] of the three ledgers,
    on the unit ledgers written and on the batches recorded. *)
Definition eff (k : string) (dO dP dC dU dB : Z) (st st' : run_state) : Prop :=
  (forall z, tracks k (overall_stats st) z -> tracks k (overall_stats st') (z + dO)) /\
  (forall z, tracks k (pipeline_stats st) z -> tracks k (pipeline_stats st') (z + dP)) /\
  (forall z, tracks k (current_stats st) z -> tracks k (current_stats st') (z + dC)) /\
  units k st' = (units k st + dU)%Z /\
  batches_done k st' = (batches_done k st + dB)%Z.

(** The value [add_stats] adds under [k], when it is an integer. *)
Definition item_delta (items : dict pyval) (k : string) : option Z :=
  match dict_get items k with
  | None => Some 0%Z
  | Some (VInt n) => Some n
  | Some _ => None
  end.

(** A piece of [run] that leaves the five quantities alone. *)
Definition neutral (k : string) (st st' : run_state) : Prop := eff k 0 0 0 0 0 st st'.

(** The ledger [s] counts something under [k]. *)
Definition tracked (k : string) (s : Stats) : Prop := exists z, tracks k s z.

(** The effect of a source unit: its ledger is started afresh, and what it
    has counted at its end is added to the pipeline ledger, written as a
    unit ledger and equal to what its batches recorded. *)
Definition unit_eff (k : string) (d : Z) (st st' : run_state) : Prop :=
  (forall z, tracks k (overall_stats st) z -> tracks k (overall_stats st') z) /\
  (forall z, tracks k (pipeline_stats st) z -> tracks k (pipeline_stats st') (z + d)) /\
  (tracked k (current_stats st) -> tracked k (current_stats st')) /\
  units k st' = (units k st + d)%Z /\
  batches_done k st' = (batches_done k st + d)%Z.

(** The effect of a pipeline, likewise, on the ledger of the run. *)
Definition pipeline_eff (k : string) (d : Z) (st st' : run_state) : Prop :=
  (forall z, tracks k (overall_stats st) z -> tracks k (overall_stats st') (z + d)) /\
  (tracked k (pipeline_stats st) -> tracked k (pipeline_stats st')) /\
  (tracked k (current_stats st) -> tracked k (current_stats st')) /\
  units k st' = (units k st + d)%Z /\
  batches_done k st' = (batches_done k st + d)%Z.

(** A response that passes every check of the runs below. *)
Definition accepted_text : pystr := lit "[{'source_db_id':'s','target_db_id':'t'}]".

(** A reply of the provider with the text [text]. *)
Definition example_reply (text : pystr) : provider_outcome :=
  Replied (mkReply text (VInt 12) (VInt 7) (S754_zero false) "STOP").

(** One pipeline with one source unit of three questions, sent one by one. *)
Definition example_settings (max_fail max_retry : nat) : settings :=
  mkSettings "google" "model" false (Z.of_nat max_fail) max_retry 1 true true
    [py "source_db_id"; py "target_db_id"] false [] (fun _ _ _ => py "prompt")
    [mkPipeline (py "t") []
       (Some [QuestionFile (py "s") [JInt 1; JInt 2; JInt 3] (S754_zero false)])].

(** The provider answers the first call well, the second with an empty
    text, and fails from the third call on. *)
Definition failing_world : world :=
  mkWorld (fun n => match n with
                    | 0 => example_reply accepted_text
                    | 1 => example_reply []
                    | _ => Failed "connection lost"
                    end) 100.

(** The provider answers the second call with an empty text and every
    other call well. *)
Definition recovering_world : world :=
  mkWorld (fun n => match n with
                    | 1 => example_reply []
                    | _ => example_reply accepted_text
                    end) 100.

(** The events [write_stats] emits. *)
Definition is_stats_event (ev : sink_event) : bool :=
  match ev with
  | WriteResponse _ _ _ _ => false
  | _ => true
  end.

(** The keys of a record. *)
Definition record_keys (r : json) : list pystr :=
  match r with
  | JDict items => map fst items
  | _ => []
  end.

(** The key set of [r] is the set [fields]. *)
Definition same_keys (fields : list pystr) (r : json) : Prop :=
  forall key, In key (record_keys r) <-> In key fields.

(** [b] is [a] with commas inserted, and nothing else changed. *)
Inductive commas_inserted : pystr -> pystr -> Prop :=
| commas_none : commas_inserted [] []
| commas_keep (c : N) (a b : pystr) :
    commas_inserted a b -> commas_inserted (c :: a) (c :: b)
| commas_one (a b : pystr) :
    commas_inserted a b -> commas_inserted a (ch "," :: b).

(** The flag [validate_json_response] sets for a decoding error that is no
    missing comma. *)
Definition decode_flag (kind : decode_error) : string :=
  match kind with
  | InvalidEscape | InvalidUnicodeEscape => "invalid_escape"
  | _ => "json_decode"
  end.

(** [m], run from [s], returns a value and a state that satisfy [Q], or
    raises an exception and leaves a state that satisfy [E]. *)
Definition wp {S A : Type} (m : M S A) (Q : A -> S -> Prop) (E : exn -> S -> Prop)
  (s : S) : Prop :=
  match m s with
  | Returned a s' => Q a s'
  | Raised e s' => E e s'
  end.

(** An attempt that failed, and one that failed without a reply. *)
Definition is_failure (a : attempt_kind) : bool :=
  match a with
  | AttemptUnexpected | AttemptError => true
  | _ => false
  end.

Definition is_unexpected (a : attempt_kind) : bool :=
  match a with
  | AttemptUnexpected => true
  | _ => false
  end.

(** The attempts of a batch, by how the batch ended: an accepted batch
    ends with its only success, before the retry limit ran out; a skipped
    batch used every attempt the limit allows, and none succeeded. *)
Definition batch_ok (max_retry : nat) (b : batch_record) : Prop :=
  match batch_terminal b with
  | Accepted =>
      exists fails,
        batch_attempts b = fails ++ [AttemptSuccess] /\
        forallb is_failure fails = true /\
        List.length fails < max_retry
  | Skipped =>
      forallb is_failure (batch_attempts b) = true /\
      List.length (batch_attempts b) = max_retry /\
      0 < max_retry
  end.

(** The attempts without a reply among [kinds], and among the batches
    recorded. *)
Definition unexpected_count (kinds : list attempt_kind) : Z :=
  Z.of_nat (List.length (filter is_unexpected kinds)).

Definition unexpected_total (tr : list batch_record) : Z :=
  sum_Z (map (fun b => unexpected_count (batch_attempts b)) tr).

(** The attempts of the batches recorded. *)
Definition attempts_total (tr : list batch_record) : Z :=
  sum_Z (map (fun b => Z.of_nat (List.length (batch_attempts b))) tr).

(** The batches recorded as skipped, and the skipped prompts written. *)
Definition is_skipped (b : batch_record) : bool :=
  match batch_terminal b with
  | Skipped => true
  | Accepted => false
  end.

Definition skipped_batches (tr : list batch_record) : nat :=
  List.length (filter is_skipped tr).

Definition skipped_written (events : list sink_event) : nat :=
  list_sum (map (fun ev => match ev with
                           | WriteErrors skipped => List.length skipped
                           | _ => 0
                           end) events).

(** The six counters of a ledger. *)
Definition ledger_counts (d : dict pyval)
  (request response success error corrected unexpected : Z) : Prop :=
  dict_get d "request" = Some (VInt request) /\
  dict_get d "response" = Some (VInt response) /\
  dict_get d "success_response" = Some (VInt success) /\
  dict_get d "error_response" = Some (VInt error) /\
  dict_get d "corrected_response" = Some (VInt corrected) /\
  dict_get d "unexpected_error" = Some (VInt unexpected).

(** A ledger whose counters add up: every request ended as a success, as
    an error or without a reply, and the responses are the successes and
    the errors. *)
Definition closed_ledger (d : dict pyval) : Prop :=
  exists s e u : Z,
    (0 <= s)%Z /\ (0 <= e)%Z /\ (0 <= u)%Z /\
    ledger_counts d (s + e + u) (s + e) s e 0 u.

(** A ledger object whose running ledger adds up. *)
Definition closed_stats (self : Stats) : Prop :=
  NoDup (map fst (full_stats self)) /\ closed_ledger (full_stats self).

(** The ledgers handed to [write_stats], at every level. *)
Definition stats_ledger (ev : sink_event) : list (dict pyval) :=
  match ev with
  | WriteStats _ _ d => [d]
  | _ => []
  end.

Definition stats_ledgers (events : list sink_event) : list (dict pyval) :=
  flat_map stats_ledger events.

(** The ledger of a source unit between two attempts. *)
Definition open_ledger (self : Stats) : Prop :=
  default_stats self = builtin_default /\
  NoDup (map fst (full_stats self)) /\
  exists s e u : Z,
    (0 <= s)%Z /\ (0 <= e)%Z /\ (0 <= u)%Z /\
    ledger_counts (full_stats self) (s + e + u) 0 s e 0 u.

(** What holds of the record of a run at every moment. *)
Definition stable (cfg : settings) (st : run_state) : Prop :=
  Forall (batch_ok (max_retry_per_prompt cfg)) (trace st) /\
  max_tokens_fail_counter st = 0%Z /\
  Forall closed_ledger (stats_ledgers (sink st)).

(** An exception that is no exit of the process. *)
Definition no_exit (e : exn) : Prop := forall code, e <> SystemExit code.

(** What holds when a piece of [run] raises [e]: the record is as at every
    moment, and an exit comes from the failure ceiling, just reached. *)
Definition aborted (cfg : settings) (e : exn) (st : run_state) : Prop :=
  stable cfg st /\
  forall code,
    e = SystemExit code ->
    code = 1%Z /\ max_fail_counter st = Z.max 1 (max_fail_limit cfg).

(** The ledgers of the pipeline and of the run add up, and the ledger of
    the pipeline goes back to zero on reset. *)
Definition upper_ledgers (st : run_state) : Prop :=
  default_stats (pipeline_stats st) = builtin_default /\
  closed_stats (pipeline_stats st) /\
  closed_stats (overall_stats st).

(** What holds between two attempts of a batch whose attempts so far are
    [kinds]; between two batches [kinds] is empty. *)
Definition inv (cfg : settings) (kinds : list attempt_kind) (st : run_state) : Prop :=
  stable cfg st /\
  open_ledger (current_stats st) /\
  max_fail_counter st = (unexpected_total (trace st) + unexpected_count kinds)%Z /\
  (max_fail_counter st < Z.max 1 (max_fail_limit cfg))%Z /\
  Z.of_nat (calls st) = (attempts_total (trace st) + Z.of_nat (List.length kinds))%Z /\
  (units "request" st + counter (full_stats (current_stats st)) "request")%Z
  = Z.of_nat (calls st) /\
  skipped_written (sink st) + List.length (skipped_db_prompts (pipeline_stats st))
  = skipped_batches (trace st) /\
  (max_retry_per_prompt cfg = 0 -> errors st = None) /\
  upper_ledgers st.

(** What holds between two source units. *)
Definition inv_unit (cfg : settings) (st : run_state) : Prop :=
  stable cfg st /\
  default_stats (current_stats st) = builtin_default /\
  max_fail_counter st = unexpected_total (trace st) /\
  (max_fail_counter st < Z.max 1 (max_fail_limit cfg))%Z /\
  Z.of_nat (calls st) = attempts_total (trace st) /\
  units "request" st = Z.of_nat (calls st) /\
  skipped_written (sink st) + List.length (skipped_db_prompts (pipeline_stats st))
  = skipped_batches (trace st) /\
  (max_retry_per_prompt cfg = 0 -> errors st = None) /\
  upper_ledgers st.

(** What holds between two pipelines. *)
Definition inv_pipeline (cfg : settings) (st : run_state) : Prop :=
  stable cfg st /\
  default_stats (current_stats st) = builtin_default /\
  max_fail_counter st = unexpected_total (trace st) /\
  (max_fail_counter st < Z.max 1 (max_fail_limit cfg))%Z /\
  Z.of_nat (calls st) = attempts_total (trace st) /\
  units "request" st = Z.of_nat (calls st) /\
  skipped_written (sink st) = skipped_batches (trace st) /\
  (max_retry_per_prompt cfg = 0 -> errors st = None) /\
  upper_ledgers st.

(** What a piece of [run] leaves alone when it touches only the errors,
    the counters of the current ledger and the files of the responses. *)
Definition frame (st st' : run_state) : Prop :=
  trace st' = trace st /\
  unit_ledgers (sink st') = unit_ledgers (sink st) /\
  skipped_written (sink st') = skipped_written (sink st) /\
  max_tokens_fail_counter st' = max_tokens_fail_counter st /\
  max_fail_counter st' = max_fail_counter st /\
  calls st' = calls st /\
  skipped_db_prompts (pipeline_stats st') = skipped_db_prompts (pipeline_stats st) /\
  default_stats (current_stats st') = default_stats (current_stats st) /\
  stats_ledgers (sink st') = stats_ledgers (sink st) /\
  full_stats (pipeline_stats st') = full_stats (pipeline_stats st) /\
  default_stats (pipeline_stats st') = default_stats (pipeline_stats st) /\
  overall_stats st' = overall_stats st.
(** The provider answers the first call well, the second and the third
    with an empty text, fails at the fourth call and answers well from
    then on. *)
Definition skipping_world : world :=
  mkWorld (fun n => match n with
                    | 0 => example_reply accepted_text
                    | 1 | 2 => example_reply []
                    | 3 => Failed "connection lost"
                    | _ => example_reply accepted_text
                    end) 100.
(** The decoded value [js], answered for the source [db] and the target
    [target], passes the checks that the settings switch on: the field
    check returns [True] and the identity check counts no mismatch. *)
Definition checked (cfg : settings) (target db : pystr) (js : json) : Prop :=
  (fields_checking cfg = true ->
   check_fields js (fields_to_check cfg) = Ok true) /\
  (db_id_matching cfg = true ->
   check_db_id db js (Some target) = Ok 0%Z).

(** A file of records holds records that passed the checks of a pipeline
    of the settings; the other files are not concerned. *)
Definition event_ok (cfg : settings) (ev : sink_event) : Prop :=
  match ev with
  | WriteResponse _ db records _ =>
      exists pl, In pl (data cfg) /\ checked cfg (target_db_id pl) db (JList records)
  | _ => True
  end.

Definition writes_ok (cfg : settings) (st : run_state) : Prop :=
  Forall (event_ok cfg) (sink st).

(** The records collected so far for the source unit [db] of the pipeline
    [pl] passed the checks. *)
Definition records_ok (cfg : settings) (pl : pipeline) (db : pystr) (st : run_state)
  : Prop :=
  In pl (data cfg) /\ checked cfg (target_db_id pl) db (JList (db_response_json st)).

(** What a piece of [run] leaves alone when it writes no file and touches
    neither the records nor the errors. *)
Definition quiet (st st' : run_state) : Prop :=
  sink st' = sink st /\
  db_response_json st' = db_response_json st /\
  errors st' = errors st.
(** The writes of records made since the ledger of the last finished
    source unit was written, latest first: the source unit of the file and
    the records. *)
Fixpoint unit_writes (events : list sink_event) : list (pystr * list json) :=
  match events with
  | [] => []
  | WriteResponse _ db records _ :: rest => (db, records) :: unit_writes rest
  | WriteStats 2 _ _ :: _ => []
  | _ :: rest => unit_writes rest
  end.

(** The records [records], written for [db], hold the records of the
    earlier write [earlier] at their head, and are for the same unit. *)
Definition extends (db : pystr) (records : list json) (earlier : pystr * list json)
  : Prop :=
  fst earlier = db /\ exists more, records = snd earlier ++ more.

(** Every write of records extends the writes made before it for its
    source unit. *)
Fixpoint append_only (events : list sink_event) : Prop :=
  match events with
  | [] => True
  | ev :: rest =>
      match ev with
      | WriteResponse _ db records _ => Forall (extends db records) (unit_writes rest)
      | _ => True
      end /\ append_only rest
  end.

(** Inside the source unit [db]: the writes so far are append-only, and
    the records collected so far extend each of them. *)
Definition unit_log (db : pystr) (st : run_state) : Prop :=
  append_only (sink st) /\
  Forall (extends db (db_response_json st)) (unit_writes (sink st)).

(** Between two source units: no write is waiting for its ledger. *)
Definition units_log (st : run_state) : Prop :=
  append_only (sink st) /\ unit_writes (sink st) = [].

(* ================================================================== *)
(** * Properties *)
(* ================================================================== *)

(** ** Dictionaries *)

Lemma dict_get_set_same {V : Type} (d : dict V) (k : string) (v : V) :
  dict_get (dict_set d k v) k = Some v.
Proof.
  induction d as [|[k' v'] d IH]; simpl.
  - now rewrite String.eqb_refl.
  - destruct (String.eqb k' k) eqn:E; simpl; rewrite E; auto.
Qed.

Lemma dict_get_set_other {V : Type} (d : dict V) (k k' : string) (v : V) :
  k <> k' -> dict_get (dict_set d k v) k' = dict_get d k'.
Proof.
  intros Hne. induction d as [|[k0 v0] d IH]; simpl.
  - destruct (String.eqb k k') eqn:E; auto.
    apply String.eqb_eq in E. contradiction.
  - destruct (String.eqb k0 k) eqn:E; simpl.
    + apply String.eqb_eq in E. subst k0.
      destruct (String.eqb k k') eqn:E'; auto.
      apply String.eqb_eq in E'. contradiction.
    + destruct (String.eqb k0 k'); auto.
Qed.

Lemma dict_set_keys {V : Type} (d : dict V) (k : string) (v : V) :
  dict_contains d k = true -> map fst (dict_set d k v) = map fst d.
Proof.
  unfold dict_contains. induction d as [|[k0 v0] d IH]; simpl.
  - discriminate.
  - destruct (String.eqb k0 k) eqn:E; simpl; intros H.
    + reflexivity.
    + now rewrite IH.
Qed.

Lemma dict_get_In {V : Type} (d : dict V) (k : string) (v : V) :
  NoDup (map fst d) -> In (k, v) d -> dict_get d k = Some v.
Proof.
  induction d as [|[k0 v0] d IH]; simpl; intros Hnd Hin.
  - contradiction.
  - inversion Hnd as [|? ? Hnotin Hnd']; subst.
    destruct Hin as [Heq|Hin].
    + inversion Heq; subst. now rewrite String.eqb_refl.
    + destruct (String.eqb k0 k) eqn:E.
      * apply String.eqb_eq in E. subst k0. exfalso. apply Hnotin.
        change k with (fst (k, v)). now apply in_map.
      * auto.
Qed.

Lemma dict_get_not_In {V : Type} (d : dict V) (k : string) :
  ~ In k (map fst d) -> dict_get d k = None.
Proof.
  induction d as [|[k0 v0] d IH]; simpl; intros H; auto.
  destruct (String.eqb k0 k) eqn:E.
  - apply String.eqb_eq in E. subst. exfalso. auto.
  - apply IH. intros Hin. apply H. now right.
Qed.

(** ** The decoder never runs out of fuel *)

Lemma skip_ws_le (s : pystr) :
  forall p p' r, skip_ws p s = (p', r) -> List.length r <= List.length s.
Proof.
  induction s as [|c s IH]; intros p p' r H; simpl in H.
  - inversion H; subst. auto.
  - destruct (is_ws c).
    + apply IH in H. simpl. lia.
    + inversion H; subst. auto.
Qed.

Lemma scanstring_lt (n : nat) :
  forall s, List.length s <= n ->
  forall begin pos acc str p r,
    scanstring begin pos s acc = Ok (str, p, r) -> List.length r < List.length s.
Proof.
  induction n as [|n IH]; intros s Hn begin pos acc str p r H.
  - destruct s; [discriminate|simpl in Hn; lia].
  - destruct s as [|c s1]; [discriminate|]. simpl in Hn. cbn [scanstring] in H.
    repeat match type of H with
           | context [if ?b then _ else _] => destruct b
           | context [match ?x with _ => _ end] => destruct x
           end; try discriminate;
      try (inversion H; subst; simpl; lia);
      try (apply IH in H; simpl in *; lia).
Qed.

Lemma span_digits_le (s : pystr) :
  forall d r, span_digits s = (d, r) -> List.length r <= List.length s.
Proof.
  induction s as [|c s IH]; intros d r H; simpl in H.
  - inversion H; subst. auto.
  - destruct (is_digit c).
    + destruct (span_digits s) as [d' r'] eqn:E. inversion H; subst.
      specialize (IH d' r eq_refl). simpl. lia.
    + inversion H; subst. auto.
Qed.

Lemma match_integer_lt (s : pystr) neg d r :
  match_integer s = Some (neg, d, r) -> List.length r < List.length s.
Proof.
  unfold match_integer. intros H.
  destruct s as [|c s']; [discriminate|].
  destruct (N.eqb c (ch "-")).
  - destruct s' as [|c1 s1]; [discriminate|].
    destruct (N.eqb c1 48); [inversion H; subst; simpl; lia|].
    destruct (is_digit c1); [|discriminate].
    destruct (span_digits s1) as [d' r'] eqn:E. inversion H; subst.
    apply span_digits_le in E. simpl. lia.
  - destruct (N.eqb c 48); [inversion H; subst; simpl; lia|].
    destruct (is_digit c); [|discriminate].
    destruct (span_digits s') as [d' r'] eqn:E. inversion H; subst.
    apply span_digits_le in E. simpl. lia.
Qed.

Lemma match_frac_le (s : pystr) d r :
  match_frac s = (d, r) -> List.length r <= List.length s.
Proof.
  unfold match_frac. intros H. destruct s as [|c s1]; [inversion H; subst; auto|].
  destruct (N.eqb c (ch ".")); [|inversion H; subst; auto].
  destruct (span_digits s1) as [[|x d'] r'] eqn:E; inversion H; subst; auto.
  apply span_digits_le in E. simpl. lia.
Qed.

Lemma match_exp_le (s : pystr) d r :
  match_exp s = (d, r) -> List.length r <= List.length s.
Proof.
  unfold match_exp. intros H. destruct s as [|c s1]; [inversion H; subst; auto|].
  destruct (N.eqb c (ch "e") || N.eqb c (ch "E")); [|inversion H; subst; auto].
  destruct s1 as [|g s2].
  - simpl in H. inversion H; subst. auto.
  - destruct (N.eqb g (ch "+") || N.eqb g (ch "-")).
    + destruct (span_digits s2) as [[|x d'] r'] eqn:E; inversion H; subst; auto.
      apply span_digits_le in E. simpl. lia.
    + destruct (span_digits (g :: s2)) as [[|x d'] r'] eqn:E; inversion H; subst; auto.
      apply span_digits_le in E. simpl in *. lia.
Qed.

Lemma progress_scanned s v p r :
  List.length r < List.length s -> progress s (Scanned v p r).
Proof.
  intros H. split; [discriminate|]. intros v' p' r' E. inversion E; subst. exact H.
Qed.

Lemma progress_fail s e : progress s (@Fail json e).
Proof. split; [discriminate|]. intros v p r E. discriminate. Qed.

Lemma progress_stop s p : progress s (@Stop json p).
Proof. split; [discriminate|]. intros v p' r E. discriminate. Qed.

Lemma progress_le s s' x :
  progress s' x -> List.length s' <= List.length s -> progress s x.
Proof.
  intros [H1 H2] Hle. split; [exact H1|]. intros v p r E. apply H2 in E. lia.
Qed.

Lemma scan_number_progress (pos : nat) (s : pystr) : progress s (scan_number pos s).
Proof.
  unfold scan_number.
  destruct (match_integer s) as [[[neg d] r0]|] eqn:E; [|apply progress_stop].
  apply match_integer_lt in E.
  destruct (match_frac r0) as [frac r1] eqn:Ef. apply match_frac_le in Ef.
  destruct (match_exp r1) as [ex r2] eqn:Ee. apply match_exp_le in Ee.
  destruct frac, ex; try (apply progress_scanned; lia).
  destruct (int_max_str_digits <? List.length d)%nat;
    [apply progress_fail|apply progress_scanned; lia].
Qed.

Lemma skipn_lt (n : nat) (c : N) (s : pystr) :
  List.length (skipn (S n) (c :: s)) < List.length (c :: s).
Proof.
  rewrite length_skipn. simpl. lia.
Qed.

Ltac break_goal :=
  match goal with
  | |- context [match ?x with _ => _ end] => destruct x eqn:?
  | |- context [if ?b then _ else _] => destruct b eqn:?
  end.

Lemma scan_progress (fuel : nat) :
  (forall pos s, 2 * List.length s + 1 <= fuel ->
                 progress s (scan_once fuel pos s)) /\
  (forall pos s racc, 2 * List.length s + 2 <= fuel ->
                      progress s (array_loop fuel pos s racc)) /\
  (forall pos s racc, 2 * List.length s + 2 <= fuel ->
                      progress s (object_loop fuel pos s racc)).
Proof.
  induction fuel as [|fuel (IHs & IHa & IHo)].
  - repeat split; intros; lia.
  - split; [|split].
    + intros pos s Hf. cbn [scan_once].
      destruct s as [|c s1]; [apply progress_stop|]. cbn [List.length] in Hf.
      destruct (N.eqb c 34).
      { destruct (scanstring pos (S pos) s1 []) as [[[str p] r]|e] eqn:E;
          [|apply progress_fail].
        apply (scanstring_lt _ _ (le_n _)) in E.
        apply progress_scanned. simpl. lia. }
      destruct (N.eqb c (ch "{")).
      { destruct (skip_ws (S pos) s1) as [p1 r1] eqn:E1. apply skip_ws_le in E1.
        destruct r1 as [|c1 r2]; [apply progress_fail|]. cbn [List.length] in E1.
        destruct (N.eqb c1 (ch "}")); [apply progress_scanned; simpl; lia|].
        destruct (N.eqb c1 34); [|apply progress_fail].
        eapply progress_le; [apply IHo; lia|simpl; lia]. }
      destruct (N.eqb c (ch "[")).
      { destruct (skip_ws (S pos) s1) as [p1 r1] eqn:E1. apply skip_ws_le in E1.
        destruct r1 as [|c1 r2].
        - eapply progress_le; [apply IHa; simpl; lia|simpl; lia].
        - cbn [List.length] in E1.
          destruct (N.eqb c1 (ch "]")); [apply progress_scanned; simpl; lia|].
          eapply progress_le; [apply IHa; simpl; lia|simpl; lia]. }
      destruct (starts_with (py "null") (c :: s1));
        [apply progress_scanned; apply (skipn_lt 3)|].
      destruct (starts_with (py "true") (c :: s1));
        [apply progress_scanned; apply (skipn_lt 3)|].
      destruct (starts_with (py "false") (c :: s1));
        [apply progress_scanned; apply (skipn_lt 4)|].
      pose proof (scan_number_progress pos (c :: s1)) as Hn.
      destruct (scan_number pos (c :: s1)) as [v p r|p|e|] eqn:En; try exact Hn.
      destruct (starts_with (py "NaN") (c :: s1));
        [apply progress_scanned; apply (skipn_lt 2)|].
      destruct (starts_with (py "Infinity") (c :: s1));
        [apply progress_scanned; apply (skipn_lt 7)|].
      destruct (starts_with (py "-Infinity") (c :: s1));
        [apply progress_scanned; apply (skipn_lt 8)|].
      apply progress_stop.
    + intros pos s racc Hf. cbn [array_loop].
      assert (Hs : progress s (scan_once fuel pos s)) by (apply IHs; lia).
      destruct (scan_once fuel pos s) as [v p1 r1|p|e|] eqn:E.
      * destruct Hs as [_ Hs]. specialize (Hs v p1 r1 eq_refl).
        destruct (skip_ws p1 r1) as [p2 r2] eqn:E2. apply skip_ws_le in E2.
        destruct r2 as [|c r3]; [apply progress_fail|]. cbn [List.length] in E2.
        destruct (N.eqb c (ch "]")); [apply progress_scanned; lia|].
        destruct (N.eqb c (ch ",")); [|apply progress_fail].
        destruct (skip_ws (S p2) r3) as [p4 r4] eqn:E4. apply skip_ws_le in E4.
        eapply progress_le; [apply IHa; lia|lia].
      * apply progress_fail.
      * apply progress_fail.
      * exact Hs.
    + intros pos s racc Hf. cbn [object_loop].
      destruct (scanstring pos (S pos) s []) as [[[key p0] r0]|e] eqn:E;
        [|apply progress_fail].
      apply (scanstring_lt _ _ (le_n _)) in E.
      destruct (skip_ws p0 r0) as [p1 r1] eqn:E1. apply skip_ws_le in E1.
      destruct r1 as [|c1 r2]; [apply progress_fail|]. cbn [List.length] in E1.
      destruct (negb (N.eqb c1 (ch ":"))); [apply progress_fail|].
      destruct (skip_ws (S p1) r2) as [p3 r3] eqn:E3. apply skip_ws_le in E3.
      assert (Hs : progress r3 (scan_once fuel p3 r3)) by (apply IHs; lia).
      destruct (scan_once fuel p3 r3) as [v p4 r4|p|e|] eqn:E4.
      * destruct Hs as [_ Hs]. specialize (Hs v p4 r4 eq_refl).
        destruct (skip_ws p4 r4) as [p5 r5] eqn:E5. apply skip_ws_le in E5.
        destruct r5 as [|c r6]; [apply progress_fail|]. cbn [List.length] in E5.
        destruct (N.eqb c (ch "}")); [apply progress_scanned; lia|].
        destruct (N.eqb c (ch ",")); [|apply progress_fail].
        destruct (skip_ws (S p5) r6) as [p7 r7] eqn:E7. apply skip_ws_le in E7.
        destruct r7 as [|c7 r8]; [apply progress_fail|]. cbn [List.length] in E7.
        destruct (N.eqb c7 34); [|apply progress_fail].
        eapply progress_le; [apply IHo; lia|lia].
      * apply progress_fail.
      * apply progress_fail.
      * destruct Hs as [Hs _]. contradiction.
Qed.

Lemma scanstring_err (n : nat) :
  forall s, List.length s <= n ->
  forall begin pos acc e,
    scanstring begin pos s acc = Err e -> decode_exn e.
Proof.
  induction n as [|n IH]; intros s Hn begin pos acc e H.
  - destruct s; [|simpl in Hn; lia]. inversion H. left. eauto.
  - destruct s as [|c s1]; [inversion H; left; eauto|]. simpl in Hn.
    cbn [scanstring] in H.
    repeat match type of H with
           | context [if ?b then _ else _] => destruct b
           | context [match ?x with _ => _ end] => destruct x
           end; try discriminate;
      try (inversion H; subst; left; eauto; fail);
      try (apply IH in H; [exact H|simpl in *; lia]).
Qed.

Lemma scan_number_fail (pos : nat) (s : pystr) (e : exn) :
  scan_number pos s = Fail e -> decode_exn e.
Proof.
  unfold scan_number. intros H.
  repeat match type of H with
         | context [if ?b then _ else _] => destruct b
         | context [match ?x with _ => _ end] => destruct x
         end; try discriminate; inversion H; right; reflexivity.
Qed.

Lemma scan_fail (fuel : nat) :
  (forall pos s e, scan_once fuel pos s = Fail e -> decode_exn e) /\
  (forall pos s racc e, array_loop fuel pos s racc = Fail e -> decode_exn e) /\
  (forall pos s racc e, object_loop fuel pos s racc = Fail e -> decode_exn e).
Proof.
  induction fuel as [|fuel (IHs & IHa & IHo)].
  - repeat split; intros; discriminate.
  - split; [|split].
    + intros pos s e H. cbn [scan_once] in H.
      destruct s as [|c s1]; [discriminate|].
      destruct (N.eqb c 34).
      { destruct (scanstring pos (S pos) s1 []) as [[[str p] r]|e'] eqn:E;
          [discriminate|].
        inversion H; subst. eapply scanstring_err; [apply le_n|exact E]. }
      destruct (N.eqb c (ch "{")).
      { destruct (skip_ws (S pos) s1) as [p1 r1].
        destruct r1 as [|c1 r2]; [inversion H; left; eauto|].
        destruct (N.eqb c1 (ch "}")); [discriminate|].
        destruct (N.eqb c1 34); [eauto|inversion H; left; eauto]. }
      destruct (N.eqb c (ch "[")).
      { destruct (skip_ws (S pos) s1) as [p1 r1].
        destruct r1 as [|c1 r2]; [eauto|].
        destruct (N.eqb c1 (ch "]")); [discriminate|eauto]. }
      destruct (starts_with (py "null") (c :: s1)); [discriminate|].
      destruct (starts_with (py "true") (c :: s1)); [discriminate|].
      destruct (starts_with (py "false") (c :: s1)); [discriminate|].
      destruct (scan_number pos (c :: s1)) as [v p r|p|e'|] eqn:En; try discriminate.
      * destruct (starts_with (py "NaN") (c :: s1)); [discriminate|].
        destruct (starts_with (py "Infinity") (c :: s1)); [discriminate|].
        destruct (starts_with (py "-Infinity") (c :: s1)); discriminate.
      * inversion H; subst. eapply scan_number_fail; eauto.
    + intros pos s racc e H. cbn [array_loop] in H.
      destruct (scan_once fuel pos s) as [v p1 r1|p|e'|] eqn:E; try discriminate.
      * destruct (skip_ws p1 r1) as [p2 r2].
        destruct r2 as [|c r3]; [inversion H; left; eauto|].
        destruct (N.eqb c (ch "]")); [discriminate|].
        destruct (N.eqb c (ch ",")); [|inversion H; left; eauto].
        destruct (skip_ws (S p2) r3) as [p4 r4]. eauto.
      * inversion H; left; eauto.
      * inversion H; subst. eauto.
    + intros pos s racc e H. cbn [object_loop] in H.
      destruct (scanstring pos (S pos) s []) as [[[key p0] r0]|e'] eqn:E.
      2:{ inversion H; subst. eapply scanstring_err; [apply le_n|exact E]. }
      destruct (skip_ws p0 r0) as [p1 r1].
      destruct r1 as [|c1 r2]; [inversion H; left; eauto|].
      destruct (negb (N.eqb c1 (ch ":"))); [inversion H; left; eauto|].
      destruct (skip_ws (S p1) r2) as [p3 r3].
      destruct (scan_once fuel p3 r3) as [v p4 r4|p|e'|] eqn:E4; try discriminate.
      * destruct (skip_ws p4 r4) as [p5 r5].
        destruct r5 as [|c r6]; [inversion H; left; eauto|].
        destruct (N.eqb c (ch "}")); [discriminate|].
        destruct (N.eqb c (ch ",")); [|inversion H; left; eauto].
        destruct (skip_ws (S p5) r6) as [p7 r7].
        destruct r7 as [|c7 r8]; [inversion H; left; eauto|].
        destruct (N.eqb c7 34); [eauto|inversion H; left; eauto].
      * inversion H; left; eauto.
      * inversion H; subst. eauto.
Qed.

(** [json_loads] is total: it returns a value or raises [JSONDecodeError]
    or, for an integer literal beyond the digit limit, [ValueError]; the
    fuel it hands to the scanner is never used up. *)
Lemma json_loads_fuel (s : pystr) :
  (exists v, json_loads s = Ok v) \/
  (exists e, json_loads s = Err e /\ decode_exn e).
Proof.
  unfold json_loads.
  destruct (starts_with [65279%N] s); [right; eexists; split; [reflexivity|left; eauto]|].
  destruct (skip_ws 0 s) as [p0 r0] eqn:E. apply skip_ws_le in E.
  destruct (scan_progress (2 * List.length s + 2)) as (Hp & _ & _).
  specialize (Hp p0 r0 ltac:(lia)). destruct Hp as [Hp _].
  destruct (scan_once (2 * List.length s + 2) p0 r0) as [v p1 r1|p|e|] eqn:Es.
  - destruct (skip_ws p1 r1) as [p2 r2]. destruct r2.
    + left. eauto.
    + right. eexists. split; [reflexivity|left; eauto].
  - right. eexists. split; [reflexivity|left; eauto].
  - right. exists e. split; [reflexivity|].
    destruct (scan_fail (2 * List.length s + 2)) as (Hf & _ & _). eauto.
  - contradiction.
Qed.

(** ** The response classifier *)

(** C2.  With a non-empty text and the finish reason [MAX_TOKENS], which is
    what [__generate_google] emits for a truncated response, the classifier
    sets no flag and lets the response pass: it compares the reason with
    [MAX_TOKEN]. *)
Theorem check_special_errors_max_tokens_passes :
  forall (errors : errors_t) (c : N) (text : pystr),
    google_finish_reason "MAX_TOKENS" = "MAX_TOKENS"%string /\
    google_finish_reason "2" = "MAX_TOKENS"%string /\
    check_special_errors (c :: text) (Some (google_finish_reason "MAX_TOKENS")) errors
    = Returned true errors /\
    special_flags
      (final_state (check_special_errors (c :: text) (Some "MAX_TOKENS"%string)
                      DEFAULT_ERRORS)) = 0.
Proof.
  intros errors c text. repeat split; reflexivity.
Qed.

(** C7.  From the fresh error set of an attempt, the classifier leaves at
    most one of [empty_output], [max_token], [recitation] set, whatever the
    text and the finish reason; it passes exactly when it set none.  The
    three tests are made in order and the first that holds ends the call:
    an empty text is classified before the finish reason is looked at, so
    that neither a truncation reason nor a missing reason changes the
    outcome, and a reason that matches the first comparison is never
    compared again. *)
Theorem check_special_errors_at_most_one :
  forall (text : pystr) (reason : option string),
    let o := check_special_errors text reason DEFAULT_ERRORS in
    special_flags (final_state o) <= 1 /\
    (forall e, o = Returned true e -> e = DEFAULT_ERRORS) /\
    (forall e, o = Returned false e -> special_flags e = 1) /\
    check_special_errors [] reason DEFAULT_ERRORS
    = Returned false (dict_set DEFAULT_ERRORS "empty_output" true) /\
    (forall c t r,
        upper r = "MAX_TOKEN"%string ->
        check_special_errors (c :: t) (Some r) DEFAULT_ERRORS
        = Returned false (dict_set DEFAULT_ERRORS "max_token" true)) /\
    (forall c t r,
        upper r = "RECITATION"%string ->
        check_special_errors (c :: t) (Some r) DEFAULT_ERRORS
        = Returned false (dict_set DEFAULT_ERRORS "recitation" true)).
Proof.
  intros text reason o. subst o. unfold check_special_errors.
  split; [|split; [|split; [|split; [|split]]]].
  - destruct text as [|c text]; simpl; [auto|].
    destruct reason as [reason|]; simpl; [|auto].
    destruct (String.eqb (upper reason) "MAX_TOKEN");
      [|destruct (String.eqb (upper reason) "RECITATION")]; simpl; auto.
  - intros e H. destruct text as [|c text]; simpl in H; [discriminate|].
    destruct reason as [reason|]; [|discriminate].
    destruct (String.eqb (upper reason) "MAX_TOKEN"); [discriminate|].
    destruct (String.eqb (upper reason) "RECITATION"); [discriminate|].
    now inversion H.
  - intros e H. destruct text as [|c text]; simpl in H.
    + inversion H; subst. reflexivity.
    + destruct reason as [reason|]; [|discriminate].
      destruct (String.eqb (upper reason) "MAX_TOKEN");
        [inversion H; subst; reflexivity|].
      destruct (String.eqb (upper reason) "RECITATION");
        [inversion H; subst; reflexivity|discriminate].
  - reflexivity.
  - intros c t r Hr. simpl. rewrite Hr. reflexivity.
  - intros c t r Hr. simpl. rewrite Hr. reflexivity.
Qed.

(** C10.  The classifier returns normally exactly when the text is empty or
    the finish reason is a string.  With a non-empty text and the reason
    [None] it raises [AttributeError] and sets nothing; with an empty text
    it sets [empty_output] and fails, whatever the reason is. *)
Theorem check_special_errors_total_iff :
  forall (errors : errors_t) (text : pystr) (reason : option string),
    ((exists b e, check_special_errors text reason errors = Returned b e)
     <-> (text = [] \/ reason <> None)) /\
    (forall c t, check_special_errors (c :: t) None errors = Raised AttributeError errors) /\
    check_special_errors [] reason errors
    = Returned false (dict_set errors "empty_output" true).
Proof.
  intros errors text reason. split; [|split]; try reflexivity.
  unfold check_special_errors. split.
  - intros [b [e H]]. destruct text as [|c t]; [now left|right].
    simpl in H. destruct reason; [discriminate|inversion H].
  - intros [Ht|Hr].
    + subst text. simpl. eauto.
    + destruct text as [|c t]; simpl; [eauto|].
      destruct reason as [r|]; [|contradiction].
      destruct (String.eqb (upper r) "MAX_TOKEN"); [eauto|].
      destruct (String.eqb (upper r) "RECITATION"); eauto.
Qed.

(** ** The JSON repair routine *)

(** C8.  On a text that [json.loads] accepts, [validate_json_response]
    returns the decoded value with [False], and leaves the error set as it
    found it; [fix_missing_comma] likewise returns the same value and
    inserts nothing. *)
Theorem validate_json_response_valid :
  forall (depth : nat) (text : pystr) (errors : errors_t) (v : json),
    json_loads text = Ok v ->
    validate_json_response depth text errors = Returned (v, Some false) errors /\
    fix_missing_comma (S depth) text = Ok (Fixed v).
Proof.
  intros depth text errors v H. unfold validate_json_response. simpl.
  rewrite H. split; reflexivity.
Qed.

Lemma validate_json_response_valid_witness :
  json_loads (lit "[{'a':1}, {'a':2}]")
  = Ok (JList [JDict [(py "a", JInt 1)]; JDict [(py "a", JInt 2)]]) /\
  validate_json_response 5 (lit "[{'a':1}, {'a':2}]") DEFAULT_ERRORS
  = Returned (JList [JDict [(py "a", JInt 1)]; JDict [(py "a", JInt 2)]], Some false)
      DEFAULT_ERRORS.
Proof.
  split.
  - vm_compute. reflexivity.
  - apply (validate_json_response_valid 5 (lit "[{'a':1}, {'a':2}]") DEFAULT_ERRORS).
    vm_compute. reflexivity.
Defined.

(** No run of [validate_json_response] returns [True] as its second
    component: where the repair succeeded the function decodes the
    unrepaired text once more, which raises the error it started from. *)
Lemma validate_json_response_never_fixed :
  forall (depth : nat) (text : pystr) (errors errors' : errors_t) (v : json),
    validate_json_response depth text errors <> Returned (v, Some true) errors'.
Proof.
  intros depth text errors errors' v. unfold validate_json_response.
  destruct (json_loads text) as [j|e] eqn:E; [discriminate|].
  destruct e; try discriminate.
  destruct (str_in "Expecting ',' delimiter" (errmsg kind)).
  - destruct (fix_missing_comma depth text) as [[fixed|et]|ex]; discriminate.
  - destruct (str_in "Invalid" (errmsg kind) && str_in "escape" (errmsg kind));
      discriminate.
Qed.

(** Whenever the repair succeeds, [validate_json_response] raises the
    decoding error of the text it was given. *)
Lemma validate_json_response_repaired_raises :
  forall (depth : nat) (text : pystr) (errors : errors_t) (pos : nat) (v : json),
    json_loads text = Err (JSONDecodeError ExpectingComma pos) ->
    fix_missing_comma depth text = Ok (Fixed v) ->
    validate_json_response depth text errors
    = Raised (JSONDecodeError ExpectingComma pos) errors.
Proof.
  intros depth text errors pos v Hl Hf. unfold validate_json_response.
  rewrite Hl. simpl. rewrite Hf. reflexivity.
Qed.

(** C1.  On the text of the specification's example, two objects with no
    comma between them, the repair itself succeeds: [fix_missing_comma]
    returns the value of the corrected text.  [validate_json_response]
    nevertheless returns nothing: it raises the decoding error of the
    unrepaired text, and sets no flag. *)
Theorem validate_json_response_missing_comma_raises :
  forall (depth : nat) (errors : errors_t),
    json_loads (lit "[{'a':1} {'a':2}]") = Err (JSONDecodeError ExpectingComma 9) /\
    fix_missing_comma (S (S depth)) (lit "[{'a':1} {'a':2}]")
    = rbind (json_loads (lit "[{'a':1}, {'a':2}]")) (fun v => Ok (Fixed v)) /\
    json_loads (lit "[{'a':1}, {'a':2}]")
    = Ok (JList [JDict [(py "a", JInt 1)]; JDict [(py "a", JInt 2)]]) /\
    validate_json_response (S (S depth)) (lit "[{'a':1} {'a':2}]") errors
    = Raised (JSONDecodeError ExpectingComma 9) errors.
Proof.
  intros depth errors. repeat split; vm_compute; reflexivity.
Qed.

(** ** The identity check *)

Lemma check_db_id_loop_count (db : pystr) (tgt : option pystr) (l : list json) :
  forall failed : Z,
    Forall (fun r => carries_ids tgt r = true) l ->
    check_db_id_loop db l tgt failed = Ok (failed + mismatching_ids db tgt l)%Z.
Proof.
  induction l as [|r l IH]; intros failed Hall; simpl.
  - f_equal. lia.
  - inversion Hall as [|? ? Hr Hl]; subst.
    unfold carries_ids, has_key in Hr. apply andb_true_iff in Hr as [Hs Ht].
    unfold id_mismatches, id_differs.
    destruct (getitem_str r "source_db_id") as [src|] eqn:Es; [|discriminate].
    simpl. destruct tgt as [[|c t]|]; simpl in *.
    + rewrite IH by assumption. f_equal. destruct (ne_str src db); lia.
    + destruct (getitem_str r "target_db_id") as [tg|] eqn:Eg; [|discriminate].
      simpl. rewrite IH by assumption. f_equal.
      destruct (ne_str src db), (ne_str tg (c :: t)); lia.
    + rewrite IH by assumption. f_equal. destruct (ne_str src db); lia.
Qed.

Lemma id_mismatches_bounds (db : pystr) (tgt : option pystr) (r : json) :
  let m := (if record_mismatches db tgt r then 1 else 0)%Z in
  (m <= id_mismatches db tgt r <= 2 * m)%Z.
Proof.
  unfold record_mismatches, id_mismatches.
  destruct (id_differs r "source_db_id" db); destruct tgt as [t|]; cbn [orb].
  all: try destruct (truthy_str (Some t) && id_differs r "target_db_id" t).
  all: lia.
Qed.

Lemma mismatching_ids_bounds (db : pystr) (tgt : option pystr) (l : list json) :
  (mismatching_records db tgt l <= mismatching_ids db tgt l
   <= 2 * mismatching_records db tgt l)%Z.
Proof.
  unfold mismatching_records.
  induction l as [|r l IH]; [simpl; lia|].
  change (mismatching_ids db tgt (r :: l))
    with (id_mismatches db tgt r + mismatching_ids db tgt l)%Z.
  pose proof (id_mismatches_bounds db tgt r) as Hr. cbn zeta in Hr.
  cbn [filter]. destruct (record_mismatches db tgt r); cbn [List.length].
  - rewrite Nat2Z.inj_succ. lia.
  - lia.
Qed.

Lemma check_db_id_loop_missing (db : pystr) (tgt : option pystr) (l : list json) :
  forall failed : Z,
    Forall (fun r => is_record r = true) l ->
    Exists (fun r => carries_ids tgt r = false) l ->
    exists k, (k = "source_db_id" \/ k = "target_db_id")%string /\
              check_db_id_loop db l tgt failed = Err (KeyError k).
Proof.
  induction l as [|r l IH]; intros failed Hrec Hex.
  - inversion Hex.
  - inversion Hrec as [|? ? Hr Hl]; subst. simpl.
    destruct r as [| | | | |?|items]; try discriminate.
    unfold getitem_str at 1.
    destruct (items_get items (py "source_db_id")) as [src|] eqn:Es; simpl.
    2:{ exists "source_db_id"%string. split; auto. }
    assert (Hrest : carries_ids tgt (JDict items) = true ->
                    forall f, exists k, (k = "source_db_id" \/ k = "target_db_id")%string /\
                              check_db_id_loop db l tgt f = Err (KeyError k)).
    { intros Hc f. apply IH; auto. inversion Hex; subst; auto. congruence. }
    destruct tgt as [[|c t]|]; simpl.
    + apply Hrest. unfold carries_ids, has_key. simpl. now rewrite Es.
    + destruct (items_get items (py "target_db_id")) as [tg|] eqn:Eg; simpl.
      * apply Hrest. unfold carries_ids, has_key. simpl. now rewrite Es, Eg.
      * exists "target_db_id"%string. split; auto.
    + apply Hrest. unfold carries_ids, has_key. simpl. now rewrite Es.
Qed.

(** ** The validation step of the retry controller *)

Lemma check_structure_identity (cfg : settings) (pl : pipeline) (db : pystr) (js : json)
  (errors : errors_t) :
  fields_checking cfg = false \/ check_fields js (fields_to_check cfg) = Ok true ->
  dict_get errors "fields_mismatch" = Some false ->
  db_id_matching cfg = true ->
  check_structure cfg pl db js errors
  = match check_db_id db js (Some (target_db_id pl)) with
    | Ok n => Returned tt (if (0 <? n)%Z then dict_set errors "db_id_matching" true
                           else errors)
    | Err e => Raised e errors
    end.
Proof.
  intros Hf Hfm Hdb. unfold check_structure.
  assert (Hfirst : forall k : unit -> M errors_t unit,
    bind (if fields_checking cfg then
            bind (lift_result (check_fields js (fields_to_check cfg))) (fun ok =>
              if negb ok
              then modify (fun e => dict_set e "fields_mismatch" true)
              else ret tt)
          else ret tt) k errors = k tt errors).
  { intros k. destruct (fields_checking cfg); [|reflexivity].
    destruct Hf as [Hf|Hf]; [discriminate|].
    unfold bind, lift_result. rewrite Hf. reflexivity. }
  rewrite Hfirst. unfold bind, flag. rewrite Hfm, Hdb. cbn [negb andb].
  unfold lift_result.
  destruct (check_db_id db js (Some (target_db_id pl))) as [n|e]; [|reflexivity].
  destruct (0 <? n)%Z; reflexivity.
Qed.

Lemma check_structure_gated (cfg : settings) (pl : pipeline) (db : pystr) (js : json)
  (errors : errors_t) :
  fields_checking cfg = true ->
  check_fields js (fields_to_check cfg) = Ok false ->
  check_structure cfg pl db js errors
  = Returned tt (dict_set errors "fields_mismatch" true).
Proof.
  intros Hf Hc. unfold check_structure, bind, flag, lift_result, ret, modify.
  rewrite Hf, Hc. simpl. rewrite dict_get_set_same. reflexivity.
Qed.

Lemma check_structure_already_set (cfg : settings) (pl : pipeline) (db : pystr)
  (js : json) (errors : errors_t) :
  fields_checking cfg = false ->
  dict_get errors "fields_mismatch" = Some true ->
  check_structure cfg pl db js errors = Returned tt errors.
Proof.
  intros Hf Hfm. unfold check_structure, bind, flag, lift_result, ret, modify.
  rewrite Hf, Hfm. reflexivity.
Qed.

(** C9.  On a list of records one of which lacks [source_db_id], or lacks
    [target_db_id] while a target identifier is given, [check_db_id] raises
    [KeyError] and returns no count.  The retry controller calls it whenever
    identity checking is on and [fields_mismatch] is not set, which with the
    field-set check switched off is always: the [KeyError] then leaves the
    validation step, and the run ends with it. *)
Theorem check_db_id_missing_key_raises :
  forall (db : pystr) (l : list json) (tgt : option pystr),
    Forall (fun r => is_record r = true) l ->
    Exists (fun r => has_key r "source_db_id" = false) l
    \/ (truthy_str tgt = true /\ Exists (fun r => has_key r "target_db_id" = false) l) ->
    exists k,
      (k = "source_db_id" \/ k = "target_db_id")%string /\
      check_db_id db (JList l) tgt = Err (KeyError k) /\
      (forall cfg pl errors,
          fields_checking cfg = false ->
          db_id_matching cfg = true ->
          tgt = Some (target_db_id pl) ->
          dict_get errors "fields_mismatch" = Some false ->
          check_structure cfg pl db (JList l) errors = Raised (KeyError k) errors) /\
      (exists st, run identity_only_settings empty_record_world
                  = Raised (KeyError "source_db_id") st).
Proof.
  intros db l tgt Hrec Hmiss.
  assert (Hex : Exists (fun r => carries_ids tgt r = false) l).
  { destruct Hmiss as [H|[Ht H]]; apply Exists_exists in H as [r [Hin Hr]];
      apply Exists_exists; exists r; split; auto; unfold carries_ids;
      rewrite Hr, ?Ht; simpl; auto using andb_false_r. }
  destruct (check_db_id_loop_missing db tgt l 0 Hrec Hex) as [k [Hk Hloop]].
  exists k. split; [exact Hk|]. split; [exact Hloop|]. split.
  - intros cfg pl errors Hf Hd Ht Hfm. subst tgt.
    rewrite check_structure_identity by auto.
    unfold check_db_id. simpl. rewrite Hloop. reflexivity.
  - eexists. vm_compute. reflexivity.
Qed.

Lemma check_db_id_missing_key_raises_witness :
  exists k,
    (k = "source_db_id" \/ k = "target_db_id")%string /\
    check_db_id (py "s")
      (JList [JDict [(py "source_db_id", JStr (py "s")); (py "target_db_id", JStr (py "t"))];
              JDict [(py "source_db_id", JStr (py "s"))]])
      (Some (py "t")) = Err (KeyError k).
Proof.
  destruct (check_db_id_missing_key_raises (py "s")
              [JDict [(py "source_db_id", JStr (py "s")); (py "target_db_id", JStr (py "t"))];
               JDict [(py "source_db_id", JStr (py "s"))]]
              (Some (py "t"))) as [k [Hk [Hc _]]].
  - repeat constructor.
  - right. split; [reflexivity|]. apply Exists_cons_tl. apply Exists_cons_hd. reflexivity.
  - exists k. split; assumption.
Defined.

(** C6, as the code has it.  On records that carry the identifiers,
    [check_db_id] returns the number of identifiers that differ: one for
    each record whose source identifier differs from the expected one, and
    one more for each record whose target identifier differs when a target
    identifier is configured.  That number lies between the number of
    mismatching records and twice that number, so it is positive exactly
    when some record mismatches.  In the validation step a positive number
    sets [db_id_matching]; and the check is not run when the field-set
    check has just failed or [fields_mismatch] is already set. *)
Theorem check_db_id_counts_identifiers :
  forall (db : pystr) (l : list json) (tgt : option pystr),
    Forall (fun r => carries_ids tgt r = true) l ->
    check_db_id db (JList l) tgt = Ok (mismatching_ids db tgt l) /\
    (mismatching_records db tgt l <= mismatching_ids db tgt l
     <= 2 * mismatching_records db tgt l)%Z /\
    (forall cfg pl errors,
        tgt = Some (target_db_id pl) ->
        db_id_matching cfg = true ->
        fields_checking cfg = false
        \/ check_fields (JList l) (fields_to_check cfg) = Ok true ->
        dict_get errors "fields_mismatch" = Some false ->
        check_structure cfg pl db (JList l) errors
        = Returned tt (if (0 <? mismatching_records db tgt l)%Z
                       then dict_set errors "db_id_matching" true
                       else errors)) /\
    (forall cfg pl errors js,
        fields_checking cfg = true ->
        check_fields js (fields_to_check cfg) = Ok false ->
        check_structure cfg pl db js errors
        = Returned tt (dict_set errors "fields_mismatch" true)) /\
    (forall cfg pl errors js,
        fields_checking cfg = false ->
        dict_get errors "fields_mismatch" = Some true ->
        check_structure cfg pl db js errors = Returned tt errors).
Proof.
  intros db l tgt Hall.
  assert (Hcount : check_db_id db (JList l) tgt = Ok (mismatching_ids db tgt l)).
  { unfold check_db_id. simpl. now rewrite check_db_id_loop_count. }
  pose proof (mismatching_ids_bounds db tgt l) as Hb.
  split; [exact Hcount|]. split; [exact Hb|]. split; [|split].
  - intros cfg pl errors Ht Hd Hf Hfm. subst tgt.
    rewrite check_structure_identity by auto. rewrite Hcount.
    destruct (0 <? mismatching_ids db (Some (target_db_id pl)) l)%Z eqn:E1;
      destruct (0 <? mismatching_records db (Some (target_db_id pl)) l)%Z eqn:E2;
      try reflexivity.
    + apply Z.ltb_lt in E1. apply Z.ltb_ge in E2. lia.
    + apply Z.ltb_ge in E1. apply Z.ltb_lt in E2. lia.
  - intros cfg pl errors js. apply check_structure_gated.
  - intros cfg pl errors js. apply check_structure_already_set.
Qed.

Lemma check_db_id_counts_identifiers_witness :
  check_db_id (py "s")
    (JList [JDict [(py "source_db_id", JStr (py "s")); (py "target_db_id", JStr (py "x"))];
            JDict [(py "source_db_id", JStr (py "s")); (py "target_db_id", JStr (py "t"))]])
    (Some (py "t")) = Ok 1%Z.
Proof.
  destruct (check_db_id_counts_identifiers (py "s")
              [JDict [(py "source_db_id", JStr (py "s")); (py "target_db_id", JStr (py "x"))];
               JDict [(py "source_db_id", JStr (py "s")); (py "target_db_id", JStr (py "t"))]]
              (Some (py "t"))) as [Hc _].
  - repeat constructor.
  - exact Hc.
Defined.

(** C6 as stated fails: a single record whose two identifiers both differ
    is one mismatching record, and the check returns two. *)
Lemma check_db_id_counts_records_counterexample :
  check_db_id (py "s")
    (JList [JDict [(py "source_db_id", JStr (py "x")); (py "target_db_id", JStr (py "y"))]])
    (Some (py "t")) = Ok 2%Z /\
  mismatching_records (py "s") (Some (py "t"))
    [JDict [(py "source_db_id", JStr (py "x")); (py "target_db_id", JStr (py "y"))]] = 1%Z /\
  check_db_id (py "s")
    (JList [JDict [(py "source_db_id", JStr (py "x")); (py "target_db_id", JStr (py "y"))]])
    (Some (py "t"))
  <> Ok (mismatching_records (py "s") (Some (py "t"))
           [JDict [(py "source_db_id", JStr (py "x")); (py "target_db_id", JStr (py "y"))]]).
Proof.
  split; [vm_compute; reflexivity|]. split; [vm_compute; reflexivity|].
  vm_compute. discriminate.
Qed.

(** ** The ledger *)

Lemma add_stats_cons (k : string) (v : pyval) (rest : dict pyval) (self : Stats) :
  add_stats ((k, v) :: rest) self
  = if dict_contains (full_stats self) k && is_number v then
      match dict_get (full_stats self) k with
      | None => Raised (KeyError k) self
      | Some cur =>
          match py_add cur v with
          | Ok r => add_stats rest (set_full_stats self (dict_set (full_stats self) k r))
          | Err e => Raised e self
          end
      end
    else add_stats rest self.
Proof.
  simpl. unfold bind, iadd_full_stats.
  destruct (dict_contains (full_stats self) k && is_number v); [|reflexivity].
  destruct (dict_get (full_stats self) k) as [cur|]; [|reflexivity].
  destruct (py_add cur v); reflexivity.
Qed.

Lemma dict_contains_get {V : Type} (d : dict V) (k : string) :
  dict_contains d k = true <-> exists v, dict_get d k = Some v.
Proof.
  unfold dict_contains. destruct (dict_get d k); split; intros H; eauto.
  - discriminate.
  - destruct H; discriminate.
Qed.

(** What a call of [add_stats] that returns has done. *)
Lemma add_stats_returned (stats : dict pyval) :
  forall self self' : Stats,
    NoDup (map fst stats) ->
    add_stats stats self = Returned tt self' ->
    default_stats self' = default_stats self /\
    unexpected_errors self' = unexpected_errors self /\
    skipped_db_prompts self' = skipped_db_prompts self /\
    map fst (full_stats self') = map fst (full_stats self) /\
    (forall k, dict_get (full_stats self') k
               = match dict_get (full_stats self) k with
                 | Some cur => Some (merged_value cur (dict_get stats k))
                 | None => None
                 end) /\
    (forall k cur v, dict_get (full_stats self) k = Some cur ->
                     dict_get stats k = Some v -> is_number v = true ->
                     exists r, py_add cur v = Ok r).
Proof.
  induction stats as [|[k v] rest IH]; intros self self' Hnd H.
  - simpl in H. inversion H; subst. repeat split; auto.
    + intros k. simpl. destruct (dict_get (full_stats self') k); reflexivity.
    + intros k cur v _ Hv. discriminate.
  - inversion Hnd as [|? ? Hnotin Hnd']; subst.
    rewrite add_stats_cons in H.
    destruct (dict_contains (full_stats self) k && is_number v) eqn:Eg.
    + apply andb_true_iff in Eg as [Ec En].
      destruct (dict_get (full_stats self) k) as [cur|] eqn:Ek; [|discriminate].
      destruct (py_add cur v) as [r|e] eqn:Ea; [|discriminate].
      destruct (IH _ _ Hnd' H) as (Hd & Hu & Hs & Hkeys & Hget & Hsum).
      simpl in Hd, Hu, Hs, Hkeys, Hget, Hsum.
      repeat split; auto.
      * rewrite Hkeys. apply dict_set_keys. exact Ec.
      * intros k0. rewrite Hget. simpl.
        destruct (String.eqb k k0) eqn:E0.
        -- apply String.eqb_eq in E0. subst k0.
           rewrite dict_get_set_same, Ek.
           rewrite (dict_get_not_In rest k Hnotin). simpl. now rewrite En, Ea.
        -- rewrite dict_get_set_other by (intros ->; rewrite String.eqb_refl in E0;
                                          discriminate).
           reflexivity.
      * intros k0 cur0 v0 Hc0 Hv0 Hn0. simpl in Hv0.
        destruct (String.eqb k k0) eqn:E0.
        -- apply String.eqb_eq in E0. subst k0. inversion Hv0; subst.
           rewrite Ek in Hc0. inversion Hc0; subst. eauto.
        -- apply (Hsum k0 cur0 v0); auto.
           rewrite dict_get_set_other by (intros ->; rewrite String.eqb_refl in E0;
                                          discriminate).
           exact Hc0.
    + destruct (IH _ _ Hnd' H) as (Hd & Hu & Hs & Hkeys & Hget & Hsum).
      repeat split; auto.
      * intros k0. rewrite Hget. simpl.
        destruct (dict_get (full_stats self) k0) as [cur0|] eqn:Ek0; [|reflexivity].
        destruct (String.eqb k k0) eqn:E0; [|reflexivity].
        apply String.eqb_eq in E0. subst k0.
        rewrite (dict_get_not_In rest k Hnotin). simpl.
        assert (Ec : dict_contains (full_stats self) k = true)
          by (apply dict_contains_get; eauto).
        rewrite Ec in Eg. simpl in Eg. now rewrite Eg.
      * intros k0 cur0 v0 Hc0 Hv0 Hn0. simpl in Hv0.
        destruct (String.eqb k k0) eqn:E0.
        -- apply String.eqb_eq in E0. subst k0. inversion Hv0; subst.
           assert (Ec : dict_contains (full_stats self) k = true)
             by (apply dict_contains_get; eauto).
           rewrite Ec, Hn0 in Eg. discriminate.
        -- eauto.
Qed.

(** [add_stats] returns when every sum it has to form is defined. *)
Lemma add_stats_returns (stats : dict pyval) :
  forall self : Stats,
    NoDup (map fst stats) ->
    summable self stats ->
    exists self', add_stats stats self = Returned tt self'.
Proof.
  induction stats as [|[k v] rest IH]; intros self Hnd Hsum.
  - simpl. eauto.
  - inversion Hnd as [|? ? Hnotin Hnd']; subst.
    rewrite add_stats_cons.
    destruct (dict_contains (full_stats self) k && is_number v) eqn:Eg.
    + apply andb_true_iff in Eg as [Ec En].
      apply dict_contains_get in Ec as [cur Ek]. rewrite Ek.
      destruct (Hsum k cur v (or_introl eq_refl) En Ek) as [r Hr]. rewrite Hr.
      apply IH; auto.
      intros k0 cur0 v0 Hin Hn0 Hc0. simpl in Hc0.
      assert (Hne : k <> k0).
      { intros ->. apply Hnotin. change k0 with (fst (k0, v0)). now apply in_map. }
      rewrite dict_get_set_other in Hc0 by exact Hne.
      apply (Hsum k0 cur0 v0); auto. now right.
    + apply IH; auto.
      intros k0 cur0 v0 Hin Hn0 Hc0. apply (Hsum k0 cur0 v0); auto. now right.
Qed.

Lemma py_add_non_number (cur v : pyval) :
  is_number cur = false -> is_number v = true -> py_add cur v = Err TypeError.
Proof.
  destruct cur, v; simpl; intros; try discriminate; reflexivity.
Qed.

(** C4, as the code has it.  [add_stats] adds the numeric values of the
    input dictionary to the ledger entries with the same key, and leaves
    every other entry, the keys of the ledger and its other fields as they
    were: values that are no numbers and keys the ledger does not have are
    ignored.  It returns normally whenever each sum it has to form is
    defined; a ledger entry that holds no number and is matched by a
    numeric value makes it raise instead. *)
Theorem add_stats_sums_matching_numbers :
  forall (self : Stats) (stats : dict pyval),
    NoDup (map fst stats) ->
    (summable self stats ->
     exists self',
       add_stats stats self = Returned tt self' /\
       default_stats self' = default_stats self /\
       unexpected_errors self' = unexpected_errors self /\
       skipped_db_prompts self' = skipped_db_prompts self /\
       map fst (full_stats self') = map fst (full_stats self) /\
       (forall k, dict_get (full_stats self') k
                  = match dict_get (full_stats self) k with
                    | Some cur => Some (merged_value cur (dict_get stats k))
                    | None => None
                    end)) /\
    (forall k cur v,
        dict_get stats k = Some v -> is_number v = true ->
        dict_get (full_stats self) k = Some cur -> is_number cur = false ->
        forall self', add_stats stats self <> Returned tt self').
Proof.
  intros self stats Hnd. split.
  - intros Hsum. destruct (add_stats_returns stats self Hnd Hsum) as [self' H].
    exists self'. split; [exact H|].
    destruct (add_stats_returned stats self self' Hnd H) as (Hd & Hu & Hs & Hk & Hg & _).
    auto.
  - intros k cur v Hv Hn Hc Hcur self' H.
    destruct (add_stats_returned stats self self' Hnd H) as (_ & _ & _ & _ & _ & Hsum).
    destruct (Hsum k cur v Hc Hv Hn) as [r Hr].
    rewrite py_add_non_number in Hr by assumption. discriminate.
Qed.

Lemma add_stats_sums_matching_numbers_witness :
  exists self',
    add_stats [("request", VInt 2); ("model_name", VStr "x"); ("input_token", VNone);
               ("extra", VInt 7)]%string
      (Stats_init [("model_name", VStr "m")]%string) = Returned tt self' /\
    dict_get (full_stats self') "request" = Some (VInt 2) /\
    dict_get (full_stats self') "model_name" = Some (VStr "m") /\
    dict_get (full_stats self') "input_token" = Some (VInt 0) /\
    dict_get (full_stats self') "extra" = None.
Proof.
  destruct (add_stats_sums_matching_numbers
              (Stats_init [("model_name", VStr "m")]%string)
              [("request", VInt 2); ("model_name", VStr "x"); ("input_token", VNone);
               ("extra", VInt 7)]%string) as [H _].
  - repeat constructor; simpl; intuition discriminate.
  - destruct H as [self' [Hr [_ [_ [_ [_ Hg]]]]]].
    + intros k cur v Hin Hn Hc. simpl in Hin.
      destruct Hin as [E|[E|[E|[E|[]]]]]; inversion E; subst; try discriminate;
        vm_compute in Hc; inversion Hc; subst; eexists; reflexivity.
    + exists self'. split; [exact Hr|]. rewrite !Hg. repeat split.
Defined.

(** C4 as stated fails: the run-level ledger holds the model's name under
    [model_name]; merging a number under that key raises [TypeError]. *)
Lemma add_stats_never_errors_counterexample :
  add_stats [("model_name", VInt 1)]%string (Stats_init [("model_name", VStr "m")]%string)
  = Raised TypeError (Stats_init [("model_name", VStr "m")]%string).
Proof. vm_compute. reflexivity. Qed.

(** ** The ledger hierarchy of a run *)

Lemma bind_inv {S A B : Type} (c : M S A) (f : A -> M S B) (s s' : S) (b : B) :
  bind c f s = Returned b s' ->
  exists a s1, c s = Returned a s1 /\ f a s1 = Returned b s'.
Proof.
  unfold bind. destruct (c s) as [a s1|e s1]; [eauto|discriminate].
Qed.

Lemma tracks_add_stats (k : string) (items : dict pyval) (s s' : Stats) (z d : Z) :
  tracks k s z ->
  NoDup (map fst items) ->
  item_delta items k = Some d ->
  add_stats items s = Returned tt s' ->
  tracks k s' (z + d).
Proof.
  intros (Hk & Hnd & Hdk & Hdnd) Hitems Hd H.
  destruct (add_stats_returned items s s' Hitems H) as (Hdef & _ & _ & Hkeys & Hget & _).
  unfold tracks. rewrite Hdef, Hkeys, Hget, Hk. repeat split; auto.
  unfold item_delta in Hd. unfold merged_value.
  destruct (dict_get items k) as [[| | n | |]|]; inversion Hd; subst; simpl; auto.
  now rewrite Z.add_0_r.
Qed.

Lemma tracks_reset (k : string) (s s' : Stats) (z : Z) :
  tracks k s z -> reset_stats s = Returned tt s' -> tracks k s' 0.
Proof.
  intros (Hk & Hnd & Hdk & Hdnd) H. unfold reset_stats, modify in H.
  inversion H; subst. unfold tracks. simpl. auto.
Qed.

Lemma tracks_add_skipped (k : string) (s s' : Stats) (z : Z) a b c d e :
  tracks k s z -> add_skipped_db_prompt a b c d e s = Returned tt s' -> tracks k s' z.
Proof.
  intros Ht H. unfold add_skipped_db_prompt, modify in H. inversion H; subst.
  exact Ht.
Qed.

Lemma tracks_add_unexpected (k : string) (s s' : Stats) (z : Z) (msg : string) :
  k <> "unexpected_error"%string ->
  tracks k s z -> add_unexpected_error msg s = Returned tt s' -> tracks k s' z.
Proof.
  intros Hne (Hk & Hnd & Hdk & Hdnd) H.
  unfold add_unexpected_error in H. apply bind_inv in H as (a & s1 & E & H).
  unfold modify in E. inversion E; subst. clear E.
  unfold iadd_full_stats in H. simpl in H.
  destruct (dict_get (full_stats s) "unexpected_error") as [cur|] eqn:Ec; [|discriminate].
  destruct (py_add cur (VInt 1)) as [v|]; [|discriminate].
  inversion H; subst. unfold tracks. simpl.
  rewrite dict_get_set_other by auto.
  rewrite dict_set_keys by (apply dict_contains_get; eauto). auto.
Qed.

Ltac eff_split := split; [|split; [|split; [|split]]].

Lemma eff_refl (k : string) (st : run_state) : eff k 0 0 0 0 0 st st.
Proof.
  unfold eff. eff_split; intros; rewrite ?Z.add_0_r; auto.
Qed.

Lemma eff_trans (k : string) (a1 b1 c1 d1 e1 a2 b2 c2 d2 e2 : Z) (st st1 st2 : run_state) :
  eff k a1 b1 c1 d1 e1 st st1 ->
  eff k a2 b2 c2 d2 e2 st1 st2 ->
  eff k (a1 + a2) (b1 + b2) (c1 + c2) (d1 + d2) (e1 + e2) st st2.
Proof.
  intros (H1 & H2 & H3 & H4 & H5) (G1 & G2 & G3 & G4 & G5).
  unfold eff. eff_split; intros; rewrite ?Z.add_assoc; auto.
  - rewrite G4, H4. lia.
  - rewrite G5, H5. lia.
Qed.

Lemma eff_eq (k : string) (a b c d e a' b' c' d' e' : Z) (st st' : run_state) :
  eff k a b c d e st st' ->
  a = a' -> b = b' -> c = c' -> d = d' -> e = e' ->
  eff k a' b' c' d' e' st st'.
Proof. intros H -> -> -> -> ->. exact H. Qed.

Lemma neutral_then (k : string) (a b c d e : Z) (st st1 st2 : run_state) :
  neutral k st st1 -> eff k a b c d e st1 st2 -> eff k a b c d e st st2.
Proof.
  intros H1 H2. eapply eff_eq; [eapply eff_trans; eassumption|..]; lia.
Qed.

Lemma neutral_same (k : string) (st st' : run_state) :
  overall_stats st' = overall_stats st ->
  pipeline_stats st' = pipeline_stats st ->
  current_stats st' = current_stats st ->
  unit_ledgers (sink st') = unit_ledgers (sink st) ->
  trace st' = trace st ->
  neutral k st st'.
Proof.
  intros H1 H2 H3 H4 H5. unfold neutral, eff, units, batches_done.
  rewrite H1, H2, H3, H4, H5.
  eff_split; intros; rewrite ?Z.add_0_r; auto.
Qed.

Ltac neutral_modify H :=
  inversion H; subst; clear H; apply neutral_same; reflexivity.

Lemma set_errors_neutral k e st a st' :
  set_errors e st = Returned a st' -> neutral k st st'.
Proof. intros H. unfold set_errors, modify in H. neutral_modify H. Qed.

Lemma set_max_fail_counter_neutral k n st a st' :
  set_max_fail_counter n st = Returned a st' -> neutral k st st'.
Proof. intros H. unfold set_max_fail_counter, modify in H. neutral_modify H. Qed.

Lemma set_max_tokens_fail_counter_neutral k n st a st' :
  set_max_tokens_fail_counter n st = Returned a st' -> neutral k st st'.
Proof. intros H. unfold set_max_tokens_fail_counter, modify in H. neutral_modify H. Qed.

Lemma set_current_db_neutral k db st a st' :
  set_current_db db st = Returned a st' -> neutral k st st'.
Proof. intros H. unfold set_current_db, modify in H. neutral_modify H. Qed.

Lemma set_db_response_json_neutral k l st a st' :
  set_db_response_json l st = Returned a st' -> neutral k st st'.
Proof. intros H. unfold set_db_response_json, modify in H. neutral_modify H. Qed.

Lemma next_call_neutral k st a st' :
  next_call st = Returned a st' -> neutral k st st'.
Proof. intros H. unfold next_call in H. neutral_modify H. Qed.

Lemma get_inv {S : Type} (s s' a : S) : get s = Returned a s' -> a = s /\ s' = s.
Proof. unfold get. intros H. inversion H. auto. Qed.

Lemma ret_inv {S A : Type} (x a : A) (s s' : S) : ret x s = Returned a s' -> a = x /\ s' = s.
Proof. unfold ret. intros H. inversion H. auto. Qed.

Lemma lift_result_inv {S A : Type} (r : result A) (a : A) (s s' : S) :
  lift_result r s = Returned a s' -> r = Ok a /\ s' = s.
Proof. unfold lift_result. destruct r; intros H; inversion H. auto. Qed.

Lemma read_current_db_inv st db st' :
  read_current_db st = Returned db st' -> st' = st.
Proof.
  unfold read_current_db. destruct (current_db st); intros H; inversion H. auto.
Qed.

Lemma on_errors_neutral {A : Type} k (m : M errors_t A) st a st' :
  on_errors m st = Returned a st' -> neutral k st st'.
Proof.
  unfold on_errors. intros H. destruct (errors st) as [errs|]; [|discriminate].
  destruct (m errs); [|discriminate]. neutral_modify H.
Qed.

Lemma on_errors_inv {A : Type} (m : M errors_t A) st a st' :
  on_errors m st = Returned a st' ->
  exists errs errs', errors st = Some errs /\ m errs = Returned a errs' /\
                     errors st' = Some errs'.
Proof.
  unfold on_errors. intros H. destruct (errors st) as [errs|]; [|discriminate].
  destruct (m errs) as [x e'|] eqn:E; [|discriminate]. inversion H; subst.
  exists errs, e'. auto.
Qed.

Lemma emit_response_neutral k j db l t st a st' :
  emit (WriteResponse j db l t) st = Returned a st' -> neutral k st st'.
Proof. intros H. unfold emit, modify in H. neutral_modify H. Qed.

Lemma emit_errors_neutral k l st a st' :
  emit (WriteErrors l) st = Returned a st' -> neutral k st st'.
Proof. intros H. unfold emit, modify in H. neutral_modify H. Qed.

Lemma write_response_neutral k j db t st a st' :
  write_response j db t st = Returned a st' -> neutral k st st'.
Proof.
  unfold write_response. intros H. apply bind_inv in H as (x & s1 & E & H).
  apply get_inv in E as [-> ->]. eapply emit_response_neutral; eauto.
Qed.

Lemma on_current_add_stats_eff k items d st a st' :
  NoDup (map fst items) ->
  item_delta items k = Some d ->
  on_current (add_stats items) st = Returned a st' ->
  eff k 0 0 d 0 0 st st'.
Proof.
  intros Hnd Hd H. unfold on_current in H.
  destruct (add_stats items (current_stats st)) as [x s'|] eqn:E; [|discriminate].
  destruct x. inversion H; subst; clear H.
  unfold eff, units, batches_done. simpl.
  eff_split; intros; rewrite ?Z.add_0_r; auto.
  eapply tracks_add_stats; eauto.
Qed.

Lemma on_current_add_unexpected_neutral k msg st a st' :
  In k counter_keys ->
  on_current (add_unexpected_error msg) st = Returned a st' ->
  neutral k st st'.
Proof.
  intros Hk H. unfold on_current in H.
  destruct (add_unexpected_error msg (current_stats st)) as [x s'|] eqn:E; [|discriminate].
  destruct x. inversion H; subst; clear H.
  unfold neutral, eff, units, batches_done. simpl.
  eff_split; intros; rewrite ?Z.add_0_r; auto.
  eapply tracks_add_unexpected; eauto.
  simpl in Hk. intuition (subst; discriminate).
Qed.

Lemma on_pipeline_add_skipped_neutral k a b c d e st x st' :
  on_pipeline (add_skipped_db_prompt a b c d e) st = Returned x st' ->
  neutral k st st'.
Proof.
  intros H. unfold on_pipeline in H.
  destruct (add_skipped_db_prompt a b c d e (pipeline_stats st)) as [y s'|] eqn:E;
    [|discriminate].
  destruct y. inversion H; subst; clear H.
  unfold neutral, eff, units, batches_done. simpl.
  eff_split; intros; rewrite ?Z.add_0_r; auto.
  eapply tracks_add_skipped; eauto.
Qed.

Lemma record_batch_eff k b st a st' :
  record_batch b st = Returned a st' ->
  eff k 0 0 0 0 (kind_count k (batch_attempts b)) st st'.
Proof.
  intros H. unfold record_batch, modify in H. inversion H; subst; clear H.
  unfold eff, units, batches_done. simpl.
  eff_split; intros; rewrite ?Z.add_0_r; auto. lia.
Qed.

Lemma eff_step (k : string) (a1 b1 c1 d1 e1 a2 b2 c2 d2 e2 a b c d e : Z)
  (st st1 st2 : run_state) :
  eff k a1 b1 c1 d1 e1 st st1 ->
  eff k a2 b2 c2 d2 e2 st1 st2 ->
  a = (a1 + a2)%Z -> b = (b1 + b2)%Z -> c = (c1 + c2)%Z ->
  d = (d1 + d2)%Z -> e = (e1 + e2)%Z ->
  eff k a b c d e st st2.
Proof.
  intros H1 H2 -> -> -> -> ->. eapply eff_trans; eassumption.
Qed.

Create HintDb eff_db.
#[local] Hint Resolve set_errors_neutral set_max_fail_counter_neutral
  set_max_tokens_fail_counter_neutral set_current_db_neutral
  set_db_response_json_neutral next_call_neutral on_errors_neutral
  emit_response_neutral emit_errors_neutral write_response_neutral
  on_pipeline_add_skipped_neutral on_current_add_unexpected_neutral : eff_db.

(** One [bind] of a computation that returned. *)
Ltac mstep H E x s :=
  apply bind_inv in H as (x & s & E & H); cbv beta in H.

(** The step [E] does not touch the ledgers. *)
Ltac skip_step :=
  eapply neutral_then; [solve [eauto 3 with eff_db]|].

Ltac drop_get E := apply get_inv in E as [-> ->].
Ltac drop_ret E := apply ret_inv in E as [-> ->].

Lemma then_neutral (k : string) (a b c d e : Z) (st st1 st2 : run_state) :
  eff k a b c d e st st1 -> neutral k st1 st2 -> eff k a b c d e st st2.
Proof.
  intros H1 H2. eapply eff_eq; [eapply eff_trans; eassumption|..]; lia.
Qed.

Lemma item_delta_absent (k : string) (items : dict pyval) :
  ~ In k (map fst items) -> item_delta items k = Some 0%Z.
Proof.
  intros H. unfold item_delta. now rewrite dict_get_not_In.
Qed.

Lemma item_delta_kind (k key : string) (a : attempt_kind) :
  kind_key a = Some key ->
  item_delta [(key, VInt 1)] k = Some (kind_count k [a]).
Proof.
  intros H. unfold item_delta, kind_count. simpl. rewrite H.
  destruct (String.eqb key k); reflexivity.
Qed.

Ltac not_counter_key Hk :=
  let H := fresh in
  intros H; simpl in Hk, H; intuition (subst; discriminate).

Ltac nodup_keys :=
  repeat (constructor; [simpl; intuition discriminate|]); constructor.

Lemma on_current_add_stats_neutral k items st a st' :
  NoDup (map fst items) ->
  ~ In k (map fst items) ->
  on_current (add_stats items) st = Returned a st' ->
  neutral k st st'.
Proof.
  intros Hnd Hk H. eapply on_current_add_stats_eff; eauto using item_delta_absent.
Qed.

Lemma attempt_failed_eff (k : string) st ex kind st' :
  In k counter_keys ->
  attempt_failed st = Returned (ex, kind) st' ->
  ex = Next /\ eff k 0 0 (kind_count k [kind]) 0 0 st st'.
Proof.
  intros Hk H. unfold attempt_failed, errors_flag in H.
  mstep H E1 unexpected s1. mstep H E2 x2 s2. mstep H E3 max_token s3.
  mstep H E4 x4 s4. apply ret_inv in H as [H ->].
  inversion H; subst; clear H. split; [reflexivity|].
  skip_step. eapply then_neutral.
  - destruct unexpected; cbn [negb] in E2.
    + drop_ret E2. apply eff_refl.
    + eapply on_current_add_stats_eff with (3 := E2); [nodup_keys|].
      now apply item_delta_kind.
  - unfold neutral. skip_step. destruct max_token.
    + mstep E4 E5 x5 s5. drop_get E5.
      destruct (MAX_TOKENS_FAIL_REMINDER <=? max_tokens_fail_counter s3 + 1)%Z;
        eapply set_max_tokens_fail_counter_neutral; eauto.
    + drop_ret E4. apply eff_refl.
Qed.

Lemma kind_count_app (k : string) (a b : list attempt_kind) :
  kind_count k (a ++ b) = (kind_count k a + kind_count k b)%Z.
Proof.
  unfold kind_count. rewrite filter_app, length_app. lia.
Qed.

Lemma validate_structure_eff (k : string) cfg pl db js fixed st ex kind st' :
  In k counter_keys ->
  validate_structure cfg pl db js fixed st = Returned (ex, kind) st' ->
  eff k 0 0 (kind_count k [kind]) 0 0 st st'.
Proof.
  intros Hk H. unfold validate_structure, errors_flag in H.
  mstep H E1 x1 s1. mstep H E2 fm s2. mstep H E3 dm s3.
  do 3 skip_step.
  destruct (negb fm && negb dm).
  - destruct fixed as [[|]|]; mstep H E4 x4 s4; apply ret_inv in H as [H ->];
      inversion H; subst; clear H;
      (eapply on_current_add_stats_eff with (3 := E4);
       [nodup_keys|now apply item_delta_kind]).
  - exact (proj2 (attempt_failed_eff k _ _ _ _ Hk H)).
Qed.

Lemma json_only_write_neutral (k : string) (b : bool) db t st a st' :
  (if b then write_response true db t else ret tt) st = Returned a st' ->
  neutral k st st'.
Proof.
  destruct b; intros H.
  - eauto with eff_db.
  - drop_ret H. apply eff_refl.
Qed.

Lemma attempt_eff (k : string) cfg w pl db rv st ex rv' kind st' :
  In k counter_keys ->
  attempt cfg w pl db rv st = Returned (ex, rv', kind) st' ->
  eff k 0 0 (kind_count k [kind]) 0 0 st st'.
Proof.
  intros Hk H. unfold attempt in H.
  mstep H E1 x1 s1. mstep H E2 x2 s2. mstep H E3 n s3.
  skip_step.
  eapply neutral_then.
  { eapply on_current_add_stats_neutral with (3 := E2);
      [nodup_keys|not_counter_key Hk]. }
  skip_step.
  destruct (generate (lower (model_origin cfg)) (provider w n)) as [response_dict|msg].
  - mstep H E4 x4 s4. mstep H E5 x5 s5. mstep H E6 x6 s6. mstep H E7 passed s7.
    skip_step.
    eapply neutral_then; [eapply json_only_write_neutral; exact E5|].
    eapply neutral_then.
    { eapply on_current_add_stats_neutral with (3 := E6);
        [nodup_keys|not_counter_key Hk]. }
    skip_step.
    destruct passed.
    + mstep H E8 jf s8. skip_step.
      destruct (fst jf); mstep H E9 r s9; apply ret_inv in H as [H ->];
        inversion H; subst; clear H; destruct r as [ex' kind'];
        cbn [fst snd] in *;
        first [ exact (proj2 (attempt_failed_eff k _ _ _ _ Hk E9))
              | eapply validate_structure_eff; eauto ].
    + mstep H E8 r s8. apply ret_inv in H as [H ->]. inversion H; subst; clear H.
      destruct r as [ex' kind']. cbn [fst snd] in *.
      exact (proj2 (attempt_failed_eff k _ _ _ _ Hk E8)).
  - mstep H E4 x4 s4. mstep H E5 x5 s5. mstep H E6 x6 s6. drop_get E6.
    mstep H E7 x7 s7. mstep H E8 x8 s8. mstep H E9 r s9.
    apply ret_inv in H as [H ->]. inversion H; subst; clear H.
    destruct r as [ex' kind']. cbn [fst snd] in *.
    skip_step. skip_step. skip_step.
    eapply neutral_then.
    { destruct (max_fail_limit cfg <=? max_fail_counter s5 + 1)%Z.
      - unfold max_fail_exit, raise in E8. discriminate.
      - drop_ret E8. apply eff_refl. }
    exact (proj2 (attempt_failed_eff k _ _ _ _ Hk E9)).
Qed.

Lemma attempts_eff (k : string) cfg w pl db (n : nat) :
  In k counter_keys ->
  forall rv kinds st rv' kinds' st',
    attempts cfg w pl db n rv kinds st = Returned (rv', kinds') st' ->
    exists new, kinds' = kinds ++ new /\ eff k 0 0 (kind_count k new) 0 0 st st'.
Proof.
  intros Hk. induction n as [|n IH]; intros rv kinds st rv' kinds' st' H; simpl in H.
  - apply ret_inv in H as [H ->]. inversion H; subst.
    exists []. rewrite app_nil_r. split; [reflexivity|apply eff_refl].
  - mstep H E1 r s1. destruct r as [[ex rv1] kind].
    pose proof (attempt_eff k _ _ _ _ _ _ _ _ _ _ Hk E1) as H1.
    destruct ex.
    + apply ret_inv in H as [H ->]. inversion H; subst. exists [kind]. auto.
    + apply IH in H as [new [-> H2]].
      exists (kind :: new). split; [now rewrite <- app_assoc|].
      eapply eff_step; [exact H1|exact H2|try reflexivity..].
      change (kind :: new) with ([kind] ++ new). apply kind_count_app.
Qed.

Lemma process_batch_eff (k : string) cfg w pl db qs st a st' :
  In k counter_keys ->
  process_batch cfg w pl db qs st = Returned a st' ->
  exists d, eff k 0 0 d 0 d st st'.
Proof.
  intros Hk H. unfold process_batch, read_errors in H.
  mstep H E1 r s1. destruct r as [rv kinds].
  apply (attempts_eff k _ _ _ _ _ Hk) in E1 as [new [Hnew H1]].
  simpl in Hnew. subst kinds. mstep H E2 errs s2. cbn [fst snd] in H.
  exists (kind_count k new).
  destruct (negb (Nat.eqb (errors_sum errs) 0)).
  - mstep H E3 x3 s3. apply (record_batch_eff k) in H. cbn [batch_attempts] in H.
    eapply eff_step; [exact H1| |try reflexivity..].
    + skip_step. skip_step. exact H.
    + lia.
  - destruct rv as [| |js]; try discriminate.
    mstep H E3 records s3. mstep H E4 x4 s4. drop_get E4. mstep H E5 x5 s5.
    mstep H E6 x6 s6. mstep H E7 x7 s7.
    apply (record_batch_eff k) in H. cbn [batch_attempts] in H.
    apply lift_result_inv in E3 as [_ ->].
    eapply eff_step; [exact H1| |try reflexivity..].
    + skip_step. skip_step. skip_step.
      eapply neutral_then; [eapply json_only_write_neutral; exact E7|exact H].
    + lia.
Qed.

Lemma batches_eff (k : string) cfg w pl db data (starts : list nat) :
  In k counter_keys ->
  forall st a st',
    batches cfg w pl db data starts st = Returned a st' ->
    exists d, eff k 0 0 d 0 d st st'.
Proof.
  intros Hk. induction starts as [|i starts IH]; intros st a st' H; simpl in H.
  - drop_ret H. exists 0%Z. apply eff_refl.
  - destruct (firstn (max_question_length_per_prompt cfg) (skipn i data)) as [|q qs].
    + drop_ret H. exists 0%Z. apply eff_refl.
    + mstep H E1 x1 s1. apply (process_batch_eff k) in E1 as [d1 H1]; [|exact Hk].
      apply IH in H as [d2 H2]. exists (d1 + d2)%Z.
      eapply eff_step; [exact H1|exact H2|lia..].
Qed.

Lemma on_pipeline_add_stats_eff k items d st a st' :
  NoDup (map fst items) ->
  item_delta items k = Some d ->
  on_pipeline (add_stats items) st = Returned a st' ->
  eff k 0 d 0 0 0 st st'.
Proof.
  intros Hnd Hd H. unfold on_pipeline in H.
  destruct (add_stats items (pipeline_stats st)) as [x s'|] eqn:E; [|discriminate].
  destruct x. inversion H; subst; clear H.
  unfold eff, units, batches_done. simpl.
  eff_split; intros; rewrite ?Z.add_0_r; auto.
  eapply tracks_add_stats; eauto.
Qed.

Lemma on_overall_add_stats_eff k items d st a st' :
  NoDup (map fst items) ->
  item_delta items k = Some d ->
  on_overall (add_stats items) st = Returned a st' ->
  eff k d 0 0 0 0 st st'.
Proof.
  intros Hnd Hd H. unfold on_overall in H.
  destruct (add_stats items (overall_stats st)) as [x s'|] eqn:E; [|discriminate].
  destruct x. inversion H; subst; clear H.
  unfold eff, units, batches_done. simpl.
  eff_split; intros; rewrite ?Z.add_0_r; auto.
  eapply tracks_add_stats; eauto.
Qed.

Lemma tracks_item_delta (k : string) (s : Stats) (z : Z) :
  tracks k s z ->
  NoDup (map fst (get_stats s)) /\ item_delta (get_stats s) k = Some z /\
  counter (get_stats s) k = z.
Proof.
  intros (Hk & Hnd & _). unfold get_stats, item_delta, counter. rewrite Hk. auto.
Qed.

Lemma write_unit_stats_eff k stats db st a st' :
  write_stats 2 stats db st = Returned a st' ->
  eff k 0 0 0 (counter (get_stats stats) k) 0 st st'.
Proof.
  intros H. unfold write_stats, emit, modify in H. inversion H; subst; clear H.
  unfold eff, units, batches_done. simpl.
  eff_split; intros; rewrite ?Z.add_0_r; auto. lia.
Qed.

Lemma write_pipeline_stats_neutral k stats db st a st' :
  write_stats 1 stats db st = Returned a st' -> neutral k st st'.
Proof.
  intros H. unfold write_stats in H. mstep H E1 x1 s1.
  unfold emit, modify in E1. inversion E1; subst; clear E1.
  destruct (skipped_db_prompts stats).
  - drop_ret H. apply neutral_same; reflexivity.
  - unfold emit, modify in H. inversion H; subst; clear H.
    apply neutral_same; reflexivity.
Qed.

Lemma write_overall_stats_neutral k stats db st a st' :
  write_stats 0 stats db st = Returned a st' -> neutral k st st'.
Proof.
  intros H. unfold write_stats, emit, modify in H. inversion H; subst; clear H.
  apply neutral_same; reflexivity.
Qed.

Lemma unit_eff_refl k st : unit_eff k 0 st st.
Proof.
  unfold unit_eff. eff_split; intros; rewrite ?Z.add_0_r; auto.
Qed.

Lemma unit_eff_trans k d1 d2 st st1 st2 :
  unit_eff k d1 st st1 -> unit_eff k d2 st1 st2 -> unit_eff k (d1 + d2) st st2.
Proof.
  intros (H1 & H2 & H3 & H4 & H5) (G1 & G2 & G3 & G4 & G5).
  unfold unit_eff. eff_split; intros; rewrite ?Z.add_assoc; auto.
  - rewrite G4, H4. lia.
  - rewrite G5, H5. lia.
Qed.

Lemma pipeline_eff_refl k st : pipeline_eff k 0 st st.
Proof.
  unfold pipeline_eff. eff_split; intros; rewrite ?Z.add_0_r; auto.
Qed.

Lemma pipeline_eff_trans k d1 d2 st st1 st2 :
  pipeline_eff k d1 st st1 -> pipeline_eff k d2 st1 st2 ->
  pipeline_eff k (d1 + d2) st st2.
Proof.
  intros (H1 & H2 & H3 & H4 & H5) (G1 & G2 & G3 & G4 & G5).
  unfold pipeline_eff. eff_split; intros; rewrite ?Z.add_assoc; auto.
  - rewrite G4, H4. lia.
  - rewrite G5, H5. lia.
Qed.

(** After [current_stats.reset_stats()]. *)
Lemma reset_current k st a st' :
  on_current reset_stats st = Returned a st' ->
  (tracked k (current_stats st) -> tracks k (current_stats st') 0) /\
  overall_stats st' = overall_stats st /\
  pipeline_stats st' = pipeline_stats st /\
  sink st' = sink st /\ trace st' = trace st.
Proof.
  intros H. unfold on_current, reset_stats, modify in H. inversion H; subst; clear H.
  simpl. split; [|repeat split; reflexivity].
  intros [z Hz]. eapply tracks_reset; [exact Hz|reflexivity].
Qed.

Lemma reset_pipeline k st a st' :
  on_pipeline reset_stats st = Returned a st' ->
  (tracked k (pipeline_stats st) -> tracks k (pipeline_stats st') 0) /\
  overall_stats st' = overall_stats st /\
  current_stats st' = current_stats st /\
  sink st' = sink st /\ trace st' = trace st.
Proof.
  intros H. unfold on_pipeline, reset_stats, modify in H. inversion H; subst; clear H.
  simpl. split; [|repeat split; reflexivity].
  intros [z Hz]. eapply tracks_reset; [exact Hz|reflexivity].
Qed.

(** From a state whose unit ledger is at zero, an effect that moves the
    three quantities of a unit by the same amount is the effect of a unit. *)
Lemma unit_eff_of_eff k d c st s0 st' :
  (tracked k (current_stats st) -> tracks k (current_stats s0) 0) ->
  overall_stats s0 = overall_stats st ->
  pipeline_stats s0 = pipeline_stats st ->
  sink s0 = sink st -> trace s0 = trace st ->
  eff k 0 d c d d s0 st' ->
  unit_eff k d st st'.
Proof.
  intros Hc Ho Hp Hs Ht (H1 & H2 & H3 & H4 & H5).
  unfold units, batches_done in *. rewrite Ho in H1. rewrite Hp in H2.
  rewrite Hs in H4. rewrite Ht in H5.
  unfold unit_eff, units, batches_done. eff_split; auto.
  - intros z Hz. specialize (H1 z Hz). now rewrite Z.add_0_r in H1.
  - intros Htr. exists (0 + c)%Z. apply H3. auto.
Qed.

Lemma process_source_eff (k : string) cfg w pl f st a st' :
  In k counter_keys ->
  tracked k (current_stats st) ->
  process_source cfg w pl f st = Returned a st' ->
  exists d, unit_eff k d st st'.
Proof.
  intros Hk Hcur H. unfold process_source in H.
  mstep H E0 x0 s0.
  destruct (reset_current k _ _ _ E0) as (Hc0 & Ho & Hp & Hs & Ht).
  specialize (Hc0 Hcur).
  destruct f as [|db question_data real_time].
  - drop_ret H. exists 0%Z.
    eapply unit_eff_of_eff with (c := 0%Z); eauto. apply eff_refl.
  - destruct question_data as [|q qs]; [discriminate|].
    mstep H E1 x1 s1.
    destruct (negb (Nat.eqb (List.length (source_db_ids pl)) 0)
              && negb (existsb (pystr_eqb db) (source_db_ids pl))).
    + drop_ret H. exists 0%Z.
      eapply unit_eff_of_eff with (c := 0%Z); eauto.
      eapply set_current_db_neutral; eauto.
    + mstep H E2 x2 s2. mstep H E3 x3 s3. mstep H E4 st4 s4. drop_get E4.
      mstep H E5 total s5. apply lift_result_inv in E5 as [_ ->].
      mstep H E6 x6 s6. mstep H E7 st7 s7. drop_get E7.
      mstep H E8 x8 s8. mstep H E9 st9 s9. drop_get E9.
      assert (H3 : exists d, eff k 0 0 d 0 d s2 s3).
      { destruct (max_question_length_per_prompt cfg); [discriminate|].
        eapply batches_eff; eauto. }
      destruct H3 as [d H3]. exists d.
      assert (H03 : eff k 0 0 d 0 d s0 s3).
      { eapply neutral_then; [eapply set_current_db_neutral; eauto|].
        eapply neutral_then; [eapply set_db_response_json_neutral; eauto|].
        exact H3. }
      assert (H6 : neutral k s3 s6).
      { eapply on_current_add_stats_neutral with (3 := E6);
          [nodup_keys|not_counter_key Hk]. }
      assert (H06 : eff k 0 0 d 0 d s0 s6) by (eapply then_neutral; eauto).
      assert (Hc6 : tracks k (current_stats s6) d).
      { destruct H06 as (_ & _ & Hc & _). specialize (Hc 0%Z Hc0).
        now rewrite Z.add_0_l in Hc. }
      destruct (tracks_item_delta k _ _ Hc6) as (Hnd6 & Hd6 & Hcnt6).
      pose proof (on_pipeline_add_stats_eff k _ _ _ _ _ Hnd6 Hd6 E8) as H8.
      assert (Hc8 : current_stats s8 = current_stats s6).
      { unfold on_pipeline in E8.
        destruct (add_stats (get_stats (current_stats s6)) (pipeline_stats s6));
          [|discriminate].
        inversion E8; subst. reflexivity. }
      pose proof (write_unit_stats_eff k _ _ _ _ _ H) as H9.
      rewrite Hc8, Hcnt6 in H9.
      eapply unit_eff_of_eff with (c := d); eauto.
      pose proof (eff_trans _ _ _ _ _ _ _ _ _ _ _ _ _ _ H8 H9) as H89.
      pose proof (eff_trans _ _ _ _ _ _ _ _ _ _ _ _ _ _ H06 H89) as Hall.
      eapply eff_eq; [exact Hall|lia..].
Qed.

Lemma sources_eff (k : string) cfg w pl (fs : list source_file) :
  In k counter_keys ->
  forall st a st',
    tracked k (current_stats st) ->
    sources cfg w pl fs st = Returned a st' ->
    exists d, unit_eff k d st st'.
Proof.
  intros Hk. induction fs as [|f fs IH]; intros st a st' Hcur H; simpl in H.
  - drop_ret H. exists 0%Z. apply unit_eff_refl.
  - mstep H E1 x1 s1.
    destruct (process_source_eff k _ _ _ _ _ _ _ Hk Hcur E1) as [d1 H1].
    assert (Hcur1 : tracked k (current_stats s1)) by (now apply H1).
    destruct (IH _ _ _ Hcur1 H) as [d2 H2].
    exists (d1 + d2)%Z. eapply unit_eff_trans; eauto.
Qed.

Lemma process_pipeline_eff (k : string) cfg w pl st a st' :
  In k counter_keys ->
  tracked k (pipeline_stats st) ->
  tracked k (current_stats st) ->
  process_pipeline cfg w pl st = Returned a st' ->
  exists d, pipeline_eff k d st st'.
Proof.
  intros Hk Hpipe Hcur H. unfold process_pipeline in H.
  mstep H E0 x0 s0.
  destruct (reset_pipeline k _ _ _ E0) as (Hp0 & Ho & Hc & Hs & Ht).
  specialize (Hp0 Hpipe).
  destruct (question_files pl) as [fs|].
  - mstep H E1 x1 s1. mstep H E2 db s2. apply read_current_db_inv in E2 as ->.
    mstep H E3 st3 s3. drop_get E3. mstep H E4 x4 s4.
    assert (Hcur0 : tracked k (current_stats s0)) by (now rewrite Hc).
    destruct (sources_eff k _ _ _ _ Hk _ _ _ Hcur0 E1) as [d (U1 & U2 & U3 & U4 & U5)].
    exists d.
    assert (Hp1 : tracks k (pipeline_stats s1) d).
    { specialize (U2 0%Z Hp0). now rewrite Z.add_0_l in U2. }
    destruct (tracks_item_delta k _ _ Hp1) as (Hnd & Hd & _).
    pose proof (write_pipeline_stats_neutral k _ _ _ _ _ E4) as H4.
    pose proof (on_overall_add_stats_eff k _ _ _ _ _ Hnd Hd H) as H5.
    pose proof (neutral_then _ _ _ _ _ _ _ _ _ H4 H5) as (G1 & G2 & G3 & G4 & G5).
    unfold units, batches_done in *. rewrite Ho in U1. rewrite Hs in U4.
    rewrite Ht in U5.
    unfold pipeline_eff, units, batches_done. eff_split.
    + intros z Hz. apply G1. now apply U1.
    + intros _. exists (d + 0)%Z. apply G2. exact Hp1.
    + intros _. destruct (U3 Hcur0) as [c Hc1]. exists (c + 0)%Z. now apply G3.
    + rewrite G4, U4. lia.
    + rewrite G5, U5. lia.
  - drop_ret H. exists 0%Z.
    unfold pipeline_eff, units, batches_done. rewrite Ho, Hc, Hs, Ht.
    eff_split; intros; rewrite ?Z.add_0_r; auto.
    exists 0%Z. exact Hp0.
Qed.

Lemma pipelines_eff (k : string) cfg w (pls : list pipeline) :
  In k counter_keys ->
  forall st a st',
    tracked k (pipeline_stats st) ->
    tracked k (current_stats st) ->
    pipelines cfg w pls st = Returned a st' ->
    exists d, pipeline_eff k d st st'.
Proof.
  intros Hk. induction pls as [|pl pls IH]; intros st a st' Hp Hc H; simpl in H.
  - drop_ret H. exists 0%Z. apply pipeline_eff_refl.
  - mstep H E1 x1 s1.
    destruct (process_pipeline_eff k _ _ _ _ _ _ Hk Hp Hc E1) as [d1 H1].
    assert (Hp1 : tracked k (pipeline_stats s1)) by (now apply H1).
    assert (Hc1 : tracked k (current_stats s1)) by (now apply H1).
    destruct (IH _ _ _ Hp1 Hc1 H) as [d2 H2].
    exists (d1 + d2)%Z. eapply pipeline_eff_trans; eauto.
Qed.

Lemma tracks_Stats_init (k : string) (a b : pyval) :
  In k counter_keys ->
  tracks k (Stats_init [("model_origin"%string, a); ("model_name"%string, b)]) 0 /\
  tracks k (Stats_init []) 0.
Proof.
  intros Hk. simpl in Hk.
  destruct Hk as [<-|[<-|[<-|[]]]]; unfold tracks; simpl;
    repeat split; try reflexivity; nodup_keys.
Qed.

(** The ledger of the run, the unit ledgers written and the batches
    recorded agree on each of the three counters. *)
Lemma run_counter (k : string) cfg w a st :
  In k counter_keys ->
  run cfg w = Returned a st ->
  dict_get (full_stats (overall_stats st)) k = Some (VInt (units k st)) /\
  units k st = batches_done k st.
Proof.
  intros Hk H. unfold run, run_from in H.
  mstep H E1 x1 s1. mstep H E2 db s2. apply read_current_db_inv in E2 as ->.
  mstep H E3 st3 s3. drop_get E3.
  destruct (tracks_Stats_init k (VStr (model_origin cfg)) (VStr (model_name cfg)) Hk)
    as [Ho Hs].
  assert (Hp : tracked k (pipeline_stats (initial_state cfg))) by (exists 0%Z; exact Hs).
  assert (Hc : tracked k (current_stats (initial_state cfg))) by (exists 0%Z; exact Hs).
  destruct (pipelines_eff k _ _ _ Hk _ _ _ Hp Hc E1) as [d (P1 & _ & _ & P4 & P5)].
  specialize (P1 0%Z Ho). rewrite Z.add_0_l in P1.
  destruct (write_overall_stats_neutral k _ _ _ _ _ H) as (G1 & _ & _ & G4 & G5).
  specialize (G1 d P1). rewrite Z.add_0_r in G1.
  change (units k (initial_state cfg)) with 0%Z in P4.
  change (batches_done k (initial_state cfg)) with 0%Z in P5.
  assert (Hu : units k st = d) by lia.
  assert (Hb : batches_done k st = d) by lia.
  rewrite Hu, Hb. split; [apply G1|reflexivity].
Qed.

Lemma sum_responses (l : list (dict pyval)) :
  sum_Z (map responses l)
  = sum_Z (map (fun k => sum_Z (map (fun d => counter d k) l)) counter_keys).
Proof.
  induction l as [|d l IH]; [reflexivity|].
  unfold responses, counter_keys, sum_Z in *. cbn [map fold_right] in *. lia.
Qed.

Lemma sum_batch_responses (l : list batch_record) :
  sum_Z (map batch_responses l)
  = sum_Z (map (fun k => sum_Z (map (fun b => kind_count k (batch_attempts b)) l))
             counter_keys).
Proof.
  induction l as [|b l IH]; [reflexivity|].
  unfold batch_responses, counter_keys, sum_Z in *. cbn [map fold_right] in *. lia.
Qed.

(** C5.  When a run completes, the sum of [success_response],
    [error_response] and [corrected_response] in the ledger of the run is
    the sum of these counters over the source-unit ledgers written at the
    completion of their unit, and the sum of what the attempts of all prompt
    batches that were accepted or skipped have counted; each of the three
    counters is an integer and satisfies the same two equations by itself. *)
Theorem ledger_sum_invariant :
  forall (cfg : settings) (w : world) (st : run_state),
    run cfg w = Returned tt st ->
    responses (full_stats (overall_stats st))
    = sum_Z (map responses (unit_ledgers (sink st))) /\
    sum_Z (map responses (unit_ledgers (sink st)))
    = sum_Z (map batch_responses (trace st)) /\
    (forall k, In k counter_keys ->
       exists z,
         dict_get (full_stats (overall_stats st)) k = Some (VInt z) /\
         z = sum_Z (map (fun d => counter d k) (unit_ledgers (sink st))) /\
         z = sum_Z (map (fun b => kind_count k (batch_attempts b)) (trace st))).
Proof.
  intros cfg w st H.
  assert (Hkeys : forall k, In k counter_keys ->
            dict_get (full_stats (overall_stats st)) k = Some (VInt (units k st)) /\
            units k st = batches_done k st)
    by (intros k Hk; eapply run_counter; eauto).
  assert (H1 := Hkeys "success_response"%string ltac:(simpl; auto)).
  assert (H2 := Hkeys "error_response"%string ltac:(simpl; auto)).
  assert (H3 := Hkeys "corrected_response"%string ltac:(simpl; auto)).
  destruct H1 as [O1 B1], H2 as [O2 B2], H3 as [O3 B3].
  unfold units, batches_done in *.
  split; [|split].
  - rewrite sum_responses. unfold responses, counter_keys, counter.
    cbn [map sum_Z fold_right]. rewrite O1, O2, O3. reflexivity.
  - rewrite sum_responses, sum_batch_responses. unfold counter_keys.
    cbn [map sum_Z fold_right]. rewrite B1, B2, B3. reflexivity.
  - intros k Hk. destruct (Hkeys k Hk) as [Ok Bk]. unfold units, batches_done in *.
    eexists. split; [exact Ok|]. split; [reflexivity|exact Bk].
Qed.

(** ** Two runs *)

(** C3.  [max_fail_exit] ends the run and writes nothing.  In the run below
    (one attempt per batch, ceiling one) the first batch is accepted, the
    second is skipped and the call for the third fails: the run exits with
    status 1 while the ledger of the source unit holds three requests, a
    success, an error response and the unexpected error, and the ledger of
    the pipeline holds a skipped prompt; no ledger and no skip audit has
    reached the sink. *)
Theorem max_fail_exit_flushes_nothing :
  (forall (error : string) (st : run_state),
     @max_fail_exit unit error st = Raised (SystemExit 1) st) /\
  exists st,
    run (example_settings 1 1) failing_world = Raised (SystemExit 1) st /\
    map (dict_get (full_stats (current_stats st)))
      ["request"; "success_response"; "error_response"; "unexpected_error"]%string
    = [Some (VInt 3); Some (VInt 1); Some (VInt 1); Some (VInt 1)] /\
    List.length (skipped_db_prompts (pipeline_stats st)) = 1 /\
    List.length (trace st) = 2 /\
    filter is_stats_event (sink st) = [].
Proof.
  split; [reflexivity|].
  eexists. split; [vm_compute; reflexivity|]. repeat split.
Qed.

Lemma ledger_sum_invariant_witness :
  let st := final_state (run (example_settings 3 2) recovering_world) in
  run (example_settings 3 2) recovering_world = Returned tt st /\
  responses (full_stats (overall_stats st)) = 4%Z /\
  sum_Z (map responses (unit_ledgers (sink st))) = 4%Z /\
  sum_Z (map batch_responses (trace st)) = 4%Z.
Proof.
  intros st.
  assert (Hrun : run (example_settings 3 2) recovering_world = Returned tt st)
    by (vm_compute; reflexivity).
  destruct (ledger_sum_invariant _ _ _ Hrun) as (H1 & H2 & _).
  split; [exact Hrun|]. rewrite <- H2, <- H1.
  repeat split; vm_compute; reflexivity.
Defined.

(* ================================================================== *)
(** * Further properties *)
(* ================================================================== *)

(** ** The field-set check *)

Lemma pystr_eqb_eq (a b : pystr) : pystr_eqb a b = true <-> a = b.
Proof.
  revert b. induction a as [|x a IH]; intros [|y b]; simpl; split; intros H;
    try discriminate; try reflexivity.
  - apply andb_true_iff in H as [Hx Hab]. apply N.eqb_eq in Hx. apply IH in Hab.
    now subst.
  - inversion H; subst. rewrite N.eqb_refl. simpl. now apply IH.
Qed.

Lemma existsb_pystr_In (x : pystr) (l : list pystr) :
  existsb (pystr_eqb x) l = true <-> In x l.
Proof.
  rewrite existsb_exists. split.
  - intros [y [Hin Hy]]. apply pystr_eqb_eq in Hy. now subst.
  - intros Hin. exists x. split; [exact Hin|now apply pystr_eqb_eq].
Qed.

Lemma field_missing_false (keys fields : list pystr) :
  field_missing keys fields = false <-> incl fields keys.
Proof.
  unfold field_missing. split.
  - intros H field Hin. apply existsb_pystr_In.
    destruct (existsb (pystr_eqb field) keys) eqn:E; [reflexivity|].
    assert (Ht : existsb (fun f => negb (existsb (pystr_eqb f) keys)) fields = true).
    { apply existsb_exists. exists field. split; [exact Hin|now rewrite E]. }
    rewrite Ht in H. discriminate.
  - intros H. destruct (existsb _ fields) eqn:E; [|reflexivity].
    apply existsb_exists in E as [field [Hin Hf]].
    apply H in Hin. apply existsb_pystr_In in Hin. rewrite Hin in Hf. discriminate.
Qed.

(** X1.  On a list of records with distinct keys and a list of required
    fields without repetition, [check_fields] returns, and it returns
    [True] exactly when the key set of every record is the set of required
    fields: a missing field and an extra key both make it return [False]. *)
Theorem check_fields_exact :
  forall (l : list json) (fields : list pystr),
    NoDup fields ->
    Forall (fun r => is_record r = true /\ NoDup (record_keys r)) l ->
    exists b,
      check_fields (JList l) fields = Ok b /\
      (b = true <-> Forall (same_keys fields) l).
Proof.
  intros l fields Hnd Hall. unfold check_fields. simpl.
  induction Hall as [|r l [Hr Hk] Hall IH]; simpl.
  - exists true. split; [reflexivity|]. split; auto.
  - destruct r as [| | | | | |items]; try discriminate. simpl in Hk.
    destruct (Nat.eqb (List.length (map fst items)) (List.length fields)) eqn:El; simpl.
    + apply Nat.eqb_eq in El.
      destruct (field_missing (map fst items) fields) eqn:Em.
      * exists false. split; [reflexivity|]. split; [discriminate|].
        intros H. inversion H as [|? ? Hs _]; subst.
        assert (Hi : incl fields (map fst items)) by (intros f Hf; now apply Hs).
        apply field_missing_false in Hi. congruence.
      * apply field_missing_false in Em.
        destruct IH as [b [Hb Hiff]]. exists b. split; [exact Hb|].
        rewrite Hiff. split.
        -- intros H. constructor; [|exact H]. intros key. simpl. split.
           ++ apply (NoDup_length_incl Hnd); [lia|exact Em].
           ++ apply Em.
        -- intros H. now inversion H.
    + apply Nat.eqb_neq in El.
      exists false. split; [reflexivity|]. split; [discriminate|].
      intros H. inversion H as [|? ? Hs _]; subst. exfalso. apply El.
      apply Nat.le_antisymm; apply NoDup_incl_length; auto;
        intros key Hin; now apply Hs.
Qed.

Lemma check_fields_exact_witness :
  exists b,
    check_fields (JList [JDict [(py "x", JInt 1); (py "y", JInt 2)]; JDict [(py "x", JInt 1)]])
      [py "y"; py "x"] = Ok b /\
    (b = true <->
     Forall (same_keys [py "y"; py "x"])
       [JDict [(py "x", JInt 1); (py "y", JInt 2)]; JDict [(py "x", JInt 1)]]).
Proof.
  apply check_fields_exact; repeat constructor; simpl; intuition discriminate.
Defined.

(** ** The divider *)

Lemma str_repeat_char (c : N) (n : Z) :
  str_repeat [c] n = repeat c (Z.to_nat n).
Proof.
  unfold str_repeat. induction (Z.to_nat n) as [|k IH]; simpl; [reflexivity|].
  now rewrite IH.
Qed.

(** X2.  With a text and a one-character filler, [get_divider] returns the
    text between two spaces, with the filler before and after it; it never
    cuts the text.  The filler after the text is as long as the filler
    before it or one longer, and together they bring the line to [width]
    characters when the text and its two spaces fit in [width], and are
    empty when they do not. *)
Theorem get_divider_centers :
  forall (c x : N) (t : pystr) (width : Z),
    exists left right : nat,
      get_divider (Some (x :: t)) width [c]
      = repeat c left ++ [32%N] ++ (x :: t) ++ [32%N] ++ repeat c right /\
      left <= right <= left + 1 /\
      Z.of_nat (left + right)
      = Z.max 0 (width - Z.of_nat (List.length (x :: t) + 2)) /\
      Z.of_nat (List.length (get_divider (Some (x :: t)) width [c]))
      = Z.max width (Z.of_nat (List.length (x :: t) + 2)).
Proof.
  intros c x t width. unfold get_divider.
  set (text := [32%N] ++ (x :: t) ++ [32%N]).
  assert (Hlen : Z.of_nat (List.length text) = (Z.of_nat (List.length (x :: t) + 2))%Z).
  { unfold text. rewrite !length_app. simpl. lia. }
  set (n := Z.of_nat (List.length text)) in *.
  set (left := ((width - n) / 2)%Z).
  set (right := (width - n - left)%Z).
  assert (Hdiv : (2 * left <= width - n < 2 * left + 2)%Z).
  { unfold left. pose proof (Z.div_mod (width - n) 2 ltac:(lia)).
    pose proof (Z.mod_pos_bound (width - n) 2 ltac:(lia)). lia. }
  exists (Z.to_nat left), (Z.to_nat right).
  rewrite !str_repeat_char. split; [|split; [|split]].
  - unfold text. now rewrite <- !app_assoc.
  - unfold right. lia.
  - rewrite <- Hlen. unfold right. lia.
  - rewrite !length_app, !repeat_length. fold n. rewrite <- Hlen.
    unfold right. lia.
Qed.

(** Without a text the divider is the filler, [width] times. *)
Lemma get_divider_plain (c : N) (width : Z) :
  get_divider None width [c] = repeat c (Z.to_nat width) /\
  get_divider (Some []) width [c] = repeat c (Z.to_nat width).
Proof.
  unfold get_divider. now rewrite str_repeat_char.
Qed.

(** ** The repair routine inserts commas only *)

Lemma commas_inserted_refl (a : pystr) : commas_inserted a a.
Proof. induction a; constructor; auto. Qed.

Lemma commas_inserted_trans (a b c : pystr) :
  commas_inserted a b -> commas_inserted b c -> commas_inserted a c.
Proof.
  intros Hab Hbc. revert a Hab.
  induction Hbc as [|x b c Hbc IH|b c Hbc IH]; intros a Hab.
  - exact Hab.
  - inversion Hab; subst.
    + constructor. now apply IH.
    + constructor. now apply IH.
  - constructor. now apply IH.
Qed.

Lemma commas_inserted_at (n : nat) (a : pystr) :
  commas_inserted a (firstn n a ++ [ch ","] ++ skipn n a).
Proof.
  revert a. induction n as [|n IH]; intros a; simpl.
  - constructor. apply commas_inserted_refl.
  - destruct a as [|c a]; simpl.
    + constructor. constructor.
    + constructor. apply IH.
Qed.

Lemma commas_inserted_length (a b : pystr) :
  commas_inserted a b -> List.length a <= List.length b.
Proof. induction 1; simpl; lia. Qed.

Lemma length_insert_comma (n : nat) (a : pystr) :
  List.length (firstn n a ++ [ch ","] ++ skipn n a) = S (List.length a).
Proof.
  pose proof (f_equal (@List.length N) (firstn_skipn n a)) as E.
  rewrite !length_app in *. simpl. lia.
Qed.

(** X3.  When [fix_missing_comma] reports a repair, the value it returns
    is the decoding of a text that is the given text with commas inserted:
    nothing is deleted, replaced or moved, and fewer commas were inserted
    than calls were allowed.  When it reports no repair, the error type is
    [invalid_escape] or [json_decode]. *)
Theorem fix_missing_comma_inserts_commas :
  forall (depth : nat) (content : pystr) (r : fix_result),
    fix_missing_comma depth content = Ok r ->
    match r with
    | Fixed v =>
        exists content',
          commas_inserted content content' /\
          json_loads content' = Ok v /\
          List.length content' < List.length content + depth
    | NotFixed error_type =>
        error_type = "invalid_escape"%string \/ error_type = "json_decode"%string
    end.
Proof.
  induction depth as [|depth IH]; intros content r H; [discriminate|].
  cbn [fix_missing_comma] in H.
  destruct (json_loads content) as [v|e] eqn:El.
  - inversion H; subst. exists content.
    split; [apply commas_inserted_refl|]. split; [exact El|lia].
  - destruct e as [kind pos| | | | | | | | |]; try discriminate.
    destruct (str_in "Expecting ',' delimiter" (errmsg kind)).
    + match type of H with rbind ?c _ = _ => destruct c as [moved|]; [|discriminate] end.
      cbn [rbind] in H. apply IH in H. destruct r as [v|t]; [|exact H].
      destruct H as [content' [Hc [Hl Hlen]]]. exists content'.
      split; [|split; [exact Hl|]].
      * eapply commas_inserted_trans; [apply commas_inserted_at|exact Hc].
      * rewrite length_insert_comma in Hlen. lia.
    + destruct (str_in "Invalid" (errmsg kind) && str_in "escape" (errmsg kind));
        inversion H; subst; auto.
Qed.

Lemma fix_missing_comma_inserts_commas_witness :
  exists content',
    commas_inserted (py "[1 2 3]") content' /\
    json_loads content' = Ok (JList [JInt 1; JInt 2; JInt 3]) /\
    List.length content' < List.length (py "[1 2 3]") + 5.
Proof.
  apply (fix_missing_comma_inserts_commas 5 (py "[1 2 3]")
           (Fixed (JList [JInt 1; JInt 2; JInt 3]))).
  vm_compute. reflexivity.
Defined.

Lemma fix_missing_comma_types (depth : nat) :
  forall (content : pystr) (error_type : string),
    fix_missing_comma depth content = Ok (NotFixed error_type) ->
    error_type = "invalid_escape"%string \/ error_type = "json_decode"%string.
Proof.
  induction depth as [|depth IH]; intros content t H; [discriminate|].
  cbn [fix_missing_comma] in H.
  destruct (json_loads content) as [v|e]; [discriminate|].
  destruct e as [kind pos| | | | | | | | |]; try discriminate.
  destruct (str_in "Expecting ',' delimiter" (errmsg kind)).
  - match type of H with rbind ?c _ = _ => destruct c as [moved|]; [|discriminate] end.
    cbn [rbind] in H. eapply IH; eauto.
  - destruct (str_in "Invalid" (errmsg kind) && str_in "escape" (errmsg kind));
      inversion H; subst; auto.
Qed.

(** ** What [validate_json_response] returns *)

(** X4.  When [validate_json_response] returns, either the text decoded,
    the value is the decoded one with [False] and the error set is
    untouched, or the value is [(None, None)] and one flag was set, which
    is [invalid_escape] or [json_decode].  A decoding error other than a
    missing comma is never repaired: the escape errors of the decoder set
    [invalid_escape], every other error sets [json_decode]. *)
Theorem validate_json_response_outcomes :
  forall (depth : nat) (text : pystr) (errors errors' : errors_t) (v : json)
         (fixed : option bool),
    validate_json_response depth text errors = Returned (v, fixed) errors' ->
    (fixed = Some false /\ errors' = errors /\ json_loads text = Ok v) \/
    (v = JNull /\ fixed = None /\
     (errors' = dict_set errors "invalid_escape" true \/
      errors' = dict_set errors "json_decode" true) /\
     exists kind pos,
       json_loads text = Err (JSONDecodeError kind pos) /\
       (kind <> ExpectingComma -> errors' = dict_set errors (decode_flag kind) true)).
Proof.
  intros depth text errors errors' v fixed H. unfold validate_json_response in H.
  destruct (json_loads text) as [j|e] eqn:El.
  - inversion H; subst. left. auto.
  - destruct e as [kind pos| | | | | | | | |]; try discriminate.
    right.
    destruct kind; cbn [errmsg] in H;
      match type of H with
      | context [str_in ?a ?b] =>
          let x := eval vm_compute in (str_in a b) in
          change (str_in a b) with x in H
      end; cbn [andb] in H.
    2:{ destruct (fix_missing_comma depth text) as [[fr|et]|ex] eqn:Ef;
          try discriminate.
        inversion H; subst.
        pose proof (fix_missing_comma_types depth text et Ef) as Ht.
        split; [reflexivity|]. split; [reflexivity|]. split.
        - destruct Ht as [-> | ->]; auto.
        - eexists; eexists. split; [reflexivity|]. intros Hne. contradiction. }
    all: repeat match type of H with
         | context [str_in ?a ?b] =>
             let x := eval vm_compute in (str_in a b) in
             change (str_in a b) with x in H
         end; cbn [andb] in H;
      inversion H; subst; split; [reflexivity|]; split; [reflexivity|];
      (split; [auto|]); eexists; eexists; (split; [reflexivity|]);
      intros _; reflexivity.
Qed.

Lemma validate_json_response_outcomes_witness :
  (Some false = Some false /\ DEFAULT_ERRORS = DEFAULT_ERRORS /\
   json_loads (py "[1, 2]") = Ok (JList [JInt 1; JInt 2])) \/
  (JList [JInt 1; JInt 2] = JNull /\ Some false = None /\
   (DEFAULT_ERRORS = dict_set DEFAULT_ERRORS "invalid_escape" true \/
    DEFAULT_ERRORS = dict_set DEFAULT_ERRORS "json_decode" true) /\
   exists kind pos,
     json_loads (py "[1, 2]") = Err (JSONDecodeError kind pos) /\
     (kind <> ExpectingComma ->
      DEFAULT_ERRORS = dict_set DEFAULT_ERRORS (decode_flag kind) true)).
Proof.
  apply (validate_json_response_outcomes 5 (py "[1, 2]") DEFAULT_ERRORS DEFAULT_ERRORS).
  vm_compute. reflexivity.
Defined.

(** ** The classifier on what [generate] returns *)

Lemma google_finish_reason_values (raw : string) :
  google_finish_reason raw = "RECITATION"%string \/
  google_finish_reason raw = "MAX_TOKENS"%string \/
  google_finish_reason raw = ""%string.
Proof.
  unfold google_finish_reason.
  destruct (String.eqb (upper raw) "4" || String.eqb (upper raw) "RECITATION"); auto.
  destruct (String.eqb (upper raw) "2" || String.eqb (upper raw) "MAX_TOKENS"); auto.
Qed.

(** X5.  On a dictionary that [CustomModel.generate] returned, whatever the
    origin and the provider's reply, the classifier returns normally and
    never sets [max_token]: it sets [empty_output] for an empty text,
    [recitation] when the provider reported a recitation stop (Google
    only), and passes the response otherwise. *)
Theorem check_special_errors_after_generate :
  forall (origin : string) (p : provider_outcome) (rd : response_dict_t)
         (errors : errors_t),
    generate origin p = inl rd ->
    check_special_errors (response rd) (finish_reason rd) errors
    = match response rd with
      | [] => Returned false (dict_set errors "empty_output" true)
      | _ :: _ =>
          if match finish_reason rd with
             | Some r => String.eqb r "RECITATION"
             | None => false
             end
          then Returned false (dict_set errors "recitation" true)
          else Returned true errors
      end /\
    (finish_reason rd = Some "RECITATION"%string -> origin = "google"%string).
Proof.
  intros origin p rd errors H. unfold generate in H.
  destruct (String.eqb origin "openai") eqn:Eo.
  - destruct p as [r|m]; inversion H; subst; clear H. simpl. split.
    + unfold check_special_errors. simpl. destruct (reply_text r); reflexivity.
    + discriminate.
  - destruct (String.eqb origin "google") eqn:Eg; [|discriminate].
    destruct p as [r|m]; inversion H; subst; clear H. simpl. split.
    + unfold check_special_errors. simpl.
      destruct (reply_text r) as [|c t]; [reflexivity|]. simpl.
      destruct (google_finish_reason_values (reply_finish_reason r)) as [E|[E|E]];
        rewrite E; reflexivity.
    + intros _. now apply String.eqb_eq.
Qed.

Lemma check_special_errors_after_generate_witness :
  check_special_errors (py "x") (Some "MAX_TOKENS"%string) DEFAULT_ERRORS
  = Returned true DEFAULT_ERRORS.
Proof.
  exact (proj1 (check_special_errors_after_generate "google"
                  (Replied (mkReply (py "x") VNone VNone (S754_zero false) "max_tokens"))
                  (mkResponse (py "x") VNone VNone (S754_zero false)
                     (Some "MAX_TOKENS"%string))
                  DEFAULT_ERRORS eq_refl)).
Defined.

(** ** The bracket slice of a response *)

Lemma find_from_spec (c : N) (s : pystr) (i : Z) :
  (~ In c s /\ find_from c i s = (-1)%Z) \/
  (exists pre post, s = pre ++ c :: post /\ ~ In c pre /\
                    find_from c i s = (i + Z.of_nat (List.length pre))%Z).
Proof.
  revert i. induction s as [|x s IH]; intros i; simpl.
  - left. auto.
  - destruct (N.eqb x c) eqn:E.
    + apply N.eqb_eq in E. subst x. right. exists [], s. simpl.
      repeat split; auto. lia.
    + apply N.eqb_neq in E. destruct (IH (i + 1)%Z) as [[Hn Hf]|[pre [post [Hs [Hn Hf]]]]].
      * left. split; [|exact Hf]. intros [H|H]; auto.
      * right. exists (x :: pre), post. subst s. simpl. repeat split.
        -- intros [H|H]; auto.
        -- rewrite Hf. lia.
Qed.

Lemma rfind_from_spec (c : N) (s : pystr) (i last : Z) :
  (~ In c s /\ rfind_from c i s last = last) \/
  (exists pre post, s = pre ++ c :: post /\ ~ In c post /\
                    rfind_from c i s last = (i + Z.of_nat (List.length pre))%Z).
Proof.
  revert i last. induction s as [|x s IH]; intros i last; simpl.
  - left. auto.
  - destruct (IH (i + 1)%Z (if N.eqb x c then i else last))
      as [[Hn Hf]|[pre [post [Hs [Hn Hf]]]]].
    + destruct (N.eqb x c) eqn:E.
      * apply N.eqb_eq in E. subst x. right. exists [], s. simpl.
        repeat split; auto. rewrite Hf. lia.
      * apply N.eqb_neq in E. left. split; [|exact Hf]. intros [H|H]; auto.
    + right. exists (x :: pre), post. subst s. simpl. repeat split; auto.
      rewrite Hf. lia.
Qed.

Lemma py_slice_middle (pre mid post : pystr) :
  py_slice (pre ++ mid ++ post) (Z.of_nat (List.length pre))
           (Z.of_nat (List.length pre + List.length mid)) = mid.
Proof.
  unfold py_slice. rewrite !length_app.
  set (a := List.length pre). set (m := List.length mid). set (p := List.length post).
  replace (Z.of_nat a <? 0)%Z with false by (symmetry; apply Z.ltb_ge; lia).
  replace (Z.of_nat (a + m) <? 0)%Z with false by (symmetry; apply Z.ltb_ge; lia).
  replace (Z.min (Z.of_nat (a + (m + p))) (Z.max 0 (Z.of_nat a))) with (Z.of_nat a) by lia.
  replace (Z.min (Z.of_nat (a + (m + p))) (Z.max 0 (Z.of_nat (a + m))))
    with (Z.of_nat (a + m)) by lia.
  replace (Z.to_nat (Z.of_nat (a + m) - Z.of_nat a)) with m by lia.
  rewrite Nat2Z.id. unfold a. rewrite skipn_app, skipn_all, Nat.sub_diag. simpl.
  unfold m. rewrite firstn_app, firstn_all, Nat.sub_diag. simpl. apply app_nil_r.
Qed.

Lemma py_slice_empty (s : pystr) (start stop : Z) :
  (0 <= stop <= start)%Z -> py_slice s start stop = [].
Proof.
  intros H. unfold py_slice.
  replace (start <? 0)%Z with false by (symmetry; apply Z.ltb_ge; lia).
  replace (stop <? 0)%Z with false by (symmetry; apply Z.ltb_ge; lia).
  match goal with |- firstn (Z.to_nat ?d) _ = [] =>
    replace (Z.to_nat d) with 0 by lia end; reflexivity.
Qed.

(** The slice between the first opening and the last closing bracket. *)
Lemma json_bracket_middle (pre mid post : pystr) :
  ~ In (ch "[") pre -> ~ In (ch "]") post ->
  json_bracket (pre ++ [ch "["] ++ mid ++ [ch "]"] ++ post)
  = [ch "["] ++ mid ++ [ch "]"].
Proof.
  intros Hpre Hpost. unfold json_bracket.
  set (s := pre ++ [ch "["] ++ mid ++ [ch "]"] ++ post).
  assert (Hf : find_from (ch "[") 0 s = Z.of_nat (List.length pre)).
  { destruct (find_from_spec (ch "[") s 0) as [[Hn _]|[pre' [post' [Hs [Hn Hf]]]]].
    - exfalso. apply Hn. unfold s. rewrite !in_app_iff. simpl. tauto.
    - rewrite Hf. simpl. f_equal. unfold s in Hs.
      apply app_eq_app in Hs. destruct Hs as [l [[H1 H2]|[H1 H2]]].
      + destruct l as [|x l]; [rewrite app_nil_r in H1; now subst|].
        simpl in H2. inversion H2; subst. exfalso. apply Hpre.
        rewrite in_app_iff. simpl. tauto.
      + destruct l as [|x l]; [rewrite app_nil_r in H1; now subst|].
        simpl in H2. inversion H2; subst. exfalso. apply Hn.
        rewrite in_app_iff. simpl. tauto. }
  assert (Hr : rfind_from (ch "]") 0 s (-1)
               = Z.of_nat (List.length pre + S (List.length mid))).
  { destruct (rfind_from_spec (ch "]") s 0 (-1)) as [[Hn _]|[pre' [post' [Hs [Hn Hr]]]]].
    - exfalso. apply Hn. unfold s. rewrite !in_app_iff. simpl. tauto.
    - rewrite Hr. simpl. f_equal. unfold s in Hs.
      change (pre ++ [ch "["] ++ mid ++ [ch "]"] ++ post)
        with (pre ++ (ch "[" :: mid) ++ ch "]" :: post) in Hs.
      rewrite app_assoc in Hs.
      apply app_eq_app in Hs. destruct Hs as [l [[H1 H2]|[H1 H2]]].
      + destruct l as [|x l].
        * rewrite app_nil_r in H1. rewrite <- H1, length_app. simpl. reflexivity.
        * simpl in H2. inversion H2; subst. exfalso. apply Hn.
          rewrite in_app_iff. simpl. tauto.
      + destruct l as [|x l].
        * rewrite app_nil_r in H1. rewrite H1, length_app. simpl. reflexivity.
        * simpl in H2. inversion H2; subst. exfalso. apply Hpost.
          rewrite in_app_iff. simpl. tauto. }
  rewrite Hf, Hr.
  set (M := [ch "["] ++ mid ++ [ch "]"]).
  replace (Z.of_nat (List.length pre + S (List.length mid)) + 1)%Z
    with (Z.of_nat (List.length pre + List.length M))
    by (unfold M; rewrite !length_app; simpl; lia).
  replace s with (pre ++ M ++ post)
    by (unfold s, M; simpl; now rewrite <- app_assoc).
  apply py_slice_middle.
Qed.

(** X6.  The slice that [run] hands to the decoder is the text from the
    first opening bracket to the last closing bracket, both included:
    whatever precedes the first [[] and follows the last []] is dropped,
    and nothing between them is touched.  A text without a closing
    bracket gives the empty slice. *)
Theorem json_bracket_extracts :
  forall (text : pystr),
    (~ In (ch "]") text -> json_bracket text = []) /\
    (forall pre mid post : pystr,
        text = pre ++ [ch "["] ++ mid ++ [ch "]"] ++ post ->
        ~ In (ch "[") pre -> ~ In (ch "]") post ->
        json_bracket text = [ch "["] ++ mid ++ [ch "]"]).
Proof.
  intros text. split.
  - intros Hn. unfold json_bracket.
    destruct (rfind_from_spec (ch "]") text 0 (-1)) as [[_ Hr]|[pre [post [Hs _]]]].
    + rewrite Hr.
      destruct (find_from_spec (ch "[") text 0) as [[_ Hf]|[pre [post [_ [_ Hf]]]]];
        rewrite Hf.
      * unfold py_slice. simpl.
        match goal with |- firstn (Z.to_nat ?d) _ = [] =>
          replace (Z.to_nat d) with 0 by lia end. reflexivity.
      * apply py_slice_empty; lia.
    + exfalso. apply Hn. rewrite Hs. rewrite in_app_iff. simpl. tauto.
  - intros pre mid post -> Hpre Hpost. now apply json_bracket_middle.
Qed.

Lemma json_bracket_extracts_witness :
  json_bracket (py "Here: " ++ [ch "["] ++ py "1, 2" ++ [ch "]"] ++ py " done.")
  = [ch "["] ++ py "1, 2" ++ [ch "]"].
Proof.
  apply (proj2 (json_bracket_extracts _) (py "Here: ") (py "1, 2") (py " done."));
    [reflexivity|vm_compute; intuition discriminate..].
Defined.

(** The three shapes of the slice. *)
Lemma json_bracket_shape (s : pystr) :
  json_bracket s = [] \/ json_bracket s = [ch "]"] \/
  exists mid, json_bracket s = [ch "["] ++ mid ++ [ch "]"].
Proof.
  destruct (rfind_from_spec (ch "]") s 0 (-1)) as [[Hn Hr]|[pre' [post' [Hs [Hn Hr]]]]].
  - left. unfold json_bracket. rewrite Hr.
    destruct (find_from_spec (ch "[") s 0) as [[_ Hf]|[pre [post [_ [_ Hf]]]]];
      rewrite Hf.
    + unfold py_slice. simpl.
      match goal with |- firstn (Z.to_nat ?d) _ = [] =>
        replace (Z.to_nat d) with 0 by lia end. reflexivity.
    + apply py_slice_empty; lia.
  - destruct (find_from_spec (ch "[") s 0) as [[Hnf Hf]|[pre [post [Hs' [Hnf Hf]]]]].
    + (* no opening bracket: the slice starts at the last character *)
      unfold json_bracket. rewrite Hf, Hr. unfold py_slice.
      rewrite Hs, length_app. simpl List.length.
      set (a := List.length pre'). set (p := List.length post').
      replace (-1 <? 0)%Z with true by reflexivity.
      replace (0 + Z.of_nat a + 1 <? 0)%Z with false by (symmetry; apply Z.ltb_ge; lia).
      replace (Z.min (Z.of_nat (a + S p)) (Z.max 0 (-1 + Z.of_nat (a + S p))))
        with (Z.of_nat (a + p)) by lia.
      replace (Z.min (Z.of_nat (a + S p)) (Z.max 0 (0 + Z.of_nat a + 1)))
        with (Z.of_nat (S a)) by lia.
      destruct post' as [|x post'].
      * right. left. subst p. simpl List.length. rewrite Nat.add_0_r.
        replace (Z.to_nat (Z.of_nat (S a) - Z.of_nat a)) with 1 by lia.
        rewrite Nat2Z.id. unfold a. rewrite skipn_app, skipn_all, Nat.sub_diag.
        reflexivity.
      * left. subst p. simpl List.length.
        replace (Z.to_nat (Z.of_nat (S a) - Z.of_nat (a + S (List.length post'))))
          with 0 by lia. reflexivity.
    + destruct (Nat.lt_ge_cases (List.length pre) (List.length pre')) as [Hlt|Hge].
      * right. right. rewrite Hs in Hs'.
        apply app_eq_app in Hs'. destruct Hs' as [l [[H1 H2]|[H1 H2]]].
        -- destruct l as [|x l].
           ++ rewrite app_nil_r in H1. subst pre'. lia.
           ++ simpl in H2. inversion H2. subst x post.
              exists l. rewrite Hs, H1. rewrite <- app_assoc.
              apply (json_bracket_middle pre l post'); auto.
        -- rewrite H1, length_app in Hlt. lia.
      * left. unfold json_bracket. rewrite Hf, Hr.
        assert (List.length pre <> List.length pre').
        { intros E. rewrite Hs in Hs'. apply app_eq_app in Hs'.
          destruct Hs' as [l [[H1 H2]|[H1 H2]]];
            (destruct l as [|x l];
             [simpl in H2; inversion H2
             |rewrite H1, length_app in E; simpl in E; lia]). }
        apply py_slice_empty; lia.
Qed.

Lemma array_loop_list (fuel : nat) :
  forall pos s racc v p r,
    array_loop fuel pos s racc = Scanned v p r -> exists l, v = JList l.
Proof.
  induction fuel as [|fuel IH]; intros pos s racc v p r H; [discriminate|].
  cbn [array_loop] in H.
  destruct (scan_once fuel pos s) as [v1 p1 r1| | |]; try discriminate.
  destruct (skip_ws p1 r1) as [p2 r2].
  destruct r2 as [|c r3]; [discriminate|].
  destruct (N.eqb c (ch "]")).
  - inversion H; subst. eauto.
  - destruct (N.eqb c (ch ",")); [|discriminate].
    destruct (skip_ws (S p2) r3) as [p4 r4]. eapply IH; eauto.
Qed.

Lemma json_loads_bracket_list (t : pystr) (v : json) :
  json_loads (ch "[" :: t) = Ok v -> exists l, v = JList l.
Proof.
  unfold json_loads. cbn [starts_with]. 
  change (N.eqb 65279 (ch "[")) with false. cbn [andb].
  change (skip_ws 0 (ch "[" :: t)) with (0, ch "[" :: t).
  set (fuel := 2 * List.length (ch "[" :: t) + 2).
  assert (Hfuel : exists f, fuel = S f) by (exists (fuel - 1); unfold fuel; simpl; lia).
  destruct Hfuel as [f ->]. cbn [scan_once].
  change (N.eqb (ch "[") 34) with false.
  change (N.eqb (ch "[") (ch "{")) with false.
  change (N.eqb (ch "[") (ch "[")) with true. cbv iota.
  destruct (skip_ws 1 t) as [p1 r1].
  intros H.
  assert (Hloop : forall x, match x with
                            | Scanned v0 p2 r2 =>
                                let (p3, r3) := skip_ws p2 r2 in
                                match r3 with
                                | [] => Ok v0
                                | _ :: _ => Err (JSONDecodeError ExtraData p3)
                                end
                            | Stop p => Err (JSONDecodeError ExpectingValue p)
                            | Fail e => Err e
                            | OutOfFuel => Err RecursionError
                            end = Ok v ->
                            exists p r, x = Scanned v p r).
  { intros [v0 p2 r2| | |] Hx; try discriminate.
    destruct (skip_ws p2 r2) as [p3 [|c r3]]; [|discriminate].
    inversion Hx; subst. eauto. }
  destruct r1 as [|c1 r2].
  - apply Hloop in H. destruct H as [p [r H]]. eapply array_loop_list; eauto.
  - destruct (N.eqb c1 (ch "]")).
    + destruct (skip_ws (S p1) r2) as [p [|c r]]; [|discriminate].
      inversion H; subst. eauto.
    + apply Hloop in H. destruct H as [p [r H]]. eapply array_loop_list; eauto.
Qed.

(** X7.  Whatever the response text, when its bracket slice decodes the
    decoded value is a list: a response whose JSON is an object, a string,
    a number or [null] is never taken as decoded records. *)
Theorem json_bracket_decodes_to_list :
  forall (response_text : pystr) (v : json),
    json_loads (json_bracket response_text) = Ok v -> exists l, v = JList l.
Proof.
  intros s v H.
  destruct (json_bracket_shape s) as [E|[E|[mid E]]]; rewrite E in H.
  - vm_compute in H. discriminate.
  - vm_compute in H. discriminate.
  - eapply json_loads_bracket_list. exact H.
Qed.

Lemma json_bracket_decodes_to_list_witness :
  exists l, JList [JInt 1; JInt 2] = JList l.
Proof.
  apply (json_bracket_decodes_to_list (py "Here: [1, 2] done.")).
  vm_compute. reflexivity.
Defined.

(** ** The question list of a source unit *)

Lemma list_slice_to_prefix {A : Type} (l : list A) (stop : Z) :
  exists rest, l = list_slice_to l stop ++ rest.
Proof.
  unfold list_slice_to. eexists. symmetry. apply firstn_skipn.
Qed.

Lemma list_slice_to_length {A : Type} (l : list A) (stop : Z) :
  (stop < Z.of_nat (List.length l))%Z ->
  Z.of_nat (List.length (list_slice_to l stop))
  = (if (stop <? 0)%Z then Z.max 0 (Z.of_nat (List.length l) + stop) else stop)%Z.
Proof.
  intros H. unfold list_slice_to. rewrite length_firstn.
  destruct (stop <? 0)%Z eqn:E;
    [apply Z.ltb_lt in E|apply Z.ltb_ge in E]; lia.
Qed.

(** X8.  What [prepare_questions] returns when it returns a list: the
    question file decoded to a non-empty list, the questions returned are
    questions of the file, a prefix of it when no shuffle is configured,
    and their number is that of the file for the limit [-1], the limit
    itself when it is positive and smaller, and for a limit below [-1]
    that many fewer than the file holds, which can be none at all.  The
    limit [0] never returns a list. *)
Theorem prepare_questions_bounds :
  forall (shuffle : list json -> list json) (file : option pystr)
         (seed limit : Z) (qs : list json),
    (forall l, Permutation l (shuffle l)) ->
    prepare_questions shuffle file seed limit = Ok (Some qs) ->
    exists text all,
      file = Some text /\ json_loads text = Ok (JList all) /\ all <> [] /\
      limit <> 0%Z /\
      (forall q, In q qs -> In q all) /\
      (seed = (-1)%Z -> exists rest, all = qs ++ rest) /\
      Z.of_nat (List.length qs)
      = (if (limit =? -1)%Z then Z.of_nat (List.length all)
         else if (limit <? 0)%Z then Z.max 0 (Z.of_nat (List.length all) + limit)
         else Z.min limit (Z.of_nat (List.length all)))%Z.
Proof.
  intros shuffle file seed limit qs Hperm H. unfold prepare_questions in H.
  destruct file as [text|]; [|discriminate].
  destruct (json_loads text) as [v|e] eqn:El.
  2:{ destruct e; discriminate. }
  destruct v as [| | | | |l|]; try discriminate.
  destruct l as [|q l]; [discriminate|].
  exists text, (q :: l). split; [reflexivity|]. split; [exact El|].
  split; [discriminate|].
  set (all := q :: l) in *.
  set (data := if (seed =? -1)%Z then all else shuffle all) in *.
  assert (Hdata : Permutation all data).
  { unfold data. destruct (seed =? -1)%Z; [apply Permutation_refl|apply Hperm]. }
  assert (Hlen : List.length data = List.length all)
    by (symmetry; now apply Permutation_length).
  assert (Hseed : seed = (-1)%Z -> data = all).
  { intros ->. reflexivity. }
  destruct (limit =? -1)%Z eqn:E1.
  { inversion H; subst qs. split; [apply Z.eqb_eq in E1; lia|].
    split; [intros x Hx; eapply Permutation_in; [apply Permutation_sym; exact Hdata|exact Hx]|].
    split; [intros Hs; exists []; rewrite app_nil_r; symmetry; auto|].
    now rewrite Hlen. }
  apply Z.eqb_neq in E1.
  destruct (limit =? 0)%Z eqn:E0; [discriminate|]. apply Z.eqb_neq in E0.
  split; [exact E0|].
  destruct (limit <? Z.of_nat (List.length data))%Z eqn:Elt.
  - apply Z.ltb_lt in Elt. inversion H; subst qs. split; [|split].
    + intros x Hx. eapply Permutation_in; [apply Permutation_sym; exact Hdata|].
      destruct (list_slice_to_prefix data limit) as [rest Hr].
      rewrite Hr. apply in_or_app. now left.
    + intros Hs. rewrite (Hseed Hs). apply list_slice_to_prefix.
    + rewrite list_slice_to_length by exact Elt. rewrite Hlen in *.
      destruct (limit <? 0)%Z eqn:En; [reflexivity|].
      apply Z.ltb_ge in En. lia.
  - apply Z.ltb_ge in Elt. inversion H; subst qs. split; [|split].
    + intros x Hx. eapply Permutation_in; [apply Permutation_sym; exact Hdata|exact Hx].
    + intros Hs. exists []. rewrite app_nil_r. symmetry. auto.
    + rewrite Hlen in *.
      replace (limit <? 0)%Z with false by (symmetry; apply Z.ltb_ge; lia). lia.
Qed.

Lemma prepare_questions_bounds_witness :
  exists text all,
    Some (py "[1, 2, 3]") = Some text /\ json_loads text = Ok (JList all) /\ all <> [] /\
    2%Z <> 0%Z /\
    (forall q, In q [JInt 1; JInt 2] -> In q all) /\
    ((-1)%Z = (-1)%Z -> exists rest, all = [JInt 1; JInt 2] ++ rest) /\
    Z.of_nat (List.length [JInt 1; JInt 2])
    = (if (2 =? -1)%Z then Z.of_nat (List.length all)
       else if (2 <? 0)%Z then Z.max 0 (Z.of_nat (List.length all) + 2)
       else Z.min 2 (Z.of_nat (List.length all)))%Z.
Proof.
  apply (prepare_questions_bounds (fun l => l) (Some (py "[1, 2, 3]")) (-1) 2).
  - intros l. apply Permutation_refl.
  - vm_compute. reflexivity.
Defined.

(** ** The defaults of a ledger *)

Lemma dict_del_get_same {V : Type} (d : dict V) (k : string) :
  NoDup (map fst d) -> dict_get (dict_del d k) k = None.
Proof.
  induction d as [|[k0 v0] d IH]; simpl; intros Hnd; auto.
  inversion Hnd as [|? ? Hnotin Hnd']; subst.
  destruct (String.eqb k0 k) eqn:E.
  - apply String.eqb_eq in E. subst k0. now apply dict_get_not_In.
  - simpl. rewrite E. auto.
Qed.

Lemma dict_del_get_other {V : Type} (d : dict V) (k k' : string) :
  k <> k' -> dict_get (dict_del d k) k' = dict_get d k'.
Proof.
  intros Hne. induction d as [|[k0 v0] d IH]; simpl; auto.
  destruct (String.eqb k0 k) eqn:E.
  - apply String.eqb_eq in E. subst k0.
    destruct (String.eqb k k') eqn:E'; auto.
    apply String.eqb_eq in E'. contradiction.
  - simpl. destruct (String.eqb k0 k'); auto.
Qed.

Lemma dict_del_keys_incl {V : Type} (d : dict V) (k x : string) :
  In x (map fst (dict_del d k)) -> In x (map fst d).
Proof.
  induction d as [|[k0 v0] d IH]; simpl; auto.
  destruct (String.eqb k0 k); simpl; intuition.
Qed.

Lemma dict_del_NoDup {V : Type} (d : dict V) (k : string) :
  NoDup (map fst d) -> NoDup (map fst (dict_del d k)).
Proof.
  induction d as [|[k0 v0] d IH]; simpl; intros Hnd; auto.
  inversion Hnd as [|? ? Hnotin Hnd']; subst.
  destruct (String.eqb k0 k); simpl; auto.
  constructor; auto. intros Hin. apply Hnotin. eapply dict_del_keys_incl; eauto.
Qed.

Lemma dict_set_keys_incl {V : Type} (d : dict V) (k x : string) (v : V) :
  In x (map fst (dict_set d k v)) -> x = k \/ In x (map fst d).
Proof.
  induction d as [|[k0 v0] d IH]; simpl.
  - intuition.
  - destruct (String.eqb k0 k) eqn:E; simpl.
    + apply String.eqb_eq in E. subst. intuition.
    + intuition.
Qed.

Lemma dict_set_NoDup {V : Type} (d : dict V) (k : string) (v : V) :
  NoDup (map fst d) -> NoDup (map fst (dict_set d k v)).
Proof.
  induction d as [|[k0 v0] d IH]; simpl; intros Hnd.
  - constructor; auto.
  - inversion Hnd as [|? ? Hnotin Hnd']; subst.
    destruct (String.eqb k0 k) eqn:E; simpl.
    + constructor; auto.
    + constructor; auto. intros Hin.
      apply dict_set_keys_incl in Hin. destruct Hin as [->|Hin]; auto.
      now rewrite String.eqb_refl in E.
Qed.

(** X9.  [update_default_stats] changes the defaults only: the running
    ledger, the messages and the skipped prompts stay as they are.  In the
    new defaults a key given with [None] is gone, a key given with a value
    holds that value, and every other key holds what it held; the ledger
    takes these defaults at the next [reset_stats]. *)
Theorem update_default_stats_lookup :
  forall (stats : dict pyval) (self self' : Stats),
    NoDup (map fst stats) ->
    NoDup (map fst (default_stats self)) ->
    update_default_stats stats self = Returned tt self' ->
    full_stats self' = full_stats self /\
    unexpected_errors self' = unexpected_errors self /\
    skipped_db_prompts self' = skipped_db_prompts self /\
    NoDup (map fst (default_stats self')) /\
    (forall k, dict_get (default_stats self') k
               = match dict_get stats k with
                 | Some VNone => None
                 | Some v => Some v
                 | None => dict_get (default_stats self) k
                 end) /\
    full_stats (final_state (reset_stats self')) = default_stats self'.
Proof.
  induction stats as [|[key value] rest IH]; intros self self' Hnd Hd H.
  - inversion H; subst. simpl. repeat split; auto.
  - inversion Hnd as [|? ? Hnotin Hnd']; subst.
    cbn [update_default_stats] in H. unfold bind in H.
    match type of H with
    | match ?c with _ => _ end = _ => destruct c as [[] self1|e self1] eqn:E1; [|discriminate]
    end.
    assert (H1 : full_stats self1 = full_stats self /\
                 unexpected_errors self1 = unexpected_errors self /\
                 skipped_db_prompts self1 = skipped_db_prompts self /\
                 NoDup (map fst (default_stats self1)) /\
                 dict_get (default_stats self1) key
                 = match value with VNone => None | v => Some v end /\
                 forall k, key <> k ->
                           dict_get (default_stats self1) k = dict_get (default_stats self) k).
    { destruct value;
        try (inversion E1; subst; simpl; repeat split; auto;
             [now apply dict_set_NoDup | apply dict_get_set_same
             |intros k Hk; now apply dict_get_set_other]).
      destruct (dict_contains (default_stats self) key); [|discriminate].
      inversion E1; subst; simpl; repeat split; auto.
      - now apply dict_del_NoDup.
      - now apply dict_del_get_same.
      - intros k Hk. now apply dict_del_get_other. }
    destruct H1 as [F1 [U1 [S1 [N1 [G1 O1]]]]].
    destruct (IH self1 self' Hnd' N1 H) as [F [U [S [N [G R]]]]].
    split; [congruence|]. split; [congruence|]. split; [congruence|].
    split; [exact N|]. split; [|exact R].
    intros k. rewrite G. simpl.
    destruct (String.eqb key k) eqn:E.
    + apply String.eqb_eq in E. subst k.
      rewrite (dict_get_not_In rest key Hnotin). rewrite G1.
      destruct value; reflexivity.
    + apply String.eqb_neq in E. destruct (dict_get rest k); auto.
Qed.

Lemma update_default_stats_lookup_witness :
  let self := Stats_init [] in
  let self' := set_default_stats self
                 (dict_set (dict_del (default_stats self) "response")
                    "retries" (VInt 0)) in
  full_stats self' = full_stats self /\
  unexpected_errors self' = unexpected_errors self /\
  skipped_db_prompts self' = skipped_db_prompts self /\
  NoDup (map fst (default_stats self')) /\
  (forall k, dict_get (default_stats self') k
             = match dict_get [("response"%string, VNone); ("retries"%string, VInt 0)] k with
               | Some VNone => None
               | Some v => Some v
               | None => dict_get (default_stats self) k
               end) /\
  full_stats (final_state (reset_stats self')) = default_stats self'.
Proof.
  apply (update_default_stats_lookup
           [("response"%string, VNone); ("retries"%string, VInt 0)] (Stats_init [])).
  - repeat constructor; simpl; intuition discriminate.
  - repeat constructor; simpl; intuition discriminate.
  - reflexivity.
Defined.

Lemma dict_update_get {V : Type} (e : dict V) :
  forall (d : dict V) (k : string),
    NoDup (map fst e) ->
    dict_get (dict_update d e) k
    = match dict_get e k with
      | Some v => Some v
      | None => dict_get d k
      end.
Proof.
  unfold dict_update.
  induction e as [|[k0 v0] e IH]; intros d k Hnd; simpl; auto.
  inversion Hnd as [|? ? Hnotin Hnd']; subst.
  rewrite IH by exact Hnd'.
  destruct (String.eqb k0 k) eqn:E.
  - apply String.eqb_eq in E. subst k0.
    rewrite (dict_get_not_In e k Hnotin). apply dict_get_set_same.
  - apply String.eqb_neq in E. destruct (dict_get e k); auto.
    now apply dict_get_set_other.
Qed.

(** X10.  A new ledger holds, under every key, the value given in
    [extra_stats] when there is one and the built-in zero otherwise; its
    defaults are the same dictionary, and it has no message and no skipped
    prompt. *)
Theorem Stats_init_lookup :
  forall (extra_stats : dict pyval) (k : string),
    NoDup (map fst extra_stats) ->
    dict_get (full_stats (Stats_init extra_stats)) k
    = match dict_get extra_stats k with
      | Some v => Some v
      | None => if existsb (String.eqb k) (map fst builtin_default)
                then Some (VInt 0) else None
      end /\
    default_stats (Stats_init extra_stats) = full_stats (Stats_init extra_stats) /\
    unexpected_errors (Stats_init extra_stats) = [] /\
    skipped_db_prompts (Stats_init extra_stats) = [].
Proof.
  intros extra k Hnd. unfold Stats_init. cbn [full_stats default_stats
    unexpected_errors skipped_db_prompts]. repeat split.
  rewrite dict_update_get by exact Hnd.
  destruct (dict_get extra k); [reflexivity|].
  unfold builtin_default. cbn [dict_get map fst existsb].
  repeat match goal with
  | |- context [String.eqb ?a k] =>
      rewrite (String.eqb_sym a k); destruct (String.eqb k a); cbn [orb]; [reflexivity|]
  end. reflexivity.
Qed.

Lemma Stats_init_lookup_witness :
  dict_get (full_stats (Stats_init [("model_name"%string, VStr "m")])) "request"
  = Some (VInt 0) /\
  default_stats (Stats_init [("model_name"%string, VStr "m")])
  = full_stats (Stats_init [("model_name"%string, VStr "m")]) /\
  unexpected_errors (Stats_init [("model_name"%string, VStr "m")]) = [] /\
  skipped_db_prompts (Stats_init [("model_name"%string, VStr "m")]) = [].
Proof.
  apply (Stats_init_lookup [("model_name"%string, VStr "m")] "request").
  repeat constructor; simpl; intuition.
Defined.

(** X11.  [add_stats] never creates, removes or reorders an entry of the
    ledger, whether it returns or raises: a key of [stats] that the ledger
    does not hold is ignored.  It touches neither the defaults, nor the
    messages, nor the skipped prompts. *)
Theorem add_stats_keeps_keys :
  forall (stats : dict pyval) (self : Stats),
    map fst (full_stats (final_state (add_stats stats self))) = map fst (full_stats self) /\
    default_stats (final_state (add_stats stats self)) = default_stats self /\
    unexpected_errors (final_state (add_stats stats self)) = unexpected_errors self /\
    skipped_db_prompts (final_state (add_stats stats self)) = skipped_db_prompts self.
Proof.
  induction stats as [|[k v] rest IH]; intros self.
  - simpl. auto.
  - rewrite add_stats_cons.
    destruct (dict_contains (full_stats self) k && is_number v) eqn:E; [|apply IH].
    apply andb_prop in E. destruct E as [Ec _].
    destruct (dict_get (full_stats self) k) as [cur|]; [|simpl; auto].
    destruct (py_add cur v) as [r|e]; [|simpl; auto].
    destruct (IH (set_full_stats self (dict_set (full_stats self) k r)))
      as [K [D [U S]]].
    rewrite K, D, U, S. simpl. rewrite dict_set_keys by exact Ec. auto.
Qed.

(** ** Reasoning on a run *)

Lemma wp_bind {S A B : Type} (c : M S A) (k : A -> M S B) Q E (s : S) :
  wp c (fun a s' => wp (k a) Q E s') E s -> wp (bind c k) Q E s.
Proof. unfold wp, bind. destruct (c s); auto. Qed.

Lemma wp_ret {S A : Type} (a : A) (Q : A -> S -> Prop) E (s : S) :
  Q a s -> wp (ret a) Q E s.
Proof. auto. Qed.

Lemma wp_raise {S A : Type} (e : exn) (Q : A -> S -> Prop) (E : exn -> S -> Prop) (s : S) :
  E e s -> wp (raise e) Q E s.
Proof. auto. Qed.

Lemma wp_get {S : Type} (Q : S -> S -> Prop) E (s : S) : Q s s -> wp get Q E s.
Proof. auto. Qed.

Lemma wp_modify {S : Type} (f : S -> S) (Q : unit -> S -> Prop) E (s : S) :
  Q tt (f s) -> wp (modify f) Q E s.
Proof. auto. Qed.

Lemma wp_lift_result {S A : Type} (r : result A) (Q : A -> S -> Prop)
  (E : exn -> S -> Prop) (s : S) :
  match r with Ok a => Q a s | Err e => E e s end -> wp (lift_result r) Q E s.
Proof. unfold wp, lift_result. destruct r; auto. Qed.

Lemma wp_mono {S A : Type} (m : M S A) (Q Q' : A -> S -> Prop)
  (E E' : exn -> S -> Prop) (s : S) :
  wp m Q E s ->
  (forall a s', Q a s' -> Q' a s') ->
  (forall e s', E e s' -> E' e s') ->
  wp m Q' E' s.
Proof. unfold wp. destruct (m s); auto. Qed.

Lemma wp_final {S A : Type} (m : M S A) (P : S -> Prop) (s : S) :
  wp m (fun _ s' => P s') (fun _ s' => P s') s -> P (final_state (m s)).
Proof. unfold wp. destruct (m s); auto. Qed.

Ltac st_simpl :=
  cbn [overall_stats pipeline_stats current_stats max_fail_counter
       max_tokens_fail_counter current_db errors db_response_json calls sink trace
       default_stats full_stats unexpected_errors skipped_db_prompts set_full_stats
       is_unexpected is_failure fst snd].

Ltac st_simpl_in H :=
  cbn [overall_stats pipeline_stats current_stats max_fail_counter
       max_tokens_fail_counter current_db errors db_response_json calls sink trace
       default_stats full_stats unexpected_errors skipped_db_prompts set_full_stats
       is_unexpected is_failure fst snd] in H.

Lemma wp_on_current {A : Type} (m : M Stats A) Q E (st : run_state) :
  wp m
     (fun a s => Q a (mkState (overall_stats st) (pipeline_stats st) s
                        (max_fail_counter st) (max_tokens_fail_counter st)
                        (current_db st) (errors st) (db_response_json st)
                        (calls st) (sink st) (trace st)))
     (fun e s => E e (mkState (overall_stats st) (pipeline_stats st) s
                        (max_fail_counter st) (max_tokens_fail_counter st)
                        (current_db st) (errors st) (db_response_json st)
                        (calls st) (sink st) (trace st)))
     (current_stats st) ->
  wp (on_current m) Q E st.
Proof. unfold wp, on_current. destruct (m (current_stats st)); auto. Qed.

Lemma wp_on_pipeline {A : Type} (m : M Stats A) Q E (st : run_state) :
  wp m
     (fun a s => Q a (mkState (overall_stats st) s (current_stats st)
                        (max_fail_counter st) (max_tokens_fail_counter st)
                        (current_db st) (errors st) (db_response_json st)
                        (calls st) (sink st) (trace st)))
     (fun e s => E e (mkState (overall_stats st) s (current_stats st)
                        (max_fail_counter st) (max_tokens_fail_counter st)
                        (current_db st) (errors st) (db_response_json st)
                        (calls st) (sink st) (trace st)))
     (pipeline_stats st) ->
  wp (on_pipeline m) Q E st.
Proof. unfold wp, on_pipeline. destruct (m (pipeline_stats st)); auto. Qed.

Lemma wp_on_overall {A : Type} (m : M Stats A) Q E (st : run_state) :
  wp m
     (fun a s => Q a (mkState s (pipeline_stats st) (current_stats st)
                        (max_fail_counter st) (max_tokens_fail_counter st)
                        (current_db st) (errors st) (db_response_json st)
                        (calls st) (sink st) (trace st)))
     (fun e s => E e (mkState s (pipeline_stats st) (current_stats st)
                        (max_fail_counter st) (max_tokens_fail_counter st)
                        (current_db st) (errors st) (db_response_json st)
                        (calls st) (sink st) (trace st)))
     (overall_stats st) ->
  wp (on_overall m) Q E st.
Proof. unfold wp, on_overall. destruct (m (overall_stats st)); auto. Qed.

Lemma wp_on_errors {A : Type} (m : M errors_t A) Q E (st : run_state) :
  match errors st with
  | None => E UnboundLocalError st
  | Some errs =>
      wp m
         (fun a e => Q a (mkState (overall_stats st) (pipeline_stats st)
                            (current_stats st) (max_fail_counter st)
                            (max_tokens_fail_counter st) (current_db st) (Some e)
                            (db_response_json st) (calls st) (sink st) (trace st)))
         (fun ex e => E ex (mkState (overall_stats st) (pipeline_stats st)
                              (current_stats st) (max_fail_counter st)
                              (max_tokens_fail_counter st) (current_db st) (Some e)
                              (db_response_json st) (calls st) (sink st) (trace st)))
         errs
  end ->
  wp (on_errors m) Q E st.
Proof.
  unfold wp, on_errors. destruct (errors st) as [errs|]; auto.
  destruct (m errs); auto.
Qed.

Lemma wp_flag (key : string) (b : bool) Q E (errs : errors_t) :
  dict_get errs key = Some b -> Q b errs -> wp (flag key) Q E errs.
Proof. intros H HQ. unfold wp, flag. now rewrite H. Qed.

Ltac exit_solve :=
  let c := fresh "c" in
  let H := fresh "H" in
  intros c H;
  first [discriminate H
        |exfalso; match goal with Hne : no_exit _ |- _ => exact (Hne c H) end].

Lemma decode_exn_no_exit (e : exn) : decode_exn e -> no_exit e.
Proof. intros [(k & p & ->)| ->]; exit_solve. Qed.

Lemma json_loads_no_exit (s : pystr) (e : exn) : json_loads s = Err e -> no_exit e.
Proof.
  intros H. destruct (json_loads_fuel s) as [(v & Hv)|(e' & He & Hd)].
  - rewrite Hv in H. discriminate H.
  - rewrite He in H. inversion H; subst. now apply decode_exn_no_exit.
Qed.

Lemma fix_missing_comma_no_exit (depth : nat) :
  forall (content : pystr) (e : exn),
    fix_missing_comma depth content = Err e -> no_exit e.
Proof.
  induction depth as [|depth IH]; intros content e H.
  - inversion H. exit_solve.
  - cbn [fix_missing_comma] in H.
    destruct (json_loads content) as [v|e'] eqn:El; [discriminate H|].
    pose proof (json_loads_no_exit _ _ El) as Hne.
    destruct e' as [kind pos| | | | | | | | |];
      try (inversion H; subst; exact Hne).
    destruct (str_in "Expecting ',' delimiter" (errmsg kind)).
    + match type of H with
      | rbind ?c _ = _ => destruct c as [moved|e2] eqn:Em
      end.
      * cbn [rbind] in H. eapply IH; eauto.
      * cbn [rbind] in H. inversion H; subst. clear H.
        destruct (negb (rfind_newline (firstn pos content) =? -1)%Z);
          [|discriminate Em].
        unfold str_getitem in Em.
        repeat match type of Em with
               | context [if ?b then _ else _] => destruct b
               | context [match ?x with _ => _ end] => destruct x
               end; try discriminate Em; inversion Em; exit_solve.
    + destruct (str_in "Invalid" (errmsg kind) && str_in "escape" (errmsg kind));
        discriminate H.
Qed.

Lemma int_to_float_no_exit (z : Z) (e : exn) : int_to_float z = Err e -> no_exit e.
Proof.
  unfold int_to_float. destruct (binary_normalize 53 1024 z 0 false);
    intros H; try discriminate H; inversion H; exit_solve.
Qed.

Lemma py_add_no_exit (a v : pyval) (e : exn) : py_add a v = Err e -> no_exit e.
Proof.
  unfold py_add. intros H.
  destruct a as [|b|z|f|s], v as [|b'|z'|f'|s']; cbn [as_int] in H;
    try discriminate H;
    try (inversion H; exit_solve);
    match type of H with
    | rbind (int_to_float ?y) _ = _ =>
        destruct (int_to_float y) as [g|e'] eqn:Ei;
          [discriminate H|inversion H; subst; eapply int_to_float_no_exit; eauto]
    end.
Qed.

Lemma add_stats_no_exit (stats : dict pyval) :
  forall (self self' : Stats) (e : exn),
    add_stats stats self = Raised e self' -> no_exit e.
Proof.
  induction stats as [|[k v] rest IH]; intros self self' e H.
  - discriminate H.
  - rewrite add_stats_cons in H.
    destruct (dict_contains (full_stats self) k && is_number v); [|eauto].
    destruct (dict_get (full_stats self) k) as [cur|];
      [|inversion H; exit_solve].
    destruct (py_add cur v) as [r|e'] eqn:Ea; [eauto|].
    inversion H; subst. eapply py_add_no_exit; eauto.
Qed.

Lemma check_fields_no_exit (js : json) (fields : list pystr) (e : exn) :
  check_fields js fields = Err e -> no_exit e.
Proof.
  unfold check_fields. destruct (py_iter js) as [l|e'] eqn:Ei.
  - cbn [rbind]. clear Ei. induction l as [|q l IH]; [discriminate|].
    cbn [check_fields_loop]. destruct q; try (intros H; inversion H; exit_solve).
    destruct (negb _); [discriminate|]. destruct (field_missing _ _); [discriminate|].
    exact IH.
  - cbn [rbind]. intros H. inversion H; subst.
    destruct js; try discriminate Ei; inversion Ei; exit_solve.
Qed.

Lemma getitem_str_no_exit (obj : json) (key : string) (e : exn) :
  getitem_str obj key = Err e -> no_exit e.
Proof.
  unfold getitem_str. intros H.
  destruct obj; try (inversion H; exit_solve).
  destruct (items_get items (py key)); [discriminate H|inversion H; exit_solve].
Qed.

Lemma check_db_id_no_exit (db : pystr) (js : json) (tgt : option pystr) (e : exn) :
  check_db_id db js tgt = Err e -> no_exit e.
Proof.
  unfold check_db_id. destruct (py_iter js) as [l|e'] eqn:Ei.
  - cbn [rbind]. clear Ei. generalize 0%Z.
    induction l as [|r l IH]; intros failed H; [discriminate H|].
    cbn [check_db_id_loop] in H.
    destruct (getitem_str r "source_db_id") as [src|e1] eqn:E1;
      [|inversion H; subst; eapply getitem_str_no_exit; eauto].
    cbn [rbind] in H.
    destruct tgt as [t|].
    + destruct (truthy_str (Some t)).
      * destruct (getitem_str r "target_db_id") as [tg|e2] eqn:E2;
          [|inversion H; subst; eapply getitem_str_no_exit; eauto].
        cbn [rbind] in H. eapply IH; eauto.
      * cbn [rbind] in H. eapply IH; eauto.
    + cbn [rbind] in H. eapply IH; eauto.
  - cbn [rbind]. intros H. inversion H; subst.
    destruct js; try discriminate Ei; inversion Ei; exit_solve.
Qed.

(** What [add_stats] leaves alone, whether it returns or raises. *)
Lemma add_stats_frame (stats : dict pyval) :
  forall self : Stats,
    default_stats (final_state (add_stats stats self)) = default_stats self /\
    unexpected_errors (final_state (add_stats stats self)) = unexpected_errors self /\
    skipped_db_prompts (final_state (add_stats stats self)) = skipped_db_prompts self /\
    map fst (full_stats (final_state (add_stats stats self))) = map fst (full_stats self) /\
    forall k, ~ In k (map fst stats) ->
              dict_get (full_stats (final_state (add_stats stats self))) k
              = dict_get (full_stats self) k.
Proof.
  induction stats as [|[k v] rest IH]; intros self.
  - simpl. auto 6.
  - rewrite add_stats_cons.
    assert (Hrest : forall x, ~ In x (map fst ((k, v) :: rest)) ->
                              ~ In x (map fst rest)).
    { intros x Hx Hin. apply Hx. now right. }
    destruct (dict_contains (full_stats self) k && is_number v) eqn:Ec.
    2:{ destruct (IH self) as [D [U [S [K G]]]]. repeat split; auto. }
    apply andb_prop in Ec. destruct Ec as [Ec _].
    destruct (dict_get (full_stats self) k) as [cur|]; [|simpl; auto 6].
    destruct (py_add cur v) as [r|e]; [|simpl; auto 6].
    destruct (IH (set_full_stats self (dict_set (full_stats self) k r)))
      as [D [U [S [K G]]]].
    rewrite D, U, S, K. split; [reflexivity|]. split; [reflexivity|].
    split; [reflexivity|]. split; [simpl; now apply dict_set_keys|].
    intros x Hx. rewrite G by auto. simpl.
    apply dict_get_set_other. intros ->. apply Hx. now left.
Qed.

Lemma wp_add_stats_any (items : dict pyval) (Q : unit -> Stats -> Prop)
  (E : exn -> Stats -> Prop) (self : Stats) :
  (forall self',
      default_stats self' = default_stats self ->
      unexpected_errors self' = unexpected_errors self ->
      skipped_db_prompts self' = skipped_db_prompts self ->
      map fst (full_stats self') = map fst (full_stats self) ->
      (forall k, ~ In k (map fst items) ->
                 dict_get (full_stats self') k = dict_get (full_stats self) k) ->
      Q tt self' /\ forall e, no_exit e -> E e self') ->
  wp (add_stats items) Q E self.
Proof.
  intros H. destruct (add_stats_frame items self) as [D [U [S [K G]]]].
  specialize (H _ D U S K G). unfold wp.
  destruct (add_stats items self) as [[] s'|e s'] eqn:Ea; simpl in H; destruct H;
    auto.
  apply H0. eapply add_stats_no_exit; eauto.
Qed.

Lemma wp_add_stats_one (key : string) (z n : Z) (Q : unit -> Stats -> Prop)
  (E : exn -> Stats -> Prop) (self : Stats) :
  dict_get (full_stats self) key = Some (VInt z) ->
  Q tt (set_full_stats self (dict_set (full_stats self) key (VInt (z + n)))) ->
  wp (add_stats [(key, VInt n)]) Q E self.
Proof.
  intros H HQ. unfold wp. rewrite add_stats_cons. unfold dict_contains.
  rewrite H. simpl. exact HQ.
Qed.

Lemma wp_add_unexpected_error (msg : string) (u : Z) (Q : unit -> Stats -> Prop)
  (E : exn -> Stats -> Prop) (self : Stats) :
  dict_get (full_stats self) "unexpected_error" = Some (VInt u) ->
  Q tt (mkStats (default_stats self) (unexpected_errors self ++ [msg])
          (dict_set (full_stats self) "unexpected_error" (VInt (u + 1)))
          (skipped_db_prompts self)) ->
  wp (add_unexpected_error msg) Q E self.
Proof.
  intros H HQ. unfold wp, add_unexpected_error, bind, modify, iadd_full_stats.
  cbn [full_stats]. rewrite H. simpl. exact HQ.
Qed.

Ltac key_neq := let H := fresh in intros H; discriminate H.

Ltac ledger_solve :=
  unfold ledger_counts in *; st_simpl;
  repeat match goal with H : _ /\ _ |- _ => destruct H end;
  repeat split;
  repeat first [rewrite dict_get_set_same | rewrite dict_get_set_other by key_neq];
  try assumption; try (f_equal; f_equal; lia).

Ltac st_simpl_all :=
  cbn [overall_stats pipeline_stats current_stats max_fail_counter
       max_tokens_fail_counter current_db errors db_response_json calls sink trace
       default_stats full_stats unexpected_errors skipped_db_prompts set_full_stats
       is_unexpected is_failure fst snd] in *.

Ltac frame_solve :=
  unfold frame in *; st_simpl_all;
  repeat match goal with H : _ /\ _ |- _ => destruct H end;
  repeat split; first [reflexivity | congruence | lia].

Lemma frame_refl (st : run_state) : frame st st.
Proof. frame_solve. Qed.

Lemma frame_trans (a b c : run_state) : frame a b -> frame b c -> frame a c.
Proof. intros H1 H2. frame_solve. Qed.

Lemma stable_same (cfg : settings) (st st' : run_state) :
  trace st' = trace st ->
  stats_ledgers (sink st') = stats_ledgers (sink st) ->
  max_tokens_fail_counter st' = max_tokens_fail_counter st ->
  stable cfg st -> stable cfg st'.
Proof.
  unfold stable. intros T U M (H1 & H2 & H3). rewrite T, U, M. auto.
Qed.

Lemma stable_frame (cfg : settings) (st st' : run_state) :
  frame st st' -> stable cfg st -> stable cfg st'.
Proof.
  unfold frame, stable.
  intros (T & _ & _ & M & _ & _ & _ & _ & SL & _) (H1 & H2 & H3).
  rewrite T, SL, M. auto.
Qed.

Ltac stable_solve Hst :=
  unfold frame in *; st_simpl_all;
  repeat match goal with H : _ /\ _ |- _ => destruct H end;
  eapply stable_same; [| | |exact Hst]; st_simpl; try reflexivity; try congruence.

Ltac nodup_solve :=
  st_simpl;
  repeat match goal with
         | K : map fst (full_stats ?a) = _ |- NoDup (map fst (full_stats ?a)) =>
             rewrite K; st_simpl
         | K : current_stats ?a = _ |- NoDup (map fst (full_stats (current_stats ?a))) =>
             rewrite K; st_simpl
         | |- NoDup (map fst (dict_set _ _ _)) => apply dict_set_NoDup
         end;
  assumption.

Ltac aborted_solve Hst := split; [stable_solve Hst|exit_solve].

(** The end of a failed attempt. *)
Lemma attempt_failed_wp (st : run_state) (errs : errors_t) (u : bool)
  (r p s e c x : Z) :
  errors st = Some errs ->
  dict_get errs "unexpected" = Some u ->
  dict_get errs "max_token" = Some false ->
  ledger_counts (full_stats (current_stats st)) r p s e c x ->
  NoDup (map fst (full_stats (current_stats st))) ->
  wp attempt_failed
     (fun res st' =>
        res = (Next, if u then AttemptUnexpected else AttemptError) /\
        frame st st' /\ errors st' = Some errs /\
        NoDup (map fst (full_stats (current_stats st'))) /\
        ledger_counts (full_stats (current_stats st')) r p s
          (if u then e else (e + 1)%Z) c x)
     (fun _ _ => False) st.
Proof.
  intros He Hu Hm Hl Hnd. unfold attempt_failed.
  apply wp_bind. unfold errors_flag. apply wp_on_errors. rewrite He.
  apply (wp_flag _ u); [exact Hu|].
  apply wp_bind.
  assert (Herr : dict_get (full_stats (current_stats st)) "error_response"
                 = Some (VInt e)) by (unfold ledger_counts in Hl; tauto).
  destruct u; cbn [negb].
  - apply wp_ret. apply wp_bind. apply wp_on_errors. st_simpl.
    apply (wp_flag _ false); [exact Hm|].
    apply wp_bind. apply wp_ret. apply wp_ret.
    split; [reflexivity|]. split; [frame_solve|]. split; [reflexivity|].
    split; [nodup_solve|]. ledger_solve.
  - apply wp_on_current. st_simpl.
    apply (wp_add_stats_one _ e 1); [exact Herr|].
    apply wp_bind. apply wp_on_errors. st_simpl.
    apply (wp_flag _ false); [exact Hm|].
    apply wp_bind. apply wp_ret. apply wp_ret.
    split; [reflexivity|]. split; [frame_solve|]. split; [reflexivity|].
    split; [nodup_solve|]. ledger_solve.
Qed.

(** The structural checks on a fresh error set set at most one flag. *)
Lemma check_structure_default (cfg : settings) (pl : pipeline) (db : pystr) (js : json) :
  wp (check_structure cfg pl db js)
     (fun _ e' => e' = DEFAULT_ERRORS \/
                  e' = dict_set DEFAULT_ERRORS "fields_mismatch" true \/
                  e' = dict_set DEFAULT_ERRORS "db_id_matching" true)
     (fun e _ => no_exit e) DEFAULT_ERRORS.
Proof.
  unfold check_structure.
  assert (Hsecond : forall errs (fm : bool),
             dict_get errs "fields_mismatch" = Some fm ->
             (fm = false -> errs = DEFAULT_ERRORS) ->
             (fm = true -> errs = dict_set DEFAULT_ERRORS "fields_mismatch" true) ->
             wp (bind (flag "fields_mismatch") (fun fm =>
                   if negb fm && db_id_matching cfg then
                     bind (lift_result (check_db_id db js (Some (target_db_id pl))))
                       (fun n => if (0 <? n)%Z
                                 then modify (fun e => dict_set e "db_id_matching" true)
                                 else ret tt)
                   else ret tt))
                (fun _ e' => e' = DEFAULT_ERRORS \/
                             e' = dict_set DEFAULT_ERRORS "fields_mismatch" true \/
                             e' = dict_set DEFAULT_ERRORS "db_id_matching" true)
                (fun e _ => no_exit e) errs).
  { intros errs fm Hfm H0 H1. apply wp_bind. apply (wp_flag _ fm); [exact Hfm|].
    destruct fm; cbn [negb andb].
    - apply wp_ret. auto.
    - specialize (H0 eq_refl). subst errs.
      destruct (db_id_matching cfg); [|apply wp_ret; auto].
      apply wp_bind. apply wp_lift_result.
      destruct (check_db_id db js (Some (target_db_id pl))) as [n|e] eqn:Ec;
        [|eapply check_db_id_no_exit; eauto].
      destruct (0 <? n)%Z; [apply wp_modify|apply wp_ret]; auto. }
  apply wp_bind.
  destruct (fields_checking cfg).
  - apply wp_bind. apply wp_lift_result.
    destruct (check_fields js (fields_to_check cfg)) as [ok|e] eqn:Ec;
      [|eapply check_fields_no_exit; eauto].
    destruct ok; cbn [negb].
    + apply wp_ret. apply (Hsecond _ false); [reflexivity|auto|discriminate].
    + apply wp_modify. apply (Hsecond _ true); [reflexivity|discriminate|auto].
  - apply wp_ret. apply (Hsecond _ false); [reflexivity|auto|discriminate].
Qed.

(** The validation of a decoded response that no earlier check flagged. *)
Lemma validate_structure_wp (cfg : settings) (pl : pipeline) (db : pystr) (js : json)
  (st : run_state) (r p s e c x : Z) :
  errors st = Some DEFAULT_ERRORS ->
  ledger_counts (full_stats (current_stats st)) r p s e c x ->
  NoDup (map fst (full_stats (current_stats st))) ->
  wp (validate_structure cfg pl db js (Some false))
     (fun res st' =>
        frame st st' /\
        NoDup (map fst (full_stats (current_stats st'))) /\
        ((res = (Break, AttemptSuccess) /\ errors st' = Some DEFAULT_ERRORS /\
          ledger_counts (full_stats (current_stats st')) r p (s + 1) e c x) \/
         (res = (Next, AttemptError) /\
          (exists errs, errors st' = Some errs /\ 0 < errors_sum errs) /\
          ledger_counts (full_stats (current_stats st')) r p s (e + 1) c x)))
     (fun ex st' => frame st st' /\ no_exit ex) st.
Proof.
  intros He Hl Hnd. unfold validate_structure.
  assert (Hsucc : dict_get (full_stats (current_stats st)) "success_response"
                  = Some (VInt s)) by (unfold ledger_counts in Hl; tauto).
  apply wp_bind. apply wp_on_errors. rewrite He.
  eapply wp_mono; [apply check_structure_default| |intros ex ? Hne; split; [frame_solve|exact Hne]].
  intros [] e' Hcase. cbv beta.
  destruct Hcase as [-> | [-> | ->]].
  - apply wp_bind. unfold errors_flag. apply wp_on_errors. st_simpl.
    apply (wp_flag _ false); [reflexivity|].
    apply wp_bind. apply wp_on_errors. st_simpl.
    apply (wp_flag _ false); [reflexivity|]. cbn [negb andb].
    apply wp_bind. apply wp_on_current. st_simpl.
    apply (wp_add_stats_one _ s 1); [exact Hsucc|].
    apply wp_ret. split; [frame_solve|]. split; [nodup_solve|]. left.
    split; [reflexivity|]. split; [reflexivity|]. ledger_solve.
  - apply wp_bind. unfold errors_flag. apply wp_on_errors. st_simpl.
    apply (wp_flag _ true); [reflexivity|].
    apply wp_bind. apply wp_on_errors. st_simpl.
    apply (wp_flag _ false); [reflexivity|]. cbn [negb andb].
    eapply wp_mono;
      [eapply (attempt_failed_wp _ _ false r p s e c x);
       [st_simpl; reflexivity|reflexivity|reflexivity|st_simpl; exact Hl
       |st_simpl; exact Hnd]
      | |intros ? ? []].
    intros res st' (Hr & Hf & Herrs & Hnd' & Hc). split; [frame_solve|].
    split; [exact Hnd'|]. right.
    split; [exact Hr|]. split; [|exact Hc].
    eexists. split; [exact Herrs|]. vm_compute. lia.
  - apply wp_bind. unfold errors_flag. apply wp_on_errors. st_simpl.
    apply (wp_flag _ false); [reflexivity|].
    apply wp_bind. apply wp_on_errors. st_simpl.
    apply (wp_flag _ true); [reflexivity|]. cbn [negb andb].
    eapply wp_mono;
      [eapply (attempt_failed_wp _ _ false r p s e c x);
       [st_simpl; reflexivity|reflexivity|reflexivity|st_simpl; exact Hl
       |st_simpl; exact Hnd]
      | |intros ? ? []].
    intros res st' (Hr & Hf & Herrs & Hnd' & Hc). split; [frame_solve|].
    split; [exact Hnd'|]. right.
    split; [exact Hr|]. split; [|exact Hc].
    eexists. split; [exact Herrs|]. vm_compute. lia.
Qed.

(** What [generate] reports as the finish reason. *)
Lemma generate_finish_reason (origin : string) (p : provider_outcome)
  (rd : response_dict_t) :
  generate origin p = inl rd ->
  finish_reason rd = Some ""%string \/
  finish_reason rd = Some "RECITATION"%string \/
  finish_reason rd = Some "MAX_TOKENS"%string.
Proof.
  unfold generate. intros H.
  destruct (String.eqb origin "openai").
  - destruct p; inversion H; subst. simpl. auto.
  - destruct (String.eqb origin "google"); [|discriminate].
    destruct p as [r|m]; inversion H; subst. simpl.
    destruct (google_finish_reason_values (reply_finish_reason r)) as [E|[E|E]];
      rewrite E; auto.
Qed.

(** The classifier on such a finish reason. *)
Lemma check_special_errors_generated (text : pystr) (reason : option string)
  (errs : errors_t) :
  reason = Some ""%string \/ reason = Some "RECITATION"%string \/
  reason = Some "MAX_TOKENS"%string ->
  check_special_errors text reason errs = Returned true errs \/
  check_special_errors text reason errs
  = Returned false (dict_set errs "empty_output" true) \/
  check_special_errors text reason errs
  = Returned false (dict_set errs "recitation" true).
Proof.
  intros H. unfold check_special_errors.
  destruct (Nat.eqb (List.length text) 0); [auto|].
  destruct H as [-> | [-> | ->]]; vm_compute; auto.
Qed.

(** The decoding step on the bracket slice of a response. *)
Lemma validate_json_bracket_cases (depth : nat) (text : pystr) (errs : errors_t) :
  (exists l, validate_json_response depth (json_bracket text) errs
             = Returned (JList l, Some false) errs) \/
  validate_json_response depth (json_bracket text) errs
  = Returned (JNull, None) (dict_set errs "invalid_escape" true) \/
  validate_json_response depth (json_bracket text) errs
  = Returned (JNull, None) (dict_set errs "json_decode" true) \/
  (exists e, no_exit e /\
             validate_json_response depth (json_bracket text) errs = Raised e errs).
Proof.
  unfold validate_json_response.
  destruct (json_loads (json_bracket text)) as [v|e] eqn:El.
  - left. destruct (json_bracket_shape text) as [E|[E|[mid E]]]; rewrite E in El.
    + vm_compute in El. discriminate.
    + vm_compute in El. discriminate.
    + apply json_loads_bracket_list in El. destruct El as [l ->]. eauto.
  - pose proof (json_loads_no_exit _ _ El) as Hne.
    destruct e as [kind pos| | | | | | | | |]; try (right; right; right; eauto; fail).
    destruct (str_in "Expecting ',' delimiter" (errmsg kind)).
    + destruct (fix_missing_comma depth (json_bracket text)) as [[v|et]|ex] eqn:Ef.
      * right. right. right. eauto.
      * apply fix_missing_comma_types in Ef. destruct Ef as [-> | ->]; auto.
      * right. right. right. exists ex. split; [|reflexivity].
        eapply fix_missing_comma_no_exit; eauto.
    + destruct (str_in "Invalid" (errmsg kind) && str_in "escape" (errmsg kind)); auto.
Qed.

Lemma unexpected_count_app (a : list attempt_kind) (k : attempt_kind) :
  unexpected_count (a ++ [k])
  = (unexpected_count a + (if is_unexpected k then 1 else 0))%Z.
Proof.
  unfold unexpected_count. rewrite filter_app, length_app. simpl.
  destruct (is_unexpected k); simpl; lia.
Qed.

Lemma unexpected_count_nonneg (kinds : list attempt_kind) :
  (0 <= unexpected_count kinds)%Z.
Proof. unfold unexpected_count. lia. Qed.

Lemma unexpected_total_nonneg (tr : list batch_record) :
  (0 <= unexpected_total tr)%Z.
Proof.
  unfold unexpected_total. induction tr as [|b tr IH]; simpl; [lia|].
  pose proof (unexpected_count_nonneg (batch_attempts b)). lia.
Qed.

Lemma ledger_counts_request (d : dict pyval) (r p s e c x : Z) :
  ledger_counts d r p s e c x -> counter d "request" = r.
Proof. unfold ledger_counts, counter. intros (H & _). now rewrite H. Qed.

Lemma ledger_counts_same (d d' : dict pyval) (r p s e c x : Z) :
  (forall k, In k ["request"; "response"; "success_response"; "error_response";
                   "corrected_response"; "unexpected_error"]%string ->
             dict_get d' k = dict_get d k) ->
  ledger_counts d r p s e c x -> ledger_counts d' r p s e c x.
Proof.
  intros H (H1 & H2 & H3 & H4 & H5 & H6). unfold ledger_counts.
  repeat split; (rewrite H; [assumption|simpl; tauto]).
Qed.

(** An attempt takes the invariant of its batch to the next attempt. *)
Lemma inv_step (cfg : settings) (kinds : list attempt_kind) (k : attempt_kind)
  (st st' : run_state) (s e u : Z) :
  max_retry_per_prompt cfg <> 0 ->
  inv cfg kinds st ->
  frame (mkState (overall_stats st) (pipeline_stats st) (current_stats st)
           (max_fail_counter st + (if is_unexpected k then 1 else 0))
           (max_tokens_fail_counter st) (current_db st) (errors st)
           (db_response_json st) (S (calls st)) (sink st) (trace st)) st' ->
  (max_fail_counter st' < Z.max 1 (max_fail_limit cfg))%Z ->
  (0 <= s)%Z -> (0 <= e)%Z -> (0 <= u)%Z ->
  ledger_counts (full_stats (current_stats st')) (s + e + u) 0 s e 0 u ->
  NoDup (map fst (full_stats (current_stats st'))) ->
  (counter (full_stats (current_stats st)) "request" + 1 = s + e + u)%Z ->
  inv cfg (kinds ++ [k]) st'.
Proof.
  intros Hpos (Hst & (Hd & _) & Hm & _ & Hc & Hu & Hs & _ & Hpd & Hpc & Hoc)
         Hf Hlim H0 H1 H2 Hl Hnd Hr.
  unfold frame in Hf. st_simpl_all.
  destruct Hf as (T & U & W & MT & MF & C & SK & D & SL & PF & PD & OS).
  assert (Hst' : stable cfg st') by (now apply (stable_same cfg st)).
  unfold inv. split; [exact Hst'|]. split.
  { split; [congruence|]. split; [exact Hnd|]. exists s, e, u. auto. }
  split; [rewrite MF, T, unexpected_count_app; lia|].
  split; [exact Hlim|].
  split; [rewrite C, T, length_app; simpl; lia|].
  split.
  { rewrite (ledger_counts_request _ _ _ _ _ _ _ Hl), C.
    unfold units in *. rewrite U. lia. }
  split; [congruence|]. split; [intros; contradiction|].
  unfold upper_ledgers, closed_stats in *. rewrite PD, PF, OS. auto.
Qed.

Ltac mfc_solve :=
  unfold frame in *; st_simpl_all;
  repeat match goal with H : _ /\ _ |- _ => destruct H end; lia.

Lemma wp_write_response (j : bool) (db : pystr) (t : option pystr)
  (Q : unit -> run_state -> Prop) (E : exn -> run_state -> Prop) (st : run_state) :
  (forall st', frame st st' -> errors st' = errors st ->
               current_stats st' = current_stats st ->
               pipeline_stats st' = pipeline_stats st -> Q tt st') ->
  wp (write_response j db t) Q E st.
Proof.
  intros H. unfold wp, write_response, bind, get, emit, modify.
  apply H; try reflexivity. frame_solve.
Qed.

Lemma wp_json_only (b j : bool) (db : pystr) (t : option pystr)
  (Q : unit -> run_state -> Prop) (E : exn -> run_state -> Prop) (st : run_state) :
  (forall st', frame st st' -> errors st' = errors st ->
               current_stats st' = current_stats st ->
               pipeline_stats st' = pipeline_stats st -> Q tt st') ->
  wp (if b then write_response j db t else ret tt) Q E st.
Proof.
  intros H. destruct b.
  - now apply wp_write_response.
  - apply wp_ret. apply H; try reflexivity. apply frame_refl.
Qed.

(** One attempt. *)
Lemma attempt_wp (cfg : settings) (w : world) (pl : pipeline) (db : pystr)
  (rv : response_var) (kinds : list attempt_kind) (st : run_state) :
  max_retry_per_prompt cfg <> 0 ->
  inv cfg kinds st ->
  wp (attempt cfg w pl db rv)
     (fun res st' =>
        inv cfg (kinds ++ [snd res]) st' /\
        match fst (fst res) with
        | Break =>
            snd res = AttemptSuccess /\ errors st' = Some DEFAULT_ERRORS /\
            exists l, snd (fst res) = ResponseJson (JList l)
        | Next =>
            is_failure (snd res) = true /\
            exists errs, errors st' = Some errs /\ 0 < errors_sum errs
        end)
     (fun e st' => aborted cfg e st') st.
Proof.
  intros Hpos Hinv.
  pose proof Hinv as (Hst & (Hd & Hnd & s & e & u & H0 & H1 & H2 & Hl) & Hm & Hlim & _).
  assert (Hreq : dict_get (full_stats (current_stats st)) "request"
                 = Some (VInt (s + e + u))) by (unfold ledger_counts in Hl; tauto).
  assert (Hunx : dict_get (full_stats (current_stats st)) "unexpected_error"
                 = Some (VInt u)) by (unfold ledger_counts in Hl; tauto).
  pose proof (ledger_counts_request _ _ _ _ _ _ _ Hl) as Hcnt.
  unfold attempt.
  apply wp_bind. unfold set_errors. apply wp_modify.
  apply wp_bind. apply wp_on_current. st_simpl.
  apply (wp_add_stats_one _ (s + e + u) 1); [exact Hreq|].
  apply wp_bind. unfold next_call, wp at 1. st_simpl.
  destruct (generate (lower (model_origin cfg)) (provider w (calls st)))
    as [rd|msg] eqn:Eg.
  - (* the provider replied *)
    assert (Hfail : forall stA errs rv',
      frame (mkState (overall_stats st) (pipeline_stats st) (current_stats st)
               (max_fail_counter st) (max_tokens_fail_counter st) (current_db st)
               (errors st) (db_response_json st) (S (calls st)) (sink st) (trace st))
            stA ->
      ledger_counts (full_stats (current_stats stA)) (s + e + u + 1) 0 s e 0 u ->
      NoDup (map fst (full_stats (current_stats stA))) ->
      errors stA = Some errs ->
      dict_get errs "unexpected" = Some false ->
      dict_get errs "max_token" = Some false ->
      0 < errors_sum errs ->
      wp (bind attempt_failed (fun r => ret (fst r, rv', snd r)))
         (fun res st' =>
            inv cfg (kinds ++ [snd res]) st' /\
            match fst (fst res) with
            | Break =>
                snd res = AttemptSuccess /\ errors st' = Some DEFAULT_ERRORS /\
                exists l, snd (fst res) = ResponseJson (JList l)
            | Next =>
                is_failure (snd res) = true /\
                exists errs, errors st' = Some errs /\ 0 < errors_sum errs
            end)
         (fun e st' => aborted cfg e st') stA).
    { intros stA errs rv' HfA HlA HndA HeA Hux Hmt Hsum.
      apply wp_bind.
      eapply wp_mono;
        [eapply (attempt_failed_wp _ _ false (s + e + u + 1) 0 s e 0 u); eassumption
        | |intros ? ? []].
      intros res st' (Hr & Hf & Herrs & Hnd' & Hc). apply wp_ret. subst res. st_simpl.
      split.
      - eapply (inv_step cfg kinds AttemptError st st' s (e + 1) u Hpos Hinv);
          [frame_solve|mfc_solve|lia|lia|lia| |exact Hnd'|lia].
        replace (s + (e + 1) + u)%Z with (s + e + u + 1)%Z by lia. exact Hc.
      - split; [reflexivity|]. eexists. split; [exact Herrs|exact Hsum]. }
    apply wp_bind. apply wp_write_response. intros st2 Hf2 He2 Hc2 _.
    apply wp_bind. apply wp_json_only. intros st3 Hf3 He3 Hc3 _.
    st_simpl_all.
    apply wp_bind. apply wp_on_current. apply wp_add_stats_any.
    intros self' D U S K G. split; [|intros ex Hne; aborted_solve Hst].
    assert (HndA : NoDup (map fst (full_stats self'))).
    { rewrite K, Hc3, Hc2. nodup_solve. }
    assert (HlA : ledger_counts (full_stats self') (s + e + u + 1) 0 s e 0 u).
    { eapply ledger_counts_same.
      - intros k Hk. apply G. simpl in Hk. simpl.
        intuition (subst; discriminate).
      - rewrite Hc3, Hc2. ledger_solve. }
    assert (HeA : errors st3 = Some DEFAULT_ERRORS) by congruence.
    apply wp_bind. apply wp_on_errors. st_simpl. rewrite HeA.
    destruct (check_special_errors_generated (response rd) (finish_reason rd)
                DEFAULT_ERRORS (generate_finish_reason _ _ _ Eg)) as [Ec|[Ec|Ec]];
      unfold wp at 1; rewrite Ec.
    + (* the response passed the classifier *)
      cbv beta iota. apply wp_bind. apply wp_on_errors. st_simpl.
      destruct (validate_json_bracket_cases (recursion_depth w) (response rd)
                  DEFAULT_ERRORS) as [[l Ev]|[Ev|[Ev|[ex [Hne Ev]]]]];
        unfold wp at 1; rewrite Ev; cbv beta iota; cbn [fst snd].
      * apply wp_bind.
        eapply wp_mono;
          [eapply (validate_structure_wp _ _ _ _ _ (s + e + u + 1) 0 s e 0 u);
           [reflexivity|exact HlA|exact HndA]
          | |intros ex ? (Hf & Hne); aborted_solve Hst].
        intros res st' (Hf & Hnd' & [(Hr & He' & Hc)|(Hr & Hex & Hc)]);
          apply wp_ret; subst res; st_simpl; (split; [|eauto]).
        -- eapply (inv_step cfg kinds AttemptSuccess st st' (s + 1) e u Hpos Hinv);
             [frame_solve|mfc_solve|lia|lia|lia| |exact Hnd'|lia].
           replace (s + 1 + e + u)%Z with (s + e + u + 1)%Z by lia. exact Hc.
        -- eapply (inv_step cfg kinds AttemptError st st' s (e + 1) u Hpos Hinv);
             [frame_solve|mfc_solve|lia|lia|lia| |exact Hnd'|lia].
           replace (s + (e + 1) + u)%Z with (s + e + u + 1)%Z by lia. exact Hc.
      * apply Hfail with (errs := dict_set DEFAULT_ERRORS "invalid_escape" true);
          [frame_solve|exact HlA|exact HndA|reflexivity|reflexivity|reflexivity
          |vm_compute; lia].
      * apply Hfail with (errs := dict_set DEFAULT_ERRORS "json_decode" true);
          [frame_solve|exact HlA|exact HndA|reflexivity|reflexivity|reflexivity
          |vm_compute; lia].
      * aborted_solve Hst.
    + apply Hfail with (errs := dict_set DEFAULT_ERRORS "empty_output" true);
        [frame_solve|exact HlA|exact HndA|reflexivity|reflexivity|reflexivity
          |vm_compute; lia].
    + apply Hfail with (errs := dict_set DEFAULT_ERRORS "recitation" true);
        [frame_solve|exact HlA|exact HndA|reflexivity|reflexivity|reflexivity
          |vm_compute; lia].
  - (* the provider failed *)
    apply wp_bind. apply wp_on_errors. st_simpl. apply wp_modify.
    apply wp_bind. apply wp_on_current. st_simpl.
    apply (wp_add_unexpected_error _ u);
      [st_simpl; rewrite dict_get_set_other by key_neq; exact Hunx|].
    apply wp_bind. apply wp_get. st_simpl.
    apply wp_bind. unfold set_max_fail_counter. apply wp_modify. st_simpl.
    apply wp_bind.
    destruct (max_fail_limit cfg <=? max_fail_counter st + 1)%Z eqn:El.
    { unfold max_fail_exit. apply wp_raise. apply Z.leb_le in El.
      split; [stable_solve Hst|]. intros code Hcode. inversion Hcode; subst code.
      split; [reflexivity|]. st_simpl.
      pose proof (unexpected_total_nonneg (trace st)).
      pose proof (unexpected_count_nonneg kinds). lia. }
    apply Z.leb_gt in El.
    apply wp_ret. apply wp_bind.
    eapply wp_mono;
      [eapply (attempt_failed_wp _ _ true (s + e + u + 1) 0 s e 0 (u + 1));
       [st_simpl; reflexivity|reflexivity|reflexivity|ledger_solve|nodup_solve]
      | |intros ? ? []].
    intros res st' (Hr & Hf & Herrs & Hnd' & Hc). apply wp_ret. subst res. st_simpl.
    split.
    + eapply (inv_step cfg kinds AttemptUnexpected st st' s e (u + 1) Hpos Hinv);
        [frame_solve|mfc_solve|lia|lia|lia| |exact Hnd'|lia].
      replace (s + e + (u + 1))%Z with (s + e + u + 1)%Z by lia. exact Hc.
    + split; [reflexivity|]. eexists. split; [exact Herrs|]. vm_compute. lia.
Qed.

(** The attempt loop: [n] attempts are left, [kinds] are those made. *)
Lemma attempts_wp (cfg : settings) (w : world) (pl : pipeline) (db : pystr) (n : nat) :
  forall (rv : response_var) (kinds : list attempt_kind) (st : run_state),
    (n <> 0 -> max_retry_per_prompt cfg <> 0) ->
    inv cfg kinds st ->
    forallb is_failure kinds = true ->
    (kinds <> [] -> exists errs, errors st = Some errs /\ 0 < errors_sum errs) ->
    wp (attempts cfg w pl db n rv kinds)
       (fun res st' =>
          inv cfg (snd res) st' /\
          ((exists fails,
               snd res = fails ++ [AttemptSuccess] /\
               forallb is_failure fails = true /\
               List.length fails < List.length kinds + n /\
               errors st' = Some DEFAULT_ERRORS /\
               exists l, fst res = ResponseJson (JList l)) \/
           (forallb is_failure (snd res) = true /\
            List.length (snd res) = List.length kinds + n /\
            (snd res <> [] ->
             exists errs, errors st' = Some errs /\ 0 < errors_sum errs) /\
            (snd res = [] -> errors st' = errors st))))
       (fun e st' => aborted cfg e st') st.
Proof.
  induction n as [|n IH]; intros rv kinds st Hpos Hinv Hfails Herrs.
  - apply wp_ret. cbn [fst snd]. split; [exact Hinv|]. right.
    repeat split; auto.
  - cbn [attempts]. apply wp_bind.
    assert (Hp : max_retry_per_prompt cfg <> 0) by (apply Hpos; discriminate).
    eapply wp_mono; [apply (attempt_wp cfg w pl db rv kinds st Hp Hinv)| |auto].
    intros [[ex rv'] k] st' (Hinv' & Hcase). cbn [fst snd] in *.
    destruct ex.
    + destruct Hcase as (-> & He & l & ->). apply wp_ret. cbn [fst snd].
      split; [exact Hinv'|]. left. exists kinds.
      repeat split; auto; [lia|eauto].
    + destruct Hcase as (Hk & He).
      assert (Hfails' : forallb is_failure (kinds ++ [k]) = true).
      { rewrite forallb_app, Hfails. simpl. now rewrite Hk. }
      eapply wp_mono;
        [apply (IH rv' (kinds ++ [k]) st' (fun _ => Hp) Hinv' Hfails' (fun _ => He))
        | |auto].
      intros [rv2 kinds2] st2 (Hinv2 & Hcase2). cbn [fst snd] in *.
      split; [exact Hinv2|].
      rewrite length_app in Hcase2. simpl in Hcase2.
      destruct Hcase2 as [(fails & Hk2 & Hf2 & Hlen & He2 & Hl2)
                         |(Hf2 & Hlen & He2 & Hnil)].
      * left. exists fails. repeat split; auto. lia.
      * right. repeat split; auto; [lia|].
        intros ->. simpl in Hlen. lia.
Qed.

Lemma unexpected_total_cons (b : batch_record) (tr : list batch_record) :
  unexpected_total (b :: tr)
  = (unexpected_count (batch_attempts b) + unexpected_total tr)%Z.
Proof. reflexivity. Qed.

Lemma attempts_total_cons (b : batch_record) (tr : list batch_record) :
  attempts_total (b :: tr)
  = (Z.of_nat (List.length (batch_attempts b)) + attempts_total tr)%Z.
Proof. reflexivity. Qed.

Lemma skipped_batches_cons (b : batch_record) (tr : list batch_record) :
  skipped_batches (b :: tr)
  = (if is_skipped b then 1 else 0) + skipped_batches tr.
Proof. unfold skipped_batches. simpl. destruct (is_skipped b); reflexivity. Qed.

Lemma batch_ok_retry (max_retry : nat) (b : batch_record) :
  batch_ok max_retry b -> max_retry <> 0.
Proof.
  unfold batch_ok. destruct (batch_terminal b).
  - intros (fails & _ & _ & H). lia.
  - intros (_ & _ & H). lia.
Qed.

(** Recording a batch takes the invariant of the batch to the next one. *)
Lemma inv_record (cfg : settings) (kinds : list attempt_kind) (t : terminal)
  (st st' : run_state) :
  inv cfg kinds st ->
  batch_ok (max_retry_per_prompt cfg) (mkBatch t kinds) ->
  trace st' = mkBatch t kinds :: trace st ->
  unit_ledgers (sink st') = unit_ledgers (sink st) ->
  skipped_written (sink st') = skipped_written (sink st) ->
  max_tokens_fail_counter st' = max_tokens_fail_counter st ->
  max_fail_counter st' = max_fail_counter st ->
  calls st' = calls st ->
  current_stats st' = current_stats st ->
  List.length (skipped_db_prompts (pipeline_stats st'))
  = (if is_skipped (mkBatch t kinds) then 1 else 0)
    + List.length (skipped_db_prompts (pipeline_stats st)) ->
  stats_ledgers (sink st') = stats_ledgers (sink st) ->
  full_stats (pipeline_stats st') = full_stats (pipeline_stats st) ->
  default_stats (pipeline_stats st') = default_stats (pipeline_stats st) ->
  overall_stats st' = overall_stats st ->
  inv cfg [] st'.
Proof.
  intros ((Htr & Hmt & Hul) & Hopen & Hm & Hlim & Hc & Hu & Hs & _ & Hup)
         Hok T U W MT MF C CS SK SL PF PD OS.
  unfold inv, stable, upper_ledgers, closed_stats in *.
  rewrite T, SL, W, MT, MF, C, CS, SK, PF, PD, OS, unexpected_total_cons,
    attempts_total_cons, skipped_batches_cons.
  cbn [batch_attempts]. unfold units in *. rewrite U.
  change (unexpected_count []) with 0%Z. cbn [List.length].
  split; [split; [constructor; assumption|split; assumption]|].
  split; [exact Hopen|]. split; [lia|]. split; [lia|]. split; [lia|].
  split; [exact Hu|]. split; [lia|]. split; [|exact Hup].
  intros H0. exfalso. exact (batch_ok_retry _ _ Hok H0).
Qed.

(** One batch. *)
Lemma process_batch_wp (cfg : settings) (w : world) (pl : pipeline) (db : pystr)
  (current_questions : list json) (st : run_state) :
  inv cfg [] st ->
  wp (process_batch cfg w pl db current_questions)
     (fun _ st' => inv cfg [] st') (fun e st' => aborted cfg e st') st.
Proof.
  intros Hinv. unfold process_batch.
  apply wp_bind.
  eapply wp_mono;
    [apply (attempts_wp cfg w pl db (max_retry_per_prompt cfg) ResponseNone [] st);
     [auto|exact Hinv|reflexivity|intros H; now elim H]
    | |auto].
  intros [rv kinds] st1 (Hinv1 & Hcase). cbn [fst snd] in *.
  pose proof Hinv1 as (Hst1 & _ & _ & _ & _ & _ & _ & Hnone1 & _).
  pose proof Hinv as (_ & _ & _ & _ & _ & _ & _ & Hnone & _).
  apply wp_bind. unfold read_errors. apply wp_on_errors.
  destruct (errors st1) as [errs|] eqn:He1; [|split; [exact Hst1|exit_solve]].
  apply wp_get.
  destruct (Nat.eqb (errors_sum errs) 0) eqn:Esum; cbn [negb].
  - (* no flag is set: the batch is accepted *)
    apply Nat.eqb_eq in Esum.
    destruct Hcase as [(fails & -> & Hf & Hlen & He & l & ->)
                      |(Hf & Hlen & He & Hnil)].
    2:{ exfalso. destruct kinds as [|k kinds].
        - simpl in Hlen. specialize (Hnil eq_refl).
          rewrite Hnone in Hnil by lia. discriminate Hnil.
        - destruct He as (errs' & He' & Hpos); [discriminate|].
          inversion He'; subst. lia. }
    apply wp_bind. apply wp_lift_result. cbn [py_iter].
    apply wp_bind. apply wp_get.
    apply wp_bind. unfold set_db_response_json. apply wp_modify.
    apply wp_bind. apply wp_write_response. intros st2 Hf2 He2 Hc2 Hp2.
    apply wp_bind. apply wp_json_only. intros st3 Hf3 He3 Hc3 Hp3.
    unfold record_batch. apply wp_modify.
    eapply (inv_record cfg _ Accepted st1); [exact Hinv1| |st_simpl..].
    + unfold batch_ok. cbn [batch_terminal batch_attempts].
      exists fails. repeat split; auto.
    + frame_solve.
    + frame_solve.
    + frame_solve.
    + frame_solve.
    + frame_solve.
    + frame_solve.
    + st_simpl_all. congruence.
    + st_simpl_all. cbn [is_skipped batch_terminal]. simpl. congruence.
    + frame_solve.
    + frame_solve.
    + frame_solve.
    + frame_solve.
  - (* a flag is set: the batch is skipped *)
    apply Nat.eqb_neq in Esum.
    destruct Hcase as [(fails & -> & Hf & Hlen & He & l & ->)
                      |(Hf & Hlen & He & Hnil)].
    { exfalso. inversion He; subst. apply Esum. reflexivity. }
    assert (Hk : kinds <> []).
    { intros ->. specialize (Hnil eq_refl).
      simpl in Hlen. rewrite Hnone in Hnil by lia. discriminate Hnil. }
    apply wp_bind. apply wp_on_pipeline. unfold add_skipped_db_prompt.
    apply wp_modify. unfold record_batch. apply wp_modify.
    eapply (inv_record cfg _ Skipped st1); [exact Hinv1| |st_simpl; try reflexivity..].
    + unfold batch_ok. cbn [batch_terminal batch_attempts].
      repeat split; auto. destruct kinds; [contradiction|simpl in Hlen; lia].
    + cbn [is_skipped batch_terminal]. rewrite length_app. simpl. lia.
Qed.

(** The batches of a source unit. *)
Lemma batches_wp (cfg : settings) (w : world) (pl : pipeline) (db : pystr)
  (question_data : list json) (starts : list nat) :
  forall st : run_state,
    inv cfg [] st ->
    wp (batches cfg w pl db question_data starts)
       (fun _ st' => inv cfg [] st') (fun e st' => aborted cfg e st') st.
Proof.
  induction starts as [|i starts IH]; intros st Hinv.
  - apply wp_ret. exact Hinv.
  - cbn [batches].
    destruct (firstn (max_question_length_per_prompt cfg) (skipn i question_data))
      as [|q qs].
    + apply wp_ret. exact Hinv.
    + apply wp_bind.
      eapply wp_mono; [apply process_batch_wp; exact Hinv| |auto].
      intros [] st' Hinv'. apply IH. exact Hinv'.
Qed.
Lemma response_total_counts (d : dict pyval) (r p s e c x : Z) :
  ledger_counts d r p s e c x -> response_total d = Ok (VInt (s + e + c)).
Proof.
  intros (_ & _ & Hs & He & Hc & _). unfold response_total, stats_item.
  rewrite Hs, He, Hc. reflexivity.
Qed.

Lemma wp_add_stats_response (p n : Z) (v : pyval) (Q : unit -> Stats -> Prop)
  (E : exn -> Stats -> Prop) (self : Stats) :
  dict_get (full_stats self) "response" = Some (VInt p) ->
  (forall self',
      default_stats self' = default_stats self ->
      map fst (full_stats self') = map fst (full_stats self) ->
      (forall k, k <> "real_time"%string ->
                 dict_get (full_stats self') k
                 = dict_get (dict_set (full_stats self) "response" (VInt (p + n))) k) ->
      Q tt self' /\ forall e, no_exit e -> E e self') ->
  wp (add_stats [("response"%string, VInt n); ("real_time"%string, v)]) Q E self.
Proof.
  intros Hp H. unfold wp. rewrite add_stats_cons. unfold dict_contains.
  rewrite Hp. cbn [is_number andb py_add as_int].
  set (self1 := set_full_stats self (dict_set (full_stats self) "response" (VInt (p + n)))).
  destruct (add_stats_frame [("real_time"%string, v)] self1) as [D [_ [_ [K G]]]].
  assert (H' := H (final_state (add_stats [("real_time"%string, v)] self1)) D).
  destruct H' as [HQ HE].
  { rewrite K. unfold self1. simpl. apply dict_set_keys.
    unfold dict_contains. now rewrite Hp. }
  { intros k Hk. rewrite G; [reflexivity|]. simpl. intros [Hx|[]]. now subst. }
  destruct (add_stats [("real_time"%string, v)] self1) as [[] s'|e s'] eqn:Ea;
    [exact HQ|].
  apply HE. exact (add_stats_no_exit _ _ _ _ Ea).
Qed.

Lemma closed_stats_default (self : Stats) :
  default_stats self = builtin_default -> full_stats self = default_stats self ->
  closed_stats self.
Proof.
  intros Hd Hf. unfold closed_stats. rewrite Hf, Hd. split.
  - repeat constructor; simpl; intuition discriminate.
  - exists 0%Z, 0%Z, 0%Z. repeat split; try lia; reflexivity.
Qed.

(** Adding a ledger that adds up to a ledger that adds up. *)
Lemma wp_add_stats_closed (items : dict pyval) (Q : unit -> Stats -> Prop)
  (E : exn -> Stats -> Prop) (self : Stats) :
  NoDup (map fst items) -> closed_ledger items -> closed_stats self ->
  (forall self',
      default_stats self' = default_stats self ->
      skipped_db_prompts self' = skipped_db_prompts self ->
      closed_stats self' -> Q tt self') ->
  (forall self' e, no_exit e -> E e self') ->
  wp (add_stats items) Q E self.
Proof.
  intros Hnd (s & e & u & Hs & He & Hu & L1 & L2 & L3 & L4 & L5 & L6)
         (Hnd' & s' & e' & u' & Hs' & He' & Hu' & M1 & M2 & M3 & M4 & M5 & M6) HQ HE.
  unfold wp. destruct (add_stats items self) as [[] self'|ex self'] eqn:Ea.
  - destruct (add_stats_returned items self self' Hnd Ea) as (D & _ & S & K & G & _).
    apply HQ; auto. split; [rewrite K; exact Hnd'|].
    exists (s' + s)%Z, (e' + e)%Z, (u' + u)%Z.
    split; [lia|]. split; [lia|]. split; [lia|].
    unfold ledger_counts. rewrite !G, M1, M2, M3, M4, M5, M6, L1, L2, L3, L4, L5, L6.
    cbn [merged_value is_number py_add as_int].
    repeat split; f_equal; f_equal; lia.
  - apply HE. exact (add_stats_no_exit _ _ _ _ Ea).
Qed.

Lemma upper_ledgers_frame (st st' : run_state) :
  frame st st' -> upper_ledgers st -> upper_ledgers st'.
Proof.
  intros (_ & _ & _ & _ & _ & _ & _ & _ & _ & PF & PD & OS).
  unfold upper_ledgers, closed_stats. rewrite PF, PD, OS. auto.
Qed.

Lemma inv_unit_frame (cfg : settings) (st st' : run_state) :
  frame st st' -> errors st' = errors st -> inv_unit cfg st -> inv_unit cfg st'.
Proof.
  intros Hf He (Hst & Hd & Hm & Hlim & Hc & Hu & Hs & Hnone & Hup).
  pose proof (stable_frame cfg st st' Hf Hst) as Hst'.
  pose proof (upper_ledgers_frame st st' Hf Hup) as Hup'.
  destruct Hf as (T & U & W & MT & MF & C & SK & D & _).
  unfold inv_unit, units in *. rewrite T, U, W, MF, C, SK, D, He. auto 10.
Qed.

(** A source ledger just reset starts the batches of its unit. *)
Lemma inv_start (cfg : settings) (st st' : run_state) :
  frame st st' -> errors st' = errors st ->
  full_stats (current_stats st') = default_stats (current_stats st') ->
  inv_unit cfg st -> inv cfg [] st'.
Proof.
  intros Hf He Hfull (Hst & Hd & Hm & Hlim & Hc & Hu & Hs & Hnone & Hup).
  pose proof (stable_frame cfg st st' Hf Hst) as Hst'.
  pose proof (upper_ledgers_frame st st' Hf Hup) as Hup'.
  destruct Hf as (T & U & W & MT & MF & C & SK & D & _).
  unfold inv, units in *. rewrite Hfull, T, U, W, MF, C, SK, D, He, Hd.
  change (unexpected_count []) with 0%Z. cbn [List.length].
  change (counter builtin_default "request") with 0%Z.
  split; [exact Hst'|]. split.
  { split; [rewrite D; exact Hd|]. rewrite Hfull, D, Hd. split.
    - repeat constructor; simpl; intuition discriminate.
    - exists 0%Z, 0%Z, 0%Z. repeat split; try lia; reflexivity. }
  split; [lia|]. split; [exact Hlim|]. split; [lia|]. split; [lia|].
  split; [exact Hs|]. split; [exact Hnone|exact Hup'].
Qed.

(** Writing the ledger of a source unit ends the unit. *)
Lemma inv_close (cfg : settings) (st st' : run_state) (d : dict pyval) :
  inv cfg [] st ->
  closed_ledger d ->
  counter d "request" = counter (full_stats (current_stats st)) "request" ->
  unit_ledgers (sink st') = d :: unit_ledgers (sink st) ->
  stats_ledgers (sink st') = d :: stats_ledgers (sink st) ->
  upper_ledgers st' ->
  trace st' = trace st ->
  skipped_written (sink st') = skipped_written (sink st) ->
  max_tokens_fail_counter st' = max_tokens_fail_counter st ->
  max_fail_counter st' = max_fail_counter st ->
  calls st' = calls st ->
  skipped_db_prompts (pipeline_stats st') = skipped_db_prompts (pipeline_stats st) ->
  default_stats (current_stats st') = default_stats (current_stats st) ->
  errors st' = errors st ->
  inv_unit cfg st'.
Proof.
  intros ((Htr & Hmt & Hul) & (Hd & _) & Hm & Hlim & Hc & Hu & Hs & Hnone & _)
         Hcl Hreq U SL Hup T W MT MF C SK D He.
  unfold inv_unit, stable, units in *.
  rewrite T, U, SL, W, MT, MF, C, SK, D, He.
  change (unexpected_count []) with 0%Z in Hm. cbn [List.length] in Hc.
  cbn [map sum_Z fold_right]. rewrite Hreq.
  split; [split; [exact Htr|split; [exact Hmt|constructor; assumption]]|].
  split; [exact Hd|]. split; [lia|]. split; [exact Hlim|]. split; [lia|].
  split; [unfold sum_Z in Hu; lia|]. split; [exact Hs|].
  split; [exact Hnone|exact Hup].
Qed.

(** One source unit. *)
Lemma process_source_wp (cfg : settings) (w : world) (pl : pipeline)
  (f : source_file) (st : run_state) :
  inv_unit cfg st ->
  wp (process_source cfg w pl f)
     (fun _ st' => inv_unit cfg st') (fun e st' => aborted cfg e st') st.
Proof.
  intros Hinv. pose proof Hinv as (Hst & _).
  unfold process_source.
  apply wp_bind. apply wp_on_current. unfold reset_stats. apply wp_modify.
  destruct f as [|db question_data real_time].
  { apply wp_ret. eapply inv_unit_frame; [|reflexivity|exact Hinv]. frame_solve. }
  destruct question_data as [|q qs]; [apply wp_raise; aborted_solve Hst|].
  apply wp_bind. unfold set_current_db. apply wp_modify.
  match goal with |- wp (if ?c then _ else _) _ _ _ => destruct c end.
  { apply wp_ret. eapply inv_unit_frame; [|reflexivity|exact Hinv]. frame_solve. }
  apply wp_bind. unfold set_db_response_json. apply wp_modify.
  apply wp_bind.
  destruct (max_question_length_per_prompt cfg) as [|k];
    [apply wp_raise; aborted_solve Hst|].
  eapply wp_mono; [apply batches_wp| |auto].
  { eapply inv_start; [|reflexivity|reflexivity|exact Hinv]. frame_solve. }
  intros [] st1 Hinv1.
  pose proof Hinv1 as (Hst1 & (Hd1 & Hnd1 & s & e & u & H0 & H1 & H2 & Hl1)
                       & _ & _ & _ & _ & _ & _ & Hpd1 & Hpc1 & Hoc1).
  apply wp_bind. apply wp_get.
  apply wp_bind. apply wp_lift_result. unfold get_stats.
  rewrite (response_total_counts _ _ _ _ _ _ _ Hl1).
  apply wp_bind. apply wp_on_current.
  apply (wp_add_stats_response 0 (s + e + 0));
    [unfold ledger_counts in Hl1; tauto|].
  intros self' D K G. split; [|intros ex Hne; aborted_solve Hst1].
  assert (Hl' : ledger_counts (full_stats self') (s + e + u) (s + e) s e 0 u).
  { unfold ledger_counts in *. destruct Hl1 as (L1 & L2 & L3 & L4 & L5 & L6).
    repeat split; rewrite G by key_neq;
      first [rewrite dict_get_set_same; f_equal; f_equal; lia
            |rewrite dict_get_set_other by key_neq; assumption]. }
  assert (Hcl' : closed_ledger (full_stats self')) by (exists s, e, u; auto).
  assert (Hnd' : NoDup (map fst (full_stats self'))) by (rewrite K; exact Hnd1).
  apply wp_bind. apply wp_get. st_simpl.
  apply wp_bind. apply wp_on_pipeline. st_simpl.
  apply wp_add_stats_closed; [exact Hnd'|exact Hcl'|exact Hpc1| |].
  2:{ intros pself' ex Hne. aborted_solve Hst1. }
  intros pself' PD PS PC.
  apply wp_bind. apply wp_get. st_simpl. cbn [write_stats]. unfold emit.
  apply wp_modify. st_simpl.
  eapply (inv_close cfg st1 _ (full_stats self') Hinv1); st_simpl;
    try reflexivity; try assumption.
  - rewrite (ledger_counts_request _ _ _ _ _ _ _ Hl').
    rewrite (ledger_counts_request _ _ _ _ _ _ _ Hl1). reflexivity.
  - unfold upper_ledgers. st_simpl. split; [congruence|]. split; assumption.
Qed.

Lemma sources_wp (cfg : settings) (w : world) (pl : pipeline) (fs : list source_file) :
  forall st : run_state,
    inv_unit cfg st ->
    wp (sources cfg w pl fs)
       (fun _ st' => inv_unit cfg st') (fun e st' => aborted cfg e st') st.
Proof.
  induction fs as [|f fs IH]; intros st Hinv.
  - apply wp_ret. exact Hinv.
  - cbn [sources]. apply wp_bind.
    eapply wp_mono; [apply process_source_wp; exact Hinv| |auto].
    intros [] st' Hinv'. apply IH. exact Hinv'.
Qed.

(** One pipeline. *)
Lemma process_pipeline_wp (cfg : settings) (w : world) (pl : pipeline)
  (st : run_state) :
  inv_pipeline cfg st ->
  wp (process_pipeline cfg w pl)
     (fun _ st' => inv_pipeline cfg st') (fun e st' => aborted cfg e st') st.
Proof.
  intros Hinv.
  pose proof Hinv as (Hst & Hd & Hm & Hlim & Hc & Hu & Hs & Hnone & Hpd & Hpc & Hoc).
  unfold process_pipeline.
  apply wp_bind. apply wp_on_pipeline. unfold reset_stats. apply wp_modify.
  assert (Hup : upper_ledgers
                  (mkState (overall_stats st)
                     (mkStats (default_stats (pipeline_stats st)) []
                        (default_stats (pipeline_stats st)) [])
                     (current_stats st) (max_fail_counter st)
                     (max_tokens_fail_counter st) (current_db st) (errors st)
                     (db_response_json st) (calls st) (sink st) (trace st))).
  { unfold upper_ledgers. st_simpl. split; [exact Hpd|]. split; [|exact Hoc].
    apply closed_stats_default; [exact Hpd|reflexivity]. }
  destruct (question_files pl) as [fs|].
  2:{ apply wp_ret. unfold inv_pipeline. st_simpl. split; [stable_solve Hst|].
      do 7 (split; [assumption|]). exact Hup. }
  apply wp_bind.
  eapply wp_mono; [apply sources_wp| |auto].
  { unfold inv_unit. st_simpl. split; [stable_solve Hst|].
    rewrite Nat.add_0_r. do 7 (split; [assumption|]). exact Hup. }
  intros [] st1 (Hst1 & Hd1 & Hm1 & Hlim1 & Hc1 & Hu1 & Hs1 & Hnone1
                 & Hpd1 & Hpc1 & Hoc1).
  apply wp_bind. unfold read_current_db, wp at 1.
  destruct (current_db st1) as [db|]; [|split; [exact Hst1|exit_solve]].
  apply wp_bind. apply wp_get.
  apply wp_bind.
  assert (Hwrite : forall Q : unit -> run_state -> Prop,
    (forall st2,
        stable cfg st2 ->
        trace st2 = trace st1 ->
        unit_ledgers (sink st2) = unit_ledgers (sink st1) ->
        skipped_written (sink st2)
        = skipped_written (sink st1)
          + List.length (skipped_db_prompts (pipeline_stats st1)) ->
        max_fail_counter st2 = max_fail_counter st1 ->
        calls st2 = calls st1 ->
        current_stats st2 = current_stats st1 ->
        errors st2 = errors st1 ->
        pipeline_stats st2 = pipeline_stats st1 ->
        overall_stats st2 = overall_stats st1 ->
        Q tt st2) ->
    wp (write_stats 1 (pipeline_stats st1) db) Q (fun e st' => aborted cfg e st') st1).
  { intros Q HQ. cbn [write_stats]. apply wp_bind. unfold emit. apply wp_modify.
    assert (Hcl : closed_ledger (get_stats (pipeline_stats st1)))
      by (destruct Hpc1 as (_ & H); exact H).
    destruct Hst1 as (S1 & S2 & S3).
    destruct (skipped_db_prompts (pipeline_stats st1)) as [|x l] eqn:Esk.
    - apply wp_ret. apply HQ; st_simpl; try reflexivity.
      + unfold stable. st_simpl. split; [exact S1|]. split; [exact S2|].
        constructor; assumption.
      + unfold skipped_written. simpl. lia.
    - apply wp_modify. apply HQ; st_simpl; try reflexivity.
      + unfold stable. st_simpl. split; [exact S1|]. split; [exact S2|].
        constructor; assumption.
      + unfold skipped_written. simpl. lia. }
  apply Hwrite. intros st2 Hst2 T U W MF C CS He PS OS.
  apply wp_on_overall. rewrite OS. unfold get_stats.
  destruct Hpc1 as (Hpn1 & Hpl1).
  apply wp_add_stats_closed; [exact Hpn1|exact Hpl1|exact Hoc1| |].
  2:{ intros oself' ex Hne. aborted_solve Hst2. }
  intros oself' OD OSK OC.
  unfold inv_pipeline, units in *. st_simpl.
  split; [stable_solve Hst2|].
  rewrite T, U, W, MF, C, CS, He.
  do 7 (split; [assumption|]).
  unfold upper_ledgers, closed_stats. st_simpl. rewrite PS.
  split; [exact Hpd1|]. split; [split; assumption|exact OC].
Qed.

Lemma pipelines_wp (cfg : settings) (w : world) (pls : list pipeline) :
  forall st : run_state,
    inv_pipeline cfg st ->
    wp (pipelines cfg w pls)
       (fun _ st' => inv_pipeline cfg st') (fun e st' => aborted cfg e st') st.
Proof.
  induction pls as [|pl pls IH]; intros st Hinv.
  - apply wp_ret. exact Hinv.
  - cbn [pipelines]. apply wp_bind.
    eapply wp_mono; [apply process_pipeline_wp; exact Hinv| |auto].
    intros [] st' Hinv'. apply IH. exact Hinv'.
Qed.

(** The whole run. *)
Lemma run_wp (cfg : settings) (w : world) :
  wp (run_from cfg w)
     (fun _ st' => inv_pipeline cfg st') (fun e st' => aborted cfg e st')
     (initial_state cfg).
Proof.
  unfold run_from. apply wp_bind.
  eapply wp_mono; [apply pipelines_wp| |auto].
  { unfold inv_pipeline, stable, initial_state. st_simpl.
    split; [repeat split; auto|].
    split; [reflexivity|]. split; [reflexivity|]. split; [lia|].
    split; [reflexivity|]. split; [reflexivity|]. split; [reflexivity|].
    split; [reflexivity|].
    unfold upper_ledgers. st_simpl. split; [reflexivity|].
    split; [apply closed_stats_default; reflexivity|].
    unfold closed_stats, Stats_init. st_simpl. split.
    - repeat constructor; simpl; intuition discriminate.
    - exists 0%Z, 0%Z, 0%Z. repeat split; try lia; reflexivity. }
  intros [] st (Hst & Hd & Hm & Hlim & Hc & Hu & Hs & Hnone & Hpd & Hpc & Hoc).
  apply wp_bind. unfold read_current_db, wp at 1.
  destruct (current_db st) as [db|]; [|split; [exact Hst|exit_solve]].
  apply wp_bind. apply wp_get. cbn [write_stats]. unfold emit. apply wp_modify.
  unfold inv_pipeline, units in *. st_simpl. split.
  { destruct Hst as (S1 & S2 & S3). destruct Hoc as (_ & Hcl).
    unfold stable. st_simpl. split; [exact S1|]. split; [exact S2|].
    constructor; assumption. }
  do 7 (split; [assumption|]).
  unfold upper_ledgers. st_simpl. auto.
Qed.

(** ** The batches of a source unit *)

Lemma range_from_slices (data : list json) (k : nat) :
  0 < k ->
  forall fuel start,
    List.length data - start <= fuel ->
    List.concat (map (fun i => firstn k (skipn i data))
                   (range_from fuel start (List.length data) k))
    = skipn start data /\
    Forall (fun i => i < List.length data)
           (range_from fuel start (List.length data) k).
Proof.
  intros Hk. induction fuel as [|fuel IH]; intros start Hfuel.
  - simpl. split; [|constructor]. symmetry. apply skipn_all2. lia.
  - cbn [range_from]. destruct (start <? List.length data) eqn:E.
    + apply Nat.ltb_lt in E.
      destruct (IH (start + k)) as [Hc Hf]; [lia|].
      split; [|constructor; assumption].
      cbn [map List.concat]. rewrite Hc.
      replace (start + k) with (k + start) by lia.
      rewrite <- skipn_skipn. apply firstn_skipn.
    + apply Nat.ltb_ge in E. simpl. split; [|constructor].
      symmetry. apply skipn_all2. exact E.
Qed.

(** X18.  The batch loop of a source unit cuts the questions into
    consecutive slices of [max_question_length_per_prompt] questions, the
    last one possibly shorter: the slices put together are the questions,
    none of them is empty, and so the loop never takes its exit for an
    empty slice but processes every slice in turn. *)
Theorem batches_cover_questions :
  forall (cfg : settings) (w : world) (pl : pipeline) (db : pystr)
         (question_data : list json),
    0 < max_question_length_per_prompt cfg ->
    let k := max_question_length_per_prompt cfg in
    let starts := range_from (List.length question_data) 0
                    (List.length question_data) k in
    List.concat (map (fun i => firstn k (skipn i question_data)) starts)
    = question_data /\
    Forall (fun i => 0 < List.length (firstn k (skipn i question_data)) <= k) starts /\
    batches cfg w pl db question_data starts
    = fold_right
        (fun i rest =>
           bind (process_batch cfg w pl db (firstn k (skipn i question_data)))
                (fun _ => rest))
        (ret tt) starts.
Proof.
  intros cfg w pl db data Hk k starts.
  destruct (range_from_slices data k Hk (List.length data) 0) as [Hc Hf]; [lia|].
  fold starts in Hc, Hf.
  assert (Hne : Forall (fun i => 0 < List.length (firstn k (skipn i data)) <= k) starts).
  { eapply Forall_impl; [|exact Hf]. intros i Hi. cbv beta.
    cbv beta in Hi. rewrite length_firstn, length_skipn. unfold k. lia. }
  split; [exact Hc|]. split; [exact Hne|].
  clear Hc Hf. induction Hne as [|i starts Hi Hne IH]; [reflexivity|].
  cbn [batches fold_right]. fold k.
  destruct (firstn k (skipn i data)) as [|q qs] eqn:E; [simpl in Hi; lia|].
  rewrite IH. reflexivity.
Qed.

Lemma batches_cover_questions_witness :
  List.concat (map (fun i => firstn 2 (skipn i [JInt 1; JInt 2; JInt 3]))
                 (range_from 3 0 3 2))
  = [JInt 1; JInt 2; JInt 3].
Proof.
  exact (proj1 (batches_cover_questions
                  (mkSettings "google" "model" false 3 2 2 true true [] false []
                     (fun _ _ _ => []) [])
                  recovering_world (mkPipeline [] [] None) []
                  [JInt 1; JInt 2; JInt 3] (Nat.lt_0_succ 1))).
Defined.

Lemma run_stable (cfg : settings) (w : world) :
  stable cfg (final_state (run cfg w)).
Proof.
  unfold run. apply wp_final.
  eapply wp_mono; [apply run_wp| |]; cbv beta.
  - intros [] st (H & _). exact H.
  - intros e st (H & _). exact H.
Qed.


Lemma run_returned (cfg : settings) (w : world) (st : run_state) :
  run cfg w = Returned tt st -> inv_pipeline cfg st.
Proof.
  intros H. pose proof (run_wp cfg w) as Hwp. unfold wp in Hwp.
  unfold run in H. rewrite H in Hwp. exact Hwp.
Qed.

(** ** What every run keeps *)

(** X12.  In every run, completed or aborted, each recorded batch has the
    shape its outcome tells: an accepted batch ends with its one
    successful attempt, after fewer failed attempts than the retry limit;
    a skipped batch made exactly as many attempts as the limit allows, all
    failed.  No attempt is ever counted as corrected. *)
Theorem run_batches_shaped :
  forall (cfg : settings) (w : world),
    Forall (batch_ok (max_retry_per_prompt cfg)) (trace (final_state (run cfg w))).
Proof.
  intros cfg w. destruct (run_stable cfg w) as (H & _). exact H.
Qed.

(** X13.  In every run, completed or aborted, the counter of the
    max-token reminder is zero at the end: no response of [generate] sets
    the [max_token] flag, so the reminder is never due. *)
Theorem run_reminder_never_due :
  forall (cfg : settings) (w : world),
    max_tokens_fail_counter (final_state (run cfg w)) = 0%Z.
Proof.
  intros cfg w. destruct (run_stable cfg w) as (_ & H & _). exact H.
Qed.

(** X14.  In every run, completed or aborted, the counters of each
    ledger handed to [write_stats], for a source unit, for a pipeline or
    for the run, add up: every request ended as a success, as an error or
    without a reply, the responses are the successes and the errors, and
    nothing is counted as corrected. *)
Theorem run_ledgers_closed :
  forall (cfg : settings) (w : world),
    Forall closed_ledger (stats_ledgers (sink (final_state (run cfg w)))).
Proof.
  intros cfg w. destruct (run_stable cfg w) as (_ & _ & H). exact H.
Qed.

(** X15.  The failure limit counts over the whole run: when a run
    completes, [max_fail_counter] is the number of attempts without a
    reply in all batches of all units and pipelines, and it is below the
    limit, or zero when the limit is below two. *)
Theorem run_failure_limit_cumulative :
  forall (cfg : settings) (w : world) (st : run_state),
    run cfg w = Returned tt st ->
    max_fail_counter st = unexpected_total (trace st) /\
    (unexpected_total (trace st) < Z.max 1 (max_fail_limit cfg))%Z.
Proof.
  intros cfg w st H. destruct (run_returned cfg w st H) as (_ & _ & Hm & Hlim & _).
  split; [exact Hm|]. rewrite <- Hm. exact Hlim.
Qed.

Lemma run_failure_limit_cumulative_witness :
  let st := final_state (run (example_settings 3 2) skipping_world) in
  run (example_settings 3 2) skipping_world = Returned tt st /\
  max_fail_counter st = 1%Z /\ unexpected_total (trace st) = 1%Z.
Proof.
  intros st.
  assert (Hrun : run (example_settings 3 2) skipping_world = Returned tt st)
    by (vm_compute; reflexivity).
  destruct (run_failure_limit_cumulative _ _ _ Hrun) as (H1 & _).
  split; [exact Hrun|]. rewrite <- H1. split; vm_compute; reflexivity.
Defined.

(** X16.  When a run completes, the skipped prompts written to the error
    files are as many as the batches that were skipped: every skipped
    batch is written once, with the statistics of its pipeline. *)
Theorem run_skipped_prompts_written :
  forall (cfg : settings) (w : world) (st : run_state),
    run cfg w = Returned tt st ->
    skipped_written (sink st) = skipped_batches (trace st).
Proof.
  intros cfg w st H.
  destruct (run_returned cfg w st H) as (_ & _ & _ & _ & _ & _ & Hs & _). exact Hs.
Qed.

Lemma run_skipped_prompts_written_witness :
  let st := final_state (run (example_settings 3 2) skipping_world) in
  run (example_settings 3 2) skipping_world = Returned tt st /\
  skipped_written (sink st) = 1 /\ skipped_batches (trace st) = 1.
Proof.
  intros st.
  assert (Hrun : run (example_settings 3 2) skipping_world = Returned tt st)
    by (vm_compute; reflexivity).
  pose proof (run_skipped_prompts_written _ _ _ Hrun) as H1.
  split; [exact Hrun|]. rewrite <- H1. split; vm_compute; reflexivity.
Defined.

(** X17.  When a run completes, the requests counted in the source-unit
    ledgers written are the calls made to the provider, and these are the
    attempts of the recorded batches: every call is counted as a request
    of exactly one unit. *)
Theorem run_requests_are_calls :
  forall (cfg : settings) (w : world) (st : run_state),
    run cfg w = Returned tt st ->
    sum_Z (map (fun d => counter d "request") (unit_ledgers (sink st)))
    = Z.of_nat (calls st) /\
    Z.of_nat (calls st) = attempts_total (trace st).
Proof.
  intros cfg w st H.
  destruct (run_returned cfg w st H) as (_ & _ & _ & _ & Hc & Hu & _).
  split; [exact Hu|exact Hc].
Qed.

Lemma run_requests_are_calls_witness :
  let st := final_state (run (example_settings 3 2) skipping_world) in
  run (example_settings 3 2) skipping_world = Returned tt st /\
  sum_Z (map (fun d => counter d "request") (unit_ledgers (sink st))) = 5%Z /\
  calls st = 5 /\ attempts_total (trace st) = 5%Z.
Proof.
  intros st.
  assert (Hrun : run (example_settings 3 2) skipping_world = Returned tt st)
    by (vm_compute; reflexivity).
  destruct (run_requests_are_calls _ _ _ Hrun) as (H1 & H2).
  split; [exact Hrun|]. rewrite H1, <- H2. repeat split; vm_compute; reflexivity.
Defined.


(** ** The records a run writes *)

Lemma check_db_id_loop_ge (db : pystr) (tgt : option pystr) (l : list json) :
  forall failed n : Z,
    check_db_id_loop db l tgt failed = Ok n -> (failed <= n)%Z.
Proof.
  induction l as [|r l IH]; intros failed n H.
  - inversion H. lia.
  - cbn [check_db_id_loop] in H.
    destruct (getitem_str r "source_db_id") as [src|e]; [|discriminate H].
    cbn [rbind] in H.
    destruct tgt as [t|].
    + destruct (truthy_str (Some t)).
      * destruct (getitem_str r "target_db_id") as [tg|e]; [|discriminate H].
        cbn [rbind] in H. apply IH in H.
        destruct (ne_str src db), (ne_str tg t); lia.
      * cbn [rbind] in H. apply IH in H. destruct (ne_str src db); lia.
    + cbn [rbind] in H. apply IH in H. destruct (ne_str src db); lia.
Qed.

Lemma check_db_id_loop_app (db : pystr) (tgt : option pystr) (a b : list json) :
  forall failed : Z,
    check_db_id_loop db a tgt failed = Ok failed ->
    check_db_id_loop db (a ++ b) tgt failed = check_db_id_loop db b tgt failed.
Proof.
  induction a as [|r a IH]; intros failed H; [reflexivity|].
  cbn [app check_db_id_loop] in *.
  destruct (getitem_str r "source_db_id") as [src|e]; [|discriminate H].
  cbn [rbind] in *.
  assert (Hstep : forall f2 : Z,
             (failed <= f2)%Z ->
             check_db_id_loop db a tgt f2 = Ok failed ->
             check_db_id_loop db (a ++ b) tgt f2 = check_db_id_loop db b tgt failed).
  { intros f2 Hle H2. pose proof (check_db_id_loop_ge _ _ _ _ _ H2) as Hge.
    assert (f2 = failed) by lia. subst f2. now apply IH. }
  destruct tgt as [t|].
  - destruct (truthy_str (Some t)).
    + destruct (getitem_str r "target_db_id") as [tg|e]; [|discriminate H].
      cbn [rbind] in *. apply Hstep; [|exact H].
      destruct (ne_str src db), (ne_str tg t); lia.
    + cbn [rbind] in *. apply Hstep; [|exact H]. destruct (ne_str src db); lia.
  - cbn [rbind] in *. apply Hstep; [|exact H]. destruct (ne_str src db); lia.
Qed.

Lemma check_fields_loop_app (fields : list pystr) (a b : list json) :
  check_fields_loop a fields = Ok true ->
  check_fields_loop (a ++ b) fields = check_fields_loop b fields.
Proof.
  induction a as [|r a IH]; intros H; [reflexivity|].
  cbn [app check_fields_loop] in *.
  destruct r; try discriminate H.
  destruct (negb _); [discriminate H|].
  destruct (field_missing _ _); [discriminate H|].
  now apply IH.
Qed.

Lemma checked_nil (cfg : settings) (target db : pystr) :
  checked cfg target db (JList []).
Proof. split; intros _; reflexivity. Qed.

(** Checked records stay checked when the records of a checked response
    are appended. *)
Lemma checked_extend (cfg : settings) (target db : pystr) (old : list json)
  (js : json) (records : list json) :
  checked cfg target db (JList old) ->
  checked cfg target db js ->
  py_iter js = Ok records ->
  checked cfg target db (JList (old ++ records)).
Proof.
  unfold checked, check_fields, check_db_id. intros (F1 & D1) (F2 & D2) Hi.
  rewrite Hi in F2, D2. cbn [py_iter rbind] in *. split; intros H.
  - rewrite check_fields_loop_app by auto. auto.
  - rewrite check_db_id_loop_app by auto. auto.
Qed.
Ltac quiet_solve :=
  unfold quiet, writes_ok in *; st_simpl_all;
  repeat match goal with H : _ /\ _ |- _ => destruct H end;
  repeat match goal with
         | H : sink ?a = _ |- context [sink ?a] => rewrite H
         | H : db_response_json ?a = _ |- context [db_response_json ?a] => rewrite H
         | H : errors ?a = _ |- context [errors ?a] => rewrite H
         end;
  st_simpl;
  first [assumption | reflexivity | congruence
        | repeat split; first [assumption | reflexivity | congruence]].

Lemma quiet_refl (st : run_state) : quiet st st.
Proof. quiet_solve. Qed.

Lemma quiet_trans (a b c : run_state) : quiet a b -> quiet b c -> quiet a c.
Proof. intros H1 H2. quiet_solve. Qed.

(** Whatever is done on one of the three ledgers is quiet. *)
Lemma wp_on_current_quiet {A : Type} (m : M Stats A) (Q : A -> run_state -> Prop)
  (E : exn -> run_state -> Prop) (st : run_state) :
  (forall st', quiet st st' -> (forall a, Q a st') /\ (forall e, E e st')) ->
  wp (on_current m) Q E st.
Proof.
  intros H. unfold wp, on_current.
  destruct (m (current_stats st)); apply H; quiet_solve.
Qed.

Lemma wp_on_pipeline_quiet {A : Type} (m : M Stats A) (Q : A -> run_state -> Prop)
  (E : exn -> run_state -> Prop) (st : run_state) :
  (forall st', quiet st st' -> (forall a, Q a st') /\ (forall e, E e st')) ->
  wp (on_pipeline m) Q E st.
Proof.
  intros H. unfold wp, on_pipeline.
  destruct (m (pipeline_stats st)); apply H; quiet_solve.
Qed.

Lemma wp_on_overall_quiet {A : Type} (m : M Stats A) (Q : A -> run_state -> Prop)
  (E : exn -> run_state -> Prop) (st : run_state) :
  (forall st', quiet st st' -> (forall a, Q a st') /\ (forall e, E e st')) ->
  wp (on_overall m) Q E st.
Proof.
  intros H. unfold wp, on_overall.
  destruct (m (overall_stats st)); apply H; quiet_solve.
Qed.

(** Reading a flag of the errors is quiet. *)
Lemma wp_errors_flag_quiet (key : string) (Q : bool -> run_state -> Prop)
  (E : exn -> run_state -> Prop) (st : run_state) :
  (forall st', quiet st st' -> (forall b, Q b st') /\ (forall e, E e st')) ->
  wp (errors_flag key) Q E st.
Proof.
  intros H. unfold wp, errors_flag, on_errors, flag.
  destruct (errors st) as [errs|] eqn:He; [|apply H; apply quiet_refl].
  destruct (dict_get errs key); apply H; quiet_solve.
Qed.

(** The end of a failed attempt is quiet and asks for the next attempt. *)
Lemma attempt_failed_quiet (st : run_state) :
  wp attempt_failed
     (fun res st' => fst res = Next /\ quiet st st')
     (fun _ st' => quiet st st') st.
Proof.
  unfold attempt_failed.
  apply wp_bind. apply wp_errors_flag_quiet. intros st1 H1.
  split; [intros unexpected|intros _; exact H1].
  apply wp_bind.
  assert (Hrest : forall st2,
             quiet st st2 ->
             wp (bind (errors_flag "max_token") (fun max_token =>
                   bind (if max_token
                         then bind get (fun st =>
                                let n := (max_tokens_fail_counter st + 1)%Z in
                                if (MAX_TOKENS_FAIL_REMINDER <=? n)%Z
                                then set_max_tokens_fail_counter 0
                                else set_max_tokens_fail_counter n)
                         else ret tt)
                        (fun _ => ret (Next, if unexpected then AttemptUnexpected
                                             else AttemptError))))
                (fun res st' => fst res = Next /\ quiet st st')
                (fun _ st' => quiet st st') st2).
  { intros st2 H2. apply wp_bind. apply wp_errors_flag_quiet. intros st3 H3.
    pose proof (quiet_trans _ _ _ H2 H3) as H23.
    split; [intros max_token|intros _; exact H23].
    apply wp_bind. destruct max_token.
    - apply wp_bind. apply wp_get. cbv zeta.
      destruct (MAX_TOKENS_FAIL_REMINDER <=? max_tokens_fail_counter st3 + 1)%Z;
        unfold set_max_tokens_fail_counter; apply wp_modify; apply wp_ret;
        (split; [reflexivity|quiet_solve]).
    - apply wp_ret. apply wp_ret. split; [reflexivity|exact H23]. }
  destruct unexpected; cbn [negb].
  - apply wp_ret. apply Hrest. exact H1.
  - apply wp_on_current_quiet. intros st2 H2.
    pose proof (quiet_trans _ _ _ H1 H2) as H12.
    split; [intros []|intros _; exact H12]. apply Hrest. exact H12.
Qed.

Lemma check_db_id_nonneg (db : pystr) (js : json) (tgt : option pystr) (n : Z) :
  check_db_id db js tgt = Ok n -> (0 <= n)%Z.
Proof.
  unfold check_db_id. destruct (py_iter js) as [l|e]; [|discriminate].
  cbn [rbind]. apply check_db_id_loop_ge.
Qed.

(** The structural checks on a fresh error set: no flag is set only when
    the checks that are switched on have passed. *)
Lemma check_structure_checked (cfg : settings) (pl : pipeline) (db : pystr) (js : json) :
  wp (check_structure cfg pl db js)
     (fun _ e' => (e' = DEFAULT_ERRORS /\ checked cfg (target_db_id pl) db js) \/
                  e' = dict_set DEFAULT_ERRORS "fields_mismatch" true \/
                  e' = dict_set DEFAULT_ERRORS "db_id_matching" true)
     (fun _ _ => True) DEFAULT_ERRORS.
Proof.
  unfold check_structure.
  assert (Hsecond :
    (fields_checking cfg = true -> check_fields js (fields_to_check cfg) = Ok true) ->
    wp (bind (flag "fields_mismatch") (fun fm =>
          if negb fm && db_id_matching cfg then
            bind (lift_result (check_db_id db js (Some (target_db_id pl))))
              (fun n => if (0 <? n)%Z
                        then modify (fun e => dict_set e "db_id_matching" true)
                        else ret tt)
          else ret tt))
       (fun _ e' => (e' = DEFAULT_ERRORS /\ checked cfg (target_db_id pl) db js) \/
                    e' = dict_set DEFAULT_ERRORS "fields_mismatch" true \/
                    e' = dict_set DEFAULT_ERRORS "db_id_matching" true)
       (fun _ _ => True) DEFAULT_ERRORS).
  { intros Hf. apply wp_bind. apply (wp_flag _ false); [reflexivity|].
    cbn [negb andb]. destruct (db_id_matching cfg) eqn:Ed.
    - apply wp_bind. apply wp_lift_result.
      destruct (check_db_id db js (Some (target_db_id pl))) as [n|e] eqn:Ec;
        [|exact I].
      destruct (0 <? n)%Z eqn:En; [apply wp_modify; auto|].
      apply wp_ret. left. split; [reflexivity|]. split; [exact Hf|]. intros _.
      apply Z.ltb_ge in En. pose proof (check_db_id_nonneg _ _ _ _ Ec).
      rewrite Ec. f_equal. lia.
    - apply wp_ret. left. split; [reflexivity|]. split; [exact Hf|].
      intros H. congruence. }
  apply wp_bind.
  destruct (fields_checking cfg) eqn:Ef.
  - apply wp_bind. apply wp_lift_result.
    destruct (check_fields js (fields_to_check cfg)) as [ok|e] eqn:Ec; [|exact I].
    destruct ok; cbn [negb].
    + apply wp_ret. apply Hsecond. intros _. reflexivity.
    + apply wp_modify. apply wp_bind. apply (wp_flag _ true); [reflexivity|].
      apply wp_ret. auto.
  - apply wp_ret. apply Hsecond. intros H. discriminate H.
Qed.
(** The validation of a decoded response that no earlier check flagged:
    the attempt loop is left only with a checked response. *)
Lemma validate_structure_checked (cfg : settings) (pl : pipeline) (db : pystr)
  (js : json) (fixed : option bool) (st : run_state) :
  errors st = Some DEFAULT_ERRORS ->
  wp (validate_structure cfg pl db js fixed)
     (fun res st' =>
        sink st' = sink st /\ db_response_json st' = db_response_json st /\
        match fst res with
        | Break => checked cfg (target_db_id pl) db js
        | Next => exists errs, errors st' = Some errs /\ 0 < errors_sum errs
        end)
     (fun _ st' => sink st' = sink st /\ db_response_json st' = db_response_json st)
     st.
Proof.
  intros He. unfold validate_structure.
  apply wp_bind. apply wp_on_errors. rewrite He.
  eapply wp_mono; [apply check_structure_checked| |intros ex e' _; st_simpl; auto].
  intros [] e' Hcase. cbv beta.
  assert (Hfail : forall errs : errors_t,
    0 < errors_sum errs ->
    wp attempt_failed
       (fun res st' =>
          sink st' = sink st /\ db_response_json st' = db_response_json st /\
          match fst res with
          | Break => checked cfg (target_db_id pl) db js
          | Next => exists errs, errors st' = Some errs /\ 0 < errors_sum errs
          end)
       (fun _ st' => sink st' = sink st /\ db_response_json st' = db_response_json st)
       (mkState (overall_stats st) (pipeline_stats st) (current_stats st)
          (max_fail_counter st) (max_tokens_fail_counter st) (current_db st)
          (Some errs) (db_response_json st) (calls st) (sink st) (trace st))).
  { intros errs Hsum.
    eapply wp_mono; [apply attempt_failed_quiet| |intros ex st' Hq; quiet_solve].
    intros res st' (Hn & Hq). rewrite Hn.
    split; [quiet_solve|]. split; [quiet_solve|].
    exists errs. split; [quiet_solve|exact Hsum]. }
  destruct Hcase as [(-> & Hck) | [-> | ->]].
  - apply wp_bind. unfold errors_flag. apply wp_on_errors. st_simpl.
    apply (wp_flag _ false); [reflexivity|].
    apply wp_bind. apply wp_on_errors. st_simpl.
    apply (wp_flag _ false); [reflexivity|]. cbn [negb andb].
    destruct fixed as [[|]|]; apply wp_bind; apply wp_on_current_quiet;
      intros st1 H1; (split; [intros []|intros _; quiet_solve]);
      apply wp_ret; st_simpl; (split; [quiet_solve|split; [quiet_solve|exact Hck]]).
  - apply wp_bind. unfold errors_flag. apply wp_on_errors. st_simpl.
    apply (wp_flag _ true); [reflexivity|].
    apply wp_bind. apply wp_on_errors. st_simpl.
    apply (wp_flag _ false); [reflexivity|]. cbn [negb andb].
    apply Hfail. vm_compute. lia.
  - apply wp_bind. unfold errors_flag. apply wp_on_errors. st_simpl.
    apply (wp_flag _ false); [reflexivity|].
    apply wp_bind. apply wp_on_errors. st_simpl.
    apply (wp_flag _ true); [reflexivity|]. cbn [negb andb].
    apply Hfail. vm_compute. lia.
Qed.

(** Writing the records keeps the files checked when the records are. *)
Lemma wp_write_response_checked (cfg : settings) (pl : pipeline) (j : bool)
  (db : pystr) (t : option pystr) (Q : unit -> run_state -> Prop)
  (E : exn -> run_state -> Prop) (st : run_state) :
  writes_ok cfg st -> records_ok cfg pl db st ->
  (forall st', writes_ok cfg st' ->
               db_response_json st' = db_response_json st ->
               errors st' = errors st -> Q tt st') ->
  wp (write_response j db t) Q E st.
Proof.
  intros Hw (Hin & Hr) H. unfold wp, write_response, bind, get, emit, modify.
  apply H; try reflexivity. unfold writes_ok. st_simpl.
  constructor; [|exact Hw]. cbn [event_ok]. exists pl. auto.
Qed.

Lemma wp_json_only_checked (cfg : settings) (pl : pipeline) (b j : bool)
  (db : pystr) (t : option pystr) (Q : unit -> run_state -> Prop)
  (E : exn -> run_state -> Prop) (st : run_state) :
  writes_ok cfg st -> records_ok cfg pl db st ->
  (forall st', writes_ok cfg st' ->
               db_response_json st' = db_response_json st ->
               errors st' = errors st -> Q tt st') ->
  wp (if b then write_response j db t else ret tt) Q E st.
Proof.
  intros Hw Hr H. destruct b.
  - now apply (wp_write_response_checked cfg pl).
  - apply wp_ret. apply H; auto.
Qed.

Lemma records_ok_same (cfg : settings) (pl : pipeline) (db : pystr)
  (st st' : run_state) :
  db_response_json st' = db_response_json st ->
  records_ok cfg pl db st -> records_ok cfg pl db st'.
Proof. unfold records_ok. intros ->. auto. Qed.

(** One attempt writes checked records only, and leaves the attempt loop
    only with a checked response. *)
Lemma attempt_checked (cfg : settings) (w : world) (pl : pipeline) (db : pystr)
  (rv : response_var) (st : run_state) :
  writes_ok cfg st -> records_ok cfg pl db st ->
  wp (attempt cfg w pl db rv)
     (fun res st' =>
        writes_ok cfg st' /\ db_response_json st' = db_response_json st /\
        match fst (fst res) with
        | Break =>
            exists js, snd (fst res) = ResponseJson js /\
                       checked cfg (target_db_id pl) db js
        | Next => exists errs, errors st' = Some errs /\ 0 < errors_sum errs
        end)
     (fun _ st' => writes_ok cfg st') st.
Proof.
  intros Hw Hr. unfold attempt.
  apply wp_bind. unfold set_errors. apply wp_modify.
  apply wp_bind. apply wp_on_current_quiet. intros st1 H1.
  split; [intros []|intros _; quiet_solve].
  assert (Hw1 : writes_ok cfg st1) by quiet_solve.
  assert (Hd1 : db_response_json st1 = db_response_json st) by quiet_solve.
  assert (He1 : errors st1 = Some DEFAULT_ERRORS) by quiet_solve.
  clear H1.
  apply wp_bind. unfold next_call, wp at 1. st_simpl.
  assert (Hfail : forall stA errs rv',
    writes_ok cfg stA ->
    db_response_json stA = db_response_json st ->
    errors stA = Some errs ->
    0 < errors_sum errs ->
    wp (bind attempt_failed (fun r => ret (fst r, rv', snd r)))
       (fun res st' =>
          writes_ok cfg st' /\ db_response_json st' = db_response_json st /\
          match fst (fst res) with
          | Break =>
              exists js, snd (fst res) = ResponseJson js /\
                         checked cfg (target_db_id pl) db js
          | Next => exists errs, errors st' = Some errs /\ 0 < errors_sum errs
          end)
       (fun _ st' => writes_ok cfg st') stA).
  { intros stA errs rv' HwA HdA HeA Hsum. apply wp_bind.
    eapply wp_mono; [apply attempt_failed_quiet| |intros ex st' Hq; quiet_solve].
    intros res st' (Hn & Hq). apply wp_ret. st_simpl. rewrite Hn.
    split; [quiet_solve|]. split; [quiet_solve|].
    exists errs. split; [quiet_solve|exact Hsum]. }
  destruct (generate (lower (model_origin cfg)) (provider w (calls st1)))
    as [rd|msg] eqn:Eg.
  - (* the provider replied *)
    apply wp_bind. apply (wp_write_response_checked cfg pl);
      [quiet_solve|eapply records_ok_same; [|exact Hr]; st_simpl; exact Hd1|].
    intros st2 Hw2 Hd2 He2. st_simpl_all.
    apply wp_bind. apply (wp_json_only_checked cfg pl);
      [exact Hw2|eapply records_ok_same; [|exact Hr]; congruence|].
    intros st3 Hw3 Hd3 He3.
    apply wp_bind. apply wp_on_current_quiet. intros st4 H4.
    split; [intros []|intros _; quiet_solve].
    assert (Hw4 : writes_ok cfg st4) by quiet_solve.
    assert (Hd4 : db_response_json st4 = db_response_json st) by quiet_solve.
    assert (He4 : errors st4 = Some DEFAULT_ERRORS) by quiet_solve.
    clear H4.
    apply wp_bind. apply wp_on_errors. rewrite He4.
    destruct (check_special_errors_generated (response rd) (finish_reason rd)
                DEFAULT_ERRORS (generate_finish_reason _ _ _ Eg)) as [Ec|[Ec|Ec]];
      unfold wp at 1; rewrite Ec.
    + (* the response passed the classifier *)
      cbv beta iota. apply wp_bind. apply wp_on_errors. st_simpl.
      destruct (validate_json_bracket_cases (recursion_depth w) (response rd)
                  DEFAULT_ERRORS) as [[l Ev]|[Ev|[Ev|[ex [Hne Ev]]]]];
        unfold wp at 1; rewrite Ev; cbv beta iota; cbn [fst snd].
      * apply wp_bind.
        eapply wp_mono;
          [apply validate_structure_checked; reflexivity
          | |intros ex st' (Hs & Hd); quiet_solve].
        intros res st' (Hs & Hd & Hcase). apply wp_ret. st_simpl.
        split; [quiet_solve|]. split; [quiet_solve|].
        destruct (fst res); [|exact Hcase].
        exists (JList l). split; [reflexivity|exact Hcase].
      * apply Hfail with (errs := dict_set DEFAULT_ERRORS "invalid_escape" true);
          [quiet_solve|quiet_solve|reflexivity|vm_compute; lia].
      * apply Hfail with (errs := dict_set DEFAULT_ERRORS "json_decode" true);
          [quiet_solve|quiet_solve|reflexivity|vm_compute; lia].
      * quiet_solve.
    + apply Hfail with (errs := dict_set DEFAULT_ERRORS "empty_output" true);
        [quiet_solve|quiet_solve|reflexivity|vm_compute; lia].
    + apply Hfail with (errs := dict_set DEFAULT_ERRORS "recitation" true);
        [quiet_solve|quiet_solve|reflexivity|vm_compute; lia].
  - (* the provider failed *)
    apply wp_bind. apply wp_on_errors. st_simpl. rewrite He1. apply wp_modify.
    apply wp_bind. apply wp_on_current_quiet. intros st2 H2.
    split; [intros []|intros _; quiet_solve].
    apply wp_bind. apply wp_get.
    apply wp_bind. unfold set_max_fail_counter. apply wp_modify.
    apply wp_bind.
    destruct (max_fail_limit cfg <=? max_fail_counter st2 + 1)%Z.
    { unfold max_fail_exit. apply wp_raise. quiet_solve. }
    apply wp_ret.
    apply Hfail with (errs := dict_set DEFAULT_ERRORS "unexpected" true);
      [quiet_solve|quiet_solve|quiet_solve|vm_compute; lia].
Qed.
(** The attempt loop: when it ends with no flag set, its response is
    checked. *)
Lemma attempts_checked (cfg : settings) (w : world) (pl : pipeline) (db : pystr)
  (n : nat) :
  forall (rv : response_var) (kinds : list attempt_kind) (st : run_state),
    writes_ok cfg st -> records_ok cfg pl db st ->
    (n = 0 -> errors st = None) ->
    wp (attempts cfg w pl db n rv kinds)
       (fun res st' =>
          writes_ok cfg st' /\ db_response_json st' = db_response_json st /\
          (n = 0 -> errors st' = None) /\
          forall errs,
            errors st' = Some errs -> errors_sum errs = 0 ->
            exists js, fst res = ResponseJson js /\
                       checked cfg (target_db_id pl) db js)
       (fun _ st' => writes_ok cfg st') st.
Proof.
  assert (Hgen : forall (rv : response_var) (kinds : list attempt_kind)
                        (st : run_state),
    writes_ok cfg st -> records_ok cfg pl db st ->
    (n = 0 -> forall errs, errors st = Some errs -> errors_sum errs = 0 ->
              exists js, rv = ResponseJson js /\
                         checked cfg (target_db_id pl) db js) ->
    wp (attempts cfg w pl db n rv kinds)
       (fun res st' =>
          writes_ok cfg st' /\ db_response_json st' = db_response_json st /\
          forall errs,
            errors st' = Some errs -> errors_sum errs = 0 ->
            exists js, fst res = ResponseJson js /\
                       checked cfg (target_db_id pl) db js)
       (fun _ st' => writes_ok cfg st') st).
  { induction n as [|n IH]; intros rv kinds st Hw Hr H0.
    - apply wp_ret. cbn [fst]. split; [exact Hw|]. split; [reflexivity|].
      exact (H0 eq_refl).
    - cbn [attempts]. apply wp_bind.
      eapply wp_mono; [apply (attempt_checked cfg w pl db rv st Hw Hr)| |auto].
      intros [[ex rv'] k] st' (Hw' & Hd' & Hcase). cbn [fst snd] in *.
      destruct ex.
      + destruct Hcase as (js & -> & Hck). apply wp_ret. cbn [fst].
        split; [exact Hw'|]. split; [exact Hd'|]. intros errs _ _. eauto.
      + destruct Hcase as (errs' & He' & Hsum).
        eapply wp_mono;
          [apply (IH rv' (kinds ++ [k]) st' Hw' (records_ok_same _ _ _ _ _ Hd' Hr))
          | |auto].
        * intros _ errs He Hz. rewrite He' in He. inversion He; subst. lia.
        * intros res st2 (Hw2 & Hd2 & Hv2). cbv beta.
          split; [exact Hw2|]. split; [congruence|exact Hv2]. }
  intros rv kinds st Hw Hr H0. destruct n as [|n].
  - apply wp_ret. cbn [fst]. split; [exact Hw|]. split; [reflexivity|].
    split; [exact H0|].
    intros errs He. rewrite (H0 eq_refl) in He. discriminate He.
  - eapply wp_mono; [apply (Hgen rv kinds st Hw Hr)| |auto].
    + intros Hn. discriminate Hn.
    + intros res st' (Hw' & Hd' & Hv'). cbv beta.
      split; [exact Hw'|]. split; [exact Hd'|]. split; [|exact Hv'].
      intros Hn. discriminate Hn.
Qed.

(** One batch keeps the files and the records checked. *)
Lemma process_batch_checked (cfg : settings) (w : world) (pl : pipeline) (db : pystr)
  (current_questions : list json) (st : run_state) :
  writes_ok cfg st -> records_ok cfg pl db st ->
  (max_retry_per_prompt cfg = 0 -> errors st = None) ->
  wp (process_batch cfg w pl db current_questions)
     (fun _ st' =>
        writes_ok cfg st' /\ records_ok cfg pl db st' /\
        (max_retry_per_prompt cfg = 0 -> errors st' = None))
     (fun _ st' => writes_ok cfg st') st.
Proof.
  intros Hw Hr H0. unfold process_batch.
  apply wp_bind.
  eapply wp_mono;
    [apply (attempts_checked cfg w pl db (max_retry_per_prompt cfg) ResponseNone []
              st Hw Hr H0)
    | |auto].
  intros [rv kinds] st1 (Hw1 & Hd1 & Hn1 & Hv1). cbn [fst snd] in *.
  pose proof (records_ok_same _ _ _ _ _ Hd1 Hr) as Hr1.
  apply wp_bind. unfold read_errors. apply wp_on_errors.
  destruct (errors st1) as [errs|] eqn:He1; [|exact Hw1].
  apply wp_get.
  assert (Hretry : max_retry_per_prompt cfg <> 0).
  { intros Hn. specialize (Hn1 Hn). discriminate Hn1. }
  destruct (Nat.eqb (errors_sum errs) 0) eqn:Esum; cbn [negb].
  - (* no flag is set: the batch is accepted *)
    apply Nat.eqb_eq in Esum.
    destruct (Hv1 errs eq_refl Esum) as (js & -> & Hck).
    apply wp_bind. apply wp_lift_result.
    destruct (py_iter js) as [records|e] eqn:Ei; [|quiet_solve].
    apply wp_bind. apply wp_get.
    apply wp_bind. unfold set_db_response_json. apply wp_modify.
    assert (Hext : checked cfg (target_db_id pl) db
                     (JList (db_response_json st1 ++ records))).
    { destruct Hr1 as (_ & Hold). eapply checked_extend; eauto. }
    apply wp_bind. apply (wp_write_response_checked cfg pl);
      [quiet_solve|split; [apply Hr|st_simpl; exact Hext]|].
    intros st2 Hw2 Hd2 He2. st_simpl_all.
    apply wp_bind. apply (wp_json_only_checked cfg pl);
      [exact Hw2|split; [apply Hr|rewrite Hd2; exact Hext]|].
    intros st3 Hw3 Hd3 He3.
    unfold record_batch. apply wp_modify.
    split; [quiet_solve|]. split; [|intros Hn; contradiction].
    split; [apply Hr|]. st_simpl. rewrite Hd3, Hd2. exact Hext.
  - (* a flag is set: the batch is skipped *)
    apply wp_bind. apply wp_on_pipeline_quiet. intros st2 H2.
    split; [intros []|intros _; quiet_solve].
    unfold record_batch. apply wp_modify.
    split; [quiet_solve|]. split; [|intros Hn; contradiction].
    eapply records_ok_same; [|exact Hr1]. quiet_solve.
Qed.

Lemma batches_checked (cfg : settings) (w : world) (pl : pipeline) (db : pystr)
  (question_data : list json) (starts : list nat) :
  forall st : run_state,
    writes_ok cfg st -> records_ok cfg pl db st ->
    (max_retry_per_prompt cfg = 0 -> errors st = None) ->
    wp (batches cfg w pl db question_data starts)
       (fun _ st' =>
          writes_ok cfg st' /\ (max_retry_per_prompt cfg = 0 -> errors st' = None))
       (fun _ st' => writes_ok cfg st') st.
Proof.
  induction starts as [|i starts IH]; intros st Hw Hr H0.
  - apply wp_ret. auto.
  - cbn [batches].
    destruct (firstn (max_question_length_per_prompt cfg) (skipn i question_data))
      as [|q qs].
    + apply wp_ret. auto.
    + apply wp_bind.
      eapply wp_mono; [apply process_batch_checked; assumption| |auto].
      intros [] st' (Hw' & Hr' & H0'). apply IH; assumption.
Qed.

(** One source unit. *)
Lemma process_source_checked (cfg : settings) (w : world) (pl : pipeline)
  (f : source_file) (st : run_state) :
  In pl (data cfg) -> writes_ok cfg st ->
  (max_retry_per_prompt cfg = 0 -> errors st = None) ->
  wp (process_source cfg w pl f)
     (fun _ st' =>
        writes_ok cfg st' /\ (max_retry_per_prompt cfg = 0 -> errors st' = None))
     (fun _ st' => writes_ok cfg st') st.
Proof.
  intros Hin Hw H0. unfold process_source.
  apply wp_bind. apply wp_on_current_quiet. intros st1 H1.
  split; [intros []|intros _; quiet_solve].
  assert (Hw1 : writes_ok cfg st1) by quiet_solve.
  assert (He1 : errors st1 = errors st) by quiet_solve.
  destruct f as [|db question_data real_time].
  { apply wp_ret. split; [exact Hw1|]. rewrite He1. exact H0. }
  destruct question_data as [|q qs]; [apply wp_raise; exact Hw1|].
  apply wp_bind. unfold set_current_db. apply wp_modify.
  match goal with |- wp (if ?c then _ else _) _ _ _ => destruct c end.
  { apply wp_ret. st_simpl. split; [exact Hw1|]. rewrite He1. exact H0. }
  apply wp_bind. unfold set_db_response_json. apply wp_modify.
  apply wp_bind.
  destruct (max_question_length_per_prompt cfg) as [|k];
    [apply wp_raise; exact Hw1|].
  eapply wp_mono; [apply (batches_checked cfg w pl db)| |auto].
  { exact Hw1. }
  { split; [exact Hin|]. st_simpl. apply checked_nil. }
  { st_simpl. rewrite He1. exact H0. }
  intros [] st2 (Hw2 & H02).
  apply wp_bind. apply wp_get.
  apply wp_bind. apply wp_lift_result.
  destruct (response_total (get_stats (current_stats st2))) as [total|e];
    [|exact Hw2].
  apply wp_bind. apply wp_on_current_quiet. intros st3 H3.
  split; [intros []|intros _; quiet_solve].
  apply wp_bind. apply wp_get.
  apply wp_bind. apply wp_on_pipeline_quiet. intros st4 H4.
  split; [intros []|intros _; quiet_solve].
  apply wp_bind. apply wp_get. cbn [write_stats]. unfold emit. apply wp_modify.
  split.
  - unfold writes_ok. st_simpl. constructor; [exact I|]. quiet_solve.
  - st_simpl. intros Hn. specialize (H02 Hn). quiet_solve.
Qed.

Lemma sources_checked (cfg : settings) (w : world) (pl : pipeline)
  (fs : list source_file) :
  forall st : run_state,
    In pl (data cfg) -> writes_ok cfg st ->
    (max_retry_per_prompt cfg = 0 -> errors st = None) ->
    wp (sources cfg w pl fs)
       (fun _ st' =>
          writes_ok cfg st' /\ (max_retry_per_prompt cfg = 0 -> errors st' = None))
       (fun _ st' => writes_ok cfg st') st.
Proof.
  induction fs as [|f fs IH]; intros st Hin Hw H0.
  - apply wp_ret. auto.
  - cbn [sources]. apply wp_bind.
    eapply wp_mono; [apply process_source_checked; assumption| |auto].
    intros [] st' (Hw' & H0'). apply IH; assumption.
Qed.

(** Writing a ledger writes no records. *)
Lemma wp_write_stats_checked (cfg : settings) (level : nat) (stats : Stats)
  (db : pystr) (Q : unit -> run_state -> Prop) (E : exn -> run_state -> Prop)
  (st : run_state) :
  writes_ok cfg st ->
  (forall st', writes_ok cfg st' -> errors st' = errors st -> Q tt st') ->
  wp (write_stats level stats db) Q E st.
Proof.
  intros Hw H. unfold write_stats, emit.
  assert (Hone : forall ev st1,
             event_ok cfg ev -> writes_ok cfg st1 -> errors st1 = errors st ->
             Q tt (mkState (overall_stats st1) (pipeline_stats st1)
                     (current_stats st1) (max_fail_counter st1)
                     (max_tokens_fail_counter st1) (current_db st1) (errors st1)
                     (db_response_json st1) (calls st1) (ev :: sink st1)
                     (trace st1))).
  { intros ev st1 Hev Hw1 He1. apply H; [|exact He1].
    unfold writes_ok. st_simpl. constructor; assumption. }
  destruct level as [|[|[|level]]].
  - apply wp_modify. now apply Hone.
  - apply wp_bind. apply wp_modify.
    destruct (skipped_db_prompts stats).
    + apply wp_ret. now apply Hone.
    + apply wp_modify. apply Hone; [exact I| |reflexivity].
      unfold writes_ok. st_simpl. constructor; [exact I|exact Hw].
  - apply wp_modify. now apply Hone.
  - apply wp_ret. now apply H.
Qed.

(** One pipeline. *)
Lemma process_pipeline_checked (cfg : settings) (w : world) (pl : pipeline)
  (st : run_state) :
  In pl (data cfg) -> writes_ok cfg st ->
  (max_retry_per_prompt cfg = 0 -> errors st = None) ->
  wp (process_pipeline cfg w pl)
     (fun _ st' =>
        writes_ok cfg st' /\ (max_retry_per_prompt cfg = 0 -> errors st' = None))
     (fun _ st' => writes_ok cfg st') st.
Proof.
  intros Hin Hw H0. unfold process_pipeline.
  apply wp_bind. apply wp_on_pipeline_quiet. intros st1 H1.
  split; [intros []|intros _; quiet_solve].
  assert (Hw1 : writes_ok cfg st1) by quiet_solve.
  assert (He1 : errors st1 = errors st) by quiet_solve.
  destruct (question_files pl) as [fs|].
  2:{ apply wp_ret. split; [exact Hw1|]. rewrite He1. exact H0. }
  apply wp_bind.
  eapply wp_mono; [apply sources_checked| |auto]; [exact Hin|exact Hw1| |].
  { rewrite He1. exact H0. }
  intros [] st2 (Hw2 & H02).
  apply wp_bind. unfold read_current_db, wp at 1.
  destruct (current_db st2) as [db|]; [|exact Hw2].
  apply wp_bind. apply wp_get.
  apply wp_bind. apply (wp_write_stats_checked cfg); [exact Hw2|].
  intros st3 Hw3 He3.
  apply wp_on_overall_quiet. intros st4 H4.
  split; [intros []|intros _; quiet_solve].
  split; [quiet_solve|]. intros Hn. specialize (H02 Hn). quiet_solve.
Qed.

Lemma pipelines_checked (cfg : settings) (w : world) (pls : list pipeline) :
  forall st : run_state,
    incl pls (data cfg) -> writes_ok cfg st ->
    (max_retry_per_prompt cfg = 0 -> errors st = None) ->
    wp (pipelines cfg w pls)
       (fun _ st' => writes_ok cfg st') (fun _ st' => writes_ok cfg st') st.
Proof.
  induction pls as [|pl pls IH]; intros st Hin Hw H0.
  - apply wp_ret. exact Hw.
  - cbn [pipelines]. apply wp_bind.
    eapply wp_mono;
      [apply process_pipeline_checked; [apply Hin; now left|exact Hw|exact H0]
      | |auto].
    intros [] st' (Hw' & H0'). apply IH; [|exact Hw'|exact H0'].
    intros x Hx. apply Hin. now right.
Qed.

(** X20.  A run writes checked records only: every list of records that
    reaches a records file, at any moment of a run that returns, raises or
    exits, is one on which the field check of the settings, when switched
    on, returns [True], and on which the identity check, when switched on,
    counts no mismatch with the source unit of the file and the target of
    a pipeline of the settings. *)
Theorem run_writes_checked_records (cfg : settings) (w : world) :
  Forall (event_ok cfg) (sink (final_state (run cfg w))).
Proof.
  unfold run. apply (wp_final (run_from cfg w) (fun st => writes_ok cfg st)).
  unfold run_from. apply wp_bind.
  eapply wp_mono; [apply pipelines_checked| |auto].
  - apply incl_refl.
  - constructor.
  - reflexivity.
  - intros [] st Hw.
    apply wp_bind. unfold read_current_db, wp at 1.
    destruct (current_db st) as [db|]; [|exact Hw].
    apply wp_bind. apply wp_get.
    apply (wp_write_stats_checked cfg); auto.
Qed.
(** ** The records of a source unit only grow *)

Ltac log_solve :=
  unfold unit_log, units_log in *; quiet_solve.

Lemma extends_app (db : pystr) (records more : list json)
  (earlier : pystr * list json) :
  extends db records earlier -> extends db (records ++ more) earlier.
Proof.
  intros (Hdb & m & ->). split; [exact Hdb|].
  exists (m ++ more). now rewrite app_assoc.
Qed.

(** Whatever is done on the errors leaves the files and the records. *)
Lemma wp_on_errors_still {A : Type} (m : M errors_t A) (Q : A -> run_state -> Prop)
  (E : exn -> run_state -> Prop) (st : run_state) :
  (forall st', sink st' = sink st -> db_response_json st' = db_response_json st ->
               (forall a, Q a st') /\ (forall e, E e st')) ->
  wp (on_errors m) Q E st.
Proof.
  intros H. unfold wp, on_errors.
  destruct (errors st) as [errs|]; [|apply H; reflexivity].
  destruct (m errs); apply H; reflexivity.
Qed.

Lemma validate_structure_still (cfg : settings) (pl : pipeline) (db : pystr)
  (js : json) (fixed : option bool) (st : run_state) :
  wp (validate_structure cfg pl db js fixed)
     (fun _ st' => sink st' = sink st /\ db_response_json st' = db_response_json st)
     (fun _ st' => sink st' = sink st /\ db_response_json st' = db_response_json st)
     st.
Proof.
  unfold validate_structure.
  apply wp_bind. apply wp_on_errors_still. intros st1 Hs1 Hd1.
  split; [intros []|intros _; auto].
  apply wp_bind. apply wp_errors_flag_quiet. intros st2 H2.
  split; [intros fm|intros _; quiet_solve].
  apply wp_bind. apply wp_errors_flag_quiet. intros st3 H3.
  split; [intros dm|intros _; quiet_solve].
  destruct (negb fm && negb dm).
  - destruct fixed as [[|]|]; apply wp_bind; apply wp_on_current_quiet;
      intros st4 H4; (split; [intros []|intros _; quiet_solve]);
      apply wp_ret; quiet_solve.
  - eapply wp_mono; [apply attempt_failed_quiet| |].
    + intros res st' (_ & Hq). quiet_solve.
    + intros ex st' Hq. quiet_solve.
Qed.

(** Writing the records collected so far extends every earlier write. *)
Lemma wp_write_response_appends (j : bool) (db : pystr) (t : option pystr)
  (Q : unit -> run_state -> Prop) (E : exn -> run_state -> Prop) (st : run_state) :
  unit_log db st ->
  (forall st', unit_log db st' ->
               db_response_json st' = db_response_json st -> Q tt st') ->
  wp (write_response j db t) Q E st.
Proof.
  intros (Ha & Hu) H. unfold wp, write_response, bind, get, emit, modify.
  apply H; [|reflexivity]. unfold unit_log. st_simpl.
  cbn [append_only unit_writes]. split; [split; assumption|].
  constructor; [|exact Hu]. split; [reflexivity|].
  exists []. now rewrite app_nil_r.
Qed.

Lemma wp_json_only_appends (b j : bool) (db : pystr) (t : option pystr)
  (Q : unit -> run_state -> Prop) (E : exn -> run_state -> Prop) (st : run_state) :
  unit_log db st ->
  (forall st', unit_log db st' ->
               db_response_json st' = db_response_json st -> Q tt st') ->
  wp (if b then write_response j db t else ret tt) Q E st.
Proof.
  intros HJ H. destruct b.
  - now apply wp_write_response_appends.
  - apply wp_ret. now apply H.
Qed.

(** One attempt. *)
Lemma attempt_appends (cfg : settings) (w : world) (pl : pipeline) (db : pystr)
  (rv : response_var) (st : run_state) :
  unit_log db st ->
  wp (attempt cfg w pl db rv)
     (fun _ st' => unit_log db st' /\ db_response_json st' = db_response_json st)
     (fun _ st' => append_only (sink st')) st.
Proof.
  intros HJ. unfold attempt.
  apply wp_bind. unfold set_errors. apply wp_modify.
  apply wp_bind. apply wp_on_current_quiet. intros st1 H1.
  split; [intros []|intros _; log_solve].
  assert (HJ1 : unit_log db st1) by log_solve.
  assert (Hd1 : db_response_json st1 = db_response_json st) by quiet_solve.
  clear H1.
  apply wp_bind. unfold next_call, wp at 1. st_simpl.
  assert (Hfail : forall (stA : run_state) (rv' : response_var),
    unit_log db stA ->
    db_response_json stA = db_response_json st ->
    wp (bind attempt_failed (fun r => ret (fst r, rv', snd r)))
       (fun _ st' => unit_log db st' /\ db_response_json st' = db_response_json st)
       (fun _ st' => append_only (sink st')) stA).
  { intros stA rv' HJA HdA. apply wp_bind.
    eapply wp_mono; [apply attempt_failed_quiet| |intros ex st' Hq; log_solve].
    intros res st' (_ & Hq). apply wp_ret. split; log_solve. }
  destruct (generate (lower (model_origin cfg)) (provider w (calls st1)))
    as [rd|msg].
  - (* the provider replied *)
    apply wp_bind. apply wp_write_response_appends; [log_solve|].
    intros st2 HJ2 Hd2. st_simpl_all.
    apply wp_bind. apply wp_json_only_appends; [exact HJ2|].
    intros st3 HJ3 Hd3.
    apply wp_bind. apply wp_on_current_quiet. intros st4 H4.
    split; [intros []|intros _; log_solve].
    apply wp_bind. apply wp_on_errors_still. intros st5 Hs5 Hd5.
    split; [intros passed|intros _; log_solve].
    assert (HJ5 : unit_log db st5) by log_solve.
    assert (Hd5' : db_response_json st5 = db_response_json st) by quiet_solve.
    destruct passed; [|apply Hfail; assumption].
    apply wp_bind. apply wp_on_errors_still. intros st6 Hs6 Hd6.
    split; [intros jf|intros _; log_solve].
    assert (HJ6 : unit_log db st6) by log_solve.
    assert (Hd6' : db_response_json st6 = db_response_json st) by congruence.
    destruct (fst jf);
      first
        [ apply Hfail; assumption
        | apply wp_bind;
          (eapply wp_mono;
           [apply validate_structure_still
           |intros res st' (Hs & Hd); apply wp_ret; split; log_solve
           |intros ex st' (Hs & Hd); log_solve]) ].
  - (* the provider failed *)
    apply wp_bind. apply wp_on_errors_still. intros st2 Hs2 Hd2.
    split; [intros []|intros _; log_solve].
    apply wp_bind. apply wp_on_current_quiet. intros st3 H3.
    split; [intros []|intros _; log_solve].
    apply wp_bind. apply wp_get.
    apply wp_bind. unfold set_max_fail_counter. apply wp_modify.
    apply wp_bind.
    destruct (max_fail_limit cfg <=? max_fail_counter st3 + 1)%Z.
    { unfold max_fail_exit. apply wp_raise. log_solve. }
    apply wp_ret. apply Hfail; log_solve.
Qed.

Lemma attempts_appends (cfg : settings) (w : world) (pl : pipeline) (db : pystr)
  (n : nat) :
  forall (rv : response_var) (kinds : list attempt_kind) (st : run_state),
    unit_log db st ->
    wp (attempts cfg w pl db n rv kinds)
       (fun _ st' => unit_log db st' /\ db_response_json st' = db_response_json st)
       (fun _ st' => append_only (sink st')) st.
Proof.
  induction n as [|n IH]; intros rv kinds st HJ.
  - apply wp_ret. auto.
  - cbn [attempts]. apply wp_bind.
    eapply wp_mono; [apply (attempt_appends cfg w pl db rv st HJ)| |auto].
    intros [[ex rv'] k] st' (HJ' & Hd'). destruct ex.
    + apply wp_ret. auto.
    + eapply wp_mono; [apply (IH rv' (kinds ++ [k]) st' HJ')| |auto].
      intros res st2 (HJ2 & Hd2). split; [exact HJ2|congruence].
Qed.

(** One batch: the records of an accepted response are appended. *)
Lemma process_batch_appends (cfg : settings) (w : world) (pl : pipeline) (db : pystr)
  (current_questions : list json) (st : run_state) :
  unit_log db st ->
  wp (process_batch cfg w pl db current_questions)
     (fun _ st' => unit_log db st') (fun _ st' => append_only (sink st')) st.
Proof.
  intros HJ. unfold process_batch.
  apply wp_bind.
  eapply wp_mono; [apply attempts_appends; exact HJ| |auto].
  intros [rv kinds] st1 (HJ1 & Hd1). cbn [fst snd].
  apply wp_bind. unfold read_errors. apply wp_on_errors_still. intros st2 Hs2 Hd2.
  split; [intros errs|intros _; log_solve].
  assert (HJ2 : unit_log db st2) by log_solve.
  destruct (negb (Nat.eqb (errors_sum errs) 0)).
  - apply wp_bind. apply wp_on_pipeline_quiet. intros st3 H3.
    split; [intros []|intros _; log_solve].
    unfold record_batch. apply wp_modify. log_solve.
  - destruct rv as [| |js]; [apply wp_raise; log_solve..|].
    apply wp_bind. apply wp_lift_result.
    destruct (py_iter js) as [records|e]; [|log_solve].
    apply wp_bind. apply wp_get.
    apply wp_bind. unfold set_db_response_json. apply wp_modify.
    apply wp_bind. apply wp_write_response_appends.
    { destruct HJ2 as (Ha & Hu). unfold unit_log. st_simpl. split; [exact Ha|].
      eapply Forall_impl; [|exact Hu]. intros earlier. apply extends_app. }
    intros st3 HJ3 Hd3.
    apply wp_bind. apply wp_json_only_appends; [exact HJ3|].
    intros st4 HJ4 Hd4.
    unfold record_batch. apply wp_modify. log_solve.
Qed.

Lemma batches_appends (cfg : settings) (w : world) (pl : pipeline) (db : pystr)
  (question_data : list json) (starts : list nat) :
  forall st : run_state,
    unit_log db st ->
    wp (batches cfg w pl db question_data starts)
       (fun _ st' => unit_log db st') (fun _ st' => append_only (sink st')) st.
Proof.
  induction starts as [|i starts IH]; intros st HJ.
  - apply wp_ret. exact HJ.
  - cbn [batches].
    destruct (firstn (max_question_length_per_prompt cfg) (skipn i question_data))
      as [|q qs].
    + apply wp_ret. exact HJ.
    + apply wp_bind.
      eapply wp_mono; [apply process_batch_appends; exact HJ| |auto].
      intros [] st' HJ'. apply IH. exact HJ'.
Qed.

(** One source unit: its ledger closes its writes. *)
Lemma process_source_appends (cfg : settings) (w : world) (pl : pipeline)
  (f : source_file) (st : run_state) :
  units_log st ->
  wp (process_source cfg w pl f)
     (fun _ st' => units_log st') (fun _ st' => append_only (sink st')) st.
Proof.
  intros HU. unfold process_source.
  apply wp_bind. apply wp_on_current_quiet. intros st1 H1.
  split; [intros []|intros _; log_solve].
  assert (HU1 : units_log st1) by log_solve.
  destruct f as [|db question_data real_time]; [apply wp_ret; exact HU1|].
  destruct question_data as [|q qs]; [apply wp_raise; log_solve|].
  apply wp_bind. unfold set_current_db. apply wp_modify.
  match goal with |- wp (if ?c then _ else _) _ _ _ => destruct c end.
  { apply wp_ret. log_solve. }
  apply wp_bind. unfold set_db_response_json. apply wp_modify.
  apply wp_bind.
  destruct (max_question_length_per_prompt cfg) as [|k];
    [apply wp_raise; log_solve|].
  eapply wp_mono; [apply (batches_appends cfg w pl db)| |auto].
  { destruct HU1 as (Ha & Hn). unfold unit_log. st_simpl.
    split; [exact Ha|]. rewrite Hn. constructor. }
  intros [] st2 HJ2.
  apply wp_bind. apply wp_get.
  apply wp_bind. apply wp_lift_result.
  destruct (response_total (get_stats (current_stats st2))) as [total|e];
    [|log_solve].
  apply wp_bind. apply wp_on_current_quiet. intros st3 H3.
  split; [intros []|intros _; log_solve].
  apply wp_bind. apply wp_get.
  apply wp_bind. apply wp_on_pipeline_quiet. intros st4 H4.
  split; [intros []|intros _; log_solve].
  apply wp_bind. apply wp_get. cbn [write_stats]. unfold emit. apply wp_modify.
  unfold units_log. st_simpl. cbn [append_only unit_writes].
  split; [split; [exact I|log_solve]|reflexivity].
Qed.

Lemma sources_appends (cfg : settings) (w : world) (pl : pipeline)
  (fs : list source_file) :
  forall st : run_state,
    units_log st ->
    wp (sources cfg w pl fs)
       (fun _ st' => units_log st') (fun _ st' => append_only (sink st')) st.
Proof.
  induction fs as [|f fs IH]; intros st HU.
  - apply wp_ret. exact HU.
  - cbn [sources]. apply wp_bind.
    eapply wp_mono; [apply process_source_appends; exact HU| |auto].
    intros [] st' HU'. apply IH. exact HU'.
Qed.

(** Writing a ledger of a pipeline or of the run between two units. *)
Lemma wp_write_stats_appends (level : nat) (stats : Stats) (db : pystr)
  (Q : unit -> run_state -> Prop) (E : exn -> run_state -> Prop) (st : run_state) :
  units_log st ->
  (forall st', units_log st' -> Q tt st') ->
  wp (write_stats level stats db) Q E st.
Proof.
  intros (Ha & Hn) H. unfold write_stats, emit.
  destruct level as [|[|[|level]]].
  - apply wp_modify. apply H. unfold units_log. st_simpl.
    cbn [append_only unit_writes]. auto.
  - apply wp_bind. apply wp_modify.
    destruct (skipped_db_prompts stats).
    + apply wp_ret. apply H. unfold units_log. st_simpl.
      cbn [append_only unit_writes]. auto.
    + apply wp_modify. apply H. unfold units_log. st_simpl.
      cbn [append_only unit_writes]. auto.
  - apply wp_modify. apply H. unfold units_log. st_simpl.
    cbn [append_only unit_writes]. auto.
  - apply wp_ret. apply H. split; assumption.
Qed.

Lemma process_pipeline_appends (cfg : settings) (w : world) (pl : pipeline)
  (st : run_state) :
  units_log st ->
  wp (process_pipeline cfg w pl)
     (fun _ st' => units_log st') (fun _ st' => append_only (sink st')) st.
Proof.
  intros HU. unfold process_pipeline.
  apply wp_bind. apply wp_on_pipeline_quiet. intros st1 H1.
  split; [intros []|intros _; log_solve].
  assert (HU1 : units_log st1) by log_solve.
  destruct (question_files pl) as [fs|]; [|apply wp_ret; exact HU1].
  apply wp_bind.
  eapply wp_mono; [apply sources_appends; exact HU1| |auto].
  intros [] st2 HU2.
  apply wp_bind. unfold read_current_db, wp at 1.
  destruct (current_db st2) as [db|]; [|apply HU2].
  apply wp_bind. apply wp_get.
  apply wp_bind. apply wp_write_stats_appends; [exact HU2|].
  intros st3 HU3.
  apply wp_on_overall_quiet. intros st4 H4.
  split; [intros []|intros _]; log_solve.
Qed.

Lemma pipelines_appends (cfg : settings) (w : world) (pls : list pipeline) :
  forall st : run_state,
    units_log st ->
    wp (pipelines cfg w pls)
       (fun _ st' => units_log st') (fun _ st' => append_only (sink st')) st.
Proof.
  induction pls as [|pl pls IH]; intros st HU.
  - apply wp_ret. exact HU.
  - cbn [pipelines]. apply wp_bind.
    eapply wp_mono; [apply process_pipeline_appends; exact HU| |auto].
    intros [] st' HU'. apply IH. exact HU'.
Qed.

(** X21.  The records of a source unit only grow: in every run, completed
    or aborted, each list of records handed to write_response holds at its
    head the records of every write made before it since the ledger of the
    last finished source unit, and is written for the same source unit;
    nothing once written is dropped by a later write of its unit. *)
Theorem run_records_append_only (cfg : settings) (w : world) :
  append_only (sink (final_state (run cfg w))).
Proof.
  unfold run.
  apply (wp_final (run_from cfg w) (fun st => append_only (sink st))).
  unfold run_from. apply wp_bind.
  eapply wp_mono; [apply pipelines_appends| |auto].
  - split; [exact I|reflexivity].
  - intros [] st HU.
    apply wp_bind. unfold read_current_db, wp at 1.
    destruct (current_db st) as [db|]; [|apply HU].
    apply wp_bind. apply wp_get.
    apply wp_write_stats_appends; [exact HU|]. intros st' HU'. apply HU'.
Qed.
